(** * The agent core of [agents/shared/base_agent.py]

    A shallow embedding of the tool decorator, the introspection query,
    the state model and the messaging stub of [UniversalAgent], together
    with [collect_tools] of [agents/tools/adk_adapter.py].

    Python objects that are only read are values of [pyval]; the
    [AgentState] instances, which the code replaces and hands out by
    reference, live in a heap; the file system, the clock, the entropy
    source, the logging output and the outcomes of the [__repr__] methods
    of classes from outside the agent core are components of an explicit
    [world] threaded through every call.  A method defined with
    [async def] returns a coroutine object, whose body runs when it is
    awaited. *)

From Stdlib Require Import ZArith Lia List Bool Ascii String.
From stdpp Require Import base option list gmap strings pretty sorting.

Set Warnings "-register-all".

Local Open Scope Z_scope.
Local Open Scope string_scope.
Local Open Scope list_scope.

(** ** Text helpers (Python [str] operations the code uses) *)

Module Text.

Definition dquote : string := String "034"%char EmptyString.
Definition squote : string := String "039"%char EmptyString.
Definition newline : string := String "010"%char EmptyString.

(** [s.startswith(p)] *)
Fixpoint startswith (p s : string) : bool :=
  match p, s with
  | EmptyString, _ => true
  | String a p', String b s' => if Ascii.eqb a b then startswith p' s' else false
  | String _ _, EmptyString => false
  end.

(** [s[:n]] for a non-negative [n] *)
Fixpoint take (n : nat) (s : string) : string :=
  match n, s with
  | O, _ => EmptyString
  | S n', String a s' => String a (take n' s')
  | S _, EmptyString => EmptyString
  end.

(** [sep.join(parts)] *)
Fixpoint join (sep : string) (parts : list string) : string :=
  match parts with
  | [] => EmptyString
  | [p] => p
  | p :: rest => p +:+ sep +:+ join sep rest
  end.

(** [c in s] for a single character *)
Fixpoint contains (c : ascii) (s : string) : bool :=
  match s with
  | EmptyString => false
  | String a s' => if Ascii.eqb a c then true else contains c s'
  end.

Definition hex_digit (d : N) : ascii :=
  match d with
  | 0 => "0" | 1 => "1" | 2 => "2" | 3 => "3" | 4 => "4" | 5 => "5"
  | 6 => "6" | 7 => "7" | 8 => "8" | 9 => "9" | 10 => "a" | 11 => "b"
  | 12 => "c" | 13 => "d" | 14 => "e" | _ => "f"
  end%N%char.

(** ['%0<width>x' % n]: [width] lower-case hexadecimal digits, most
    significant first (the digits of [n] beyond [width] are dropped; the
    callers stay below [16 ^ width]). *)
Fixpoint hex_fixed (width : nat) (n : N) : string :=
  match width with
  | O => EmptyString
  | S w => hex_fixed w (n / 16) +:+ String (hex_digit (n mod 16)) EmptyString
  end.

(** ['%0<width>d' % n] for a natural number *)
Definition zero_pad (width : nat) (n : nat) : string :=
  let digits := pretty n in
  String.concat EmptyString (replicate (width - String.length digits) "0") +:+ digits.

End Text.

(** ** Python values *)

Module Py.

(** The values that travel through the agent core: payloads, tool
    arguments and results, state fields.  [VEnum cls v] is the member of
    the [str]-based enumeration [cls] whose value is [v]; [VObject cls
    text] is an instance of any other class, [text] being what its
    [__repr__] returns. *)
Inductive pyval : Type :=
| VNone
| VBool (b : bool)
| VInt (z : Z)
| VStr (s : string)
| VEnum (cls member : string)
| VList (xs : list pyval)
| VDict (items : list (string * pyval))
| VObject (cls text : string).

(** [type(v).__name__] *)
Definition type_name (v : pyval) : string :=
  match v with
  | VNone => "NoneType"
  | VBool _ => "bool"
  | VInt _ => "int"
  | VStr _ => "str"
  | VEnum cls _ => cls
  | VList _ => "list"
  | VDict _ => "dict"
  | VObject cls _ => cls
  end.

(** [bool(v)] *)
Definition truthy (v : pyval) : bool :=
  match v with
  | VNone => false
  | VBool b => b
  | VInt z => negb (Z.eqb z 0)
  | VStr s => negb (String.eqb s EmptyString)
  | VEnum _ m => negb (String.eqb m EmptyString)
  | VList xs => match xs with [] => false | _ => true end
  | VDict items => match items with [] => false | _ => true end
  | VObject _ _ => true
  end.

(** *** [repr] *)

(** [str.isprintable] on one code point below 256 *)
Definition printable (c : ascii) : bool :=
  let n := N_of_ascii c in
  (N.leb 32 n && N.ltb n 127) || (N.leb 161 n && negb (N.eqb n 173)).

Definition repr_char (quote : ascii) (c : ascii) : string :=
  if Ascii.eqb c "\" then "\\"
  else if Ascii.eqb c quote then String "\" (String quote EmptyString)
  else if Ascii.eqb c "009" then "\t"
  else if Ascii.eqb c "010" then "\n"
  else if Ascii.eqb c "013" then "\r"
  else if printable c then String c EmptyString
  else "\x" +:+ Text.hex_fixed 2 (N_of_ascii c).

Fixpoint repr_chars (quote : ascii) (s : string) : string :=
  match s with
  | EmptyString => EmptyString
  | String c s' => repr_char quote c +:+ repr_chars quote s'
  end.

(** [repr] of a [str]: single quotes unless the text holds a single
    quote and no double quote. *)
Definition repr_str (s : string) : string :=
  let quote : ascii :=
    if Text.contains "039"%char s && negb (Text.contains "034"%char s)
    then "034"%char else "039"%char in
  String quote (repr_chars quote s +:+ String quote EmptyString).

Fixpoint repr (v : pyval) : string :=
  match v with
  | VNone => "None"
  | VBool true => "True"
  | VBool false => "False"
  | VInt z => pretty z
  | VStr s => repr_str s
  | VEnum cls m => "<" +:+ cls +:+ "." +:+ m +:+ ": " +:+ repr_str m +:+ ">"
  | VList xs => "[" +:+ Text.join ", " (map repr xs) +:+ "]"
  | VDict items =>
      "{" +:+ Text.join ", " (map (fun kv => repr_str (fst kv) +:+ ": " +:+ repr (snd kv)) items)
          +:+ "}"
  | VObject _ text => text
  end.

(** [str(member)] of a [str]-based [Enum] member *)
Definition str_enum (cls member : string) : string := cls +:+ "." +:+ member.

(** [str(v)] *)
Definition str_of (v : pyval) : string :=
  match v with
  | VStr s => s
  | VEnum cls m => str_enum cls m
  | _ => repr v
  end.

(** The text [str(args)] gives for the tuple of positional arguments,
    once every [__repr__] it calls has returned *)
Definition str_tuple (args : list pyval) : string :=
  match args with
  | [] => "()"
  | [a] => "(" +:+ repr a +:+ ",)"
  | _ => "(" +:+ Text.join ", " (map repr args) +:+ ")"
  end.

(** The number of [__repr__] methods of classes from outside that
    [repr(v)] calls: one for each instance of such a class in [v], the
    containers calling [repr] on what they hold. *)
Fixpoint instances (v : pyval) : nat :=
  match v with
  | VObject _ _ => 1
  | VList xs => foldr Nat.add O (map instances xs)
  | VDict items => foldr Nat.add O (map (fun kv => instances (snd kv)) items)
  | _ => O
  end.

(** *** [json.dumps] with its default settings *)

Definition json_char (c : ascii) : string :=
  if Ascii.eqb c "034" then String "\" Text.dquote
  else if Ascii.eqb c "\" then "\\"
  else if Ascii.eqb c "010" then "\n"
  else if Ascii.eqb c "013" then "\r"
  else if Ascii.eqb c "009" then "\t"
  else if Ascii.eqb c "008" then "\b"
  else if Ascii.eqb c "012" then "\f"
  else if N.leb 32 (N_of_ascii c) && N.ltb (N_of_ascii c) 127 then String c EmptyString
  else "\u" +:+ Text.hex_fixed 4 (N_of_ascii c).

Fixpoint json_chars (s : string) : string :=
  match s with
  | EmptyString => EmptyString
  | String c s' => json_char c +:+ json_chars s'
  end.

Definition json_str (s : string) : string :=
  Text.dquote +:+ json_chars s +:+ Text.dquote.

(** [None] stands for the [TypeError] that [json.dumps] raises on a value
    it cannot serialise. *)
Fixpoint json_dumps (v : pyval) : option string :=
  match v with
  | VNone => Some "null"
  | VBool true => Some "true"
  | VBool false => Some "false"
  | VInt z => Some (pretty z)
  | VStr s => Some (json_str s)
  | VEnum _ m => Some (json_str m)
  | VList xs =>
      match mapM json_dumps xs with
      | Some parts => Some ("[" +:+ Text.join ", " parts +:+ "]")
      | None => None
      end
  | VDict items =>
      match mapM (fun kv => match json_dumps (snd kv) with
                            | Some t => Some (json_str (fst kv) +:+ ": " +:+ t)
                            | None => None
                            end) items with
      | Some parts => Some ("{" +:+ Text.join ", " parts +:+ "}")
      | None => None
      end
  | VObject _ _ => None
  end.

(** The type of the first value [json.dumps] cannot serialise, if any *)
Fixpoint json_offender (v : pyval) : option string :=
  match v with
  | VObject cls _ => Some cls
  | VList xs =>
      (fix first (l : list pyval) : option string :=
         match l with
         | [] => None
         | x :: l' => match json_offender x with
                      | Some c => Some c
                      | None => first l'
                      end
         end) xs
  | VDict items =>
      (fix first (l : list (string * pyval)) : option string :=
         match l with
         | [] => None
         | kv :: l' => match json_offender (snd kv) with
                       | Some c => Some c
                       | None => first l'
                       end
         end) items
  | _ => None
  end.

(** *** Exceptions and outcomes *)

(** An exception instance: its class name, whether that class derives
    from [Exception] (it always derives from [BaseException]), and its
    message. *)
Record pyexn : Type := MkExn {
  exc_type : string;
  exc_is_Exception : bool;
  exc_msg : string
}.

Inductive result (A : Type) : Type :=
| Return (a : A)
| Raise (e : pyexn).

Arguments Return {A} a.
Arguments Raise {A} e.

(** State-and-exception monad: a computation runs in a state [S] and
    either returns or raises; the state it leaves behind is kept in both
    cases, as an exception does not undo earlier effects. *)
Definition M (S A : Type) : Type := S -> result A * S.

Definition ret {S A} (a : A) : M S A := fun s => (Return a, s).

Definition raise {S A} (e : pyexn) : M S A := fun s => (Raise e, s).

Definition bind {S A B} (m : M S A) (k : A -> M S B) : M S B :=
  fun s => match m s with
           | (Return a, s') => k a s'
           | (Raise e, s') => (Raise e, s')
           end.

(** [try: m  except Exception: handler] *)
Definition try_except_Exception {S A} (m : M S A) (handler : pyexn -> M S A) : M S A :=
  fun s => match m s with
           | (Return a, s') => (Return a, s')
           | (Raise e, s') =>
               if exc_is_Exception e then handler e s' else (Raise e, s')
           end.

Definition get {S} : M S S := fun s => (Return s, s).

Definition modify {S} (f : S -> S) : M S unit := fun s => (Return tt, f s).

End Py.

Export Py.

(** The computations are written with the monadic notations of stdpp:
    [x ← m; k] and [m ;; k]. *)
#[global] Instance M_ret {S} : MRet (M S) := fun A => @ret S A.
#[global] Instance M_bind {S} : MBind (M S) := fun A B k m => @bind S A B m k.
#[global] Instance M_fmap {S} : FMap (M S) := fun A B f m => @bind S A B m (fun a => ret (f a)).

(** ** The environment: clock, entropy, paths, files, logging *)

Module Env.

(** *** [datetime] *)

Record datetime : Type := MkDatetime {
  dt_year : nat; dt_month : nat; dt_day : nat;
  dt_hour : nat; dt_minute : nat; dt_second : nat;
  dt_microsecond : nat
}.

(** [datetime.isoformat()] of a naive datetime: the fraction is printed
    only when the microsecond field is not zero. *)
Definition isoformat (d : datetime) : string :=
  Text.zero_pad 4 (dt_year d) +:+ "-" +:+ Text.zero_pad 2 (dt_month d) +:+ "-"
  +:+ Text.zero_pad 2 (dt_day d) +:+ "T"
  +:+ Text.zero_pad 2 (dt_hour d) +:+ ":" +:+ Text.zero_pad 2 (dt_minute d) +:+ ":"
  +:+ Text.zero_pad 2 (dt_second d)
  +:+ (if Nat.eqb (dt_microsecond d) 0 then EmptyString
       else "." +:+ Text.zero_pad 6 (dt_microsecond d)).

(** *** [uuid] *)




(** *** [os.path] (POSIX) *)

Fixpoint drop_while (p : ascii -> bool) (l : list ascii) : list ascii :=
  match l with
  | [] => []
  | c :: l' => if p c then drop_while p l' else l
  end.

Definition is_sep (c : ascii) : bool := Ascii.eqb c "/".

(** [os.path.dirname]: cut after the last separator, then strip the
    trailing separators unless nothing else is left. *)
Definition dirname (p : string) : string :=
  let head := rev (drop_while (fun c => negb (is_sep c)) (rev (list_ascii_of_string p))) in
  if forallb is_sep head then string_of_list_ascii head
  else string_of_list_ascii (rev (drop_while is_sep (rev head))).

Definition endswith_sep (p : string) : bool :=
  match rev (list_ascii_of_string p) with
  | c :: _ => is_sep c
  | [] => false
  end.

(** [os.path.join(a, *parts)] *)
Fixpoint join (a : string) (parts : list string) : string :=
  match parts with
  | [] => a
  | b :: rest =>
      if Text.startswith "/" b then join b rest
      else if String.eqb a EmptyString || endswith_sep a then join (a +:+ b) rest
      else join (a +:+ "/" +:+ b) rest
  end.

(** *** The file system *)

(** The ways a file-system call can fail; each is an [OSError] (the first
    five are its subclasses), hence an [Exception]. *)
Inductive os_error : Type :=
| EACCES | ENOENT | EEXIST | EISDIR | ENOTDIR | EROFS | ENOSPC | EIO.

Definition os_error_class (e : os_error) : string :=
  match e with
  | EACCES => "PermissionError"
  | ENOENT => "FileNotFoundError"
  | EEXIST => "FileExistsError"
  | EISDIR => "IsADirectoryError"
  | ENOTDIR => "NotADirectoryError"
  | EROFS | ENOSPC | EIO => "OSError"
  end.

Definition os_error_text (e : os_error) : string :=
  match e with
  | EACCES => "Permission denied"
  | ENOENT => "No such file or directory"
  | EEXIST => "File exists"
  | EISDIR => "Is a directory"
  | ENOTDIR => "Not a directory"
  | EROFS => "Read-only file system"
  | ENOSPC => "No space left on device"
  | EIO => "Input/output error"
  end.

Definition OSError (e : os_error) (path : string) : pyexn :=
  MkExn (os_error_class e) true (os_error_text e +:+ ": " +:+ path).

(** Directories, files with their text, and the outcome the system has in
    store for each coming call: [Some e] makes the call fail with [e], and
    a call beyond the end of the list goes through.  A write that fails
    may have got part of its text out before the error: [fs_short] holds,
    for each coming failure of a write, the number of characters that
    reach the file (none beyond the end of the list). *)
Record filesystem : Type := MkFs {
  fs_dirs : gset string;
  fs_files : gmap string string;
  fs_faults : list (option os_error);
  fs_short : list nat
}.

(** *** Logging *)

Inductive level : Type := DEBUG | INFO | ERROR.

Record log_record : Type := MkLogRecord {
  lr_logger : string;
  lr_level : level;
  lr_message : string
}.

(** *** The world *)

Record world : Type := MkWorld {
  w_heap : gmap positive (gmap string pyval);  (* model instances, by reference *)
  w_fs : filesystem;
  w_clock : nat -> datetime;                   (* the coming values of utcnow() *)
  w_urandom : nat -> N;                        (* the coming values of os.urandom(16) *)
  w_records : list log_record;                 (* what the loggers were handed *)
  w_environ : gmap string string;              (* os.environ *)
  w_file : string;                             (* __file__ of base_agent.py *)
  w_reprs : list (option pyexn)                (* the coming outcomes of __repr__ calls *)
}.

Definition set_heap (h : gmap positive (gmap string pyval)) (w : world) : world :=
  MkWorld h (w_fs w) (w_clock w) (w_urandom w) (w_records w) (w_environ w) (w_file w)
          (w_reprs w).

Definition set_fs (f : filesystem) (w : world) : world :=
  MkWorld (w_heap w) f (w_clock w) (w_urandom w) (w_records w) (w_environ w) (w_file w)
          (w_reprs w).

Definition set_clock (c : nat -> datetime) (w : world) : world :=
  MkWorld (w_heap w) (w_fs w) c (w_urandom w) (w_records w) (w_environ w) (w_file w)
          (w_reprs w).


Definition set_reprs (o : list (option pyexn)) (w : world) : world :=
  MkWorld (w_heap w) (w_fs w) (w_clock w) (w_urandom w) (w_records w) (w_environ w) (w_file w) o.

Definition set_records (r : list log_record) (w : world) : world :=
  MkWorld (w_heap w) (w_fs w) (w_clock w) (w_urandom w) r (w_environ w) (w_file w)
          (w_reprs w).

(** [datetime.utcnow()] *)
Definition utcnow : M world datetime :=
  fun w => (Return (w_clock w O), set_clock (fun n => w_clock w (S n)) w).


(** [os.getenv(name, default)] *)
Definition getenv (name fallback : string) : M world string :=
  fun w => (Return (default fallback (w_environ w !! name)), w).

(** [logger.<level>(message)]: the record is handed to the logger. *)
Definition log (logger : string) (lv : level) (message : string) : M world unit :=
  modify (fun w => set_records (w_records w ++ [MkLogRecord logger lv message]) w).

(** Every file-system call first learns whether the system fails it. *)
Definition syscall (path : string) : M world unit :=
  fun w =>
    match fs_faults (w_fs w) with
    | [] => (Return tt, w)
    | outcome :: rest =>
        let w' := set_fs (MkFs (fs_dirs (w_fs w)) (fs_files (w_fs w)) rest
                               (fs_short (w_fs w))) w in
        match outcome with
        | Some e => (Raise (OSError e path), w')
        | None => (Return tt, w')
        end
    end.

(** One call of the [__repr__] of an instance of a class from outside the
    agent core: it returns, or raises what the world has in store for it,
    which need not derive from [Exception]; a call beyond the end of the
    list returns. *)
Definition call_repr : M world unit :=
  fun w =>
    match w_reprs w with
    | [] => (Return tt, w)
    | outcome :: rest =>
        match outcome with
        | Some e => (Raise e, set_reprs rest w)
        | None => (Return tt, set_reprs rest w)
        end
    end.

(** What [str(args)] runs before it has its text: the [__repr__] of every
    instance among the arguments, one after the other; the first that
    raises ends the rendering. *)
Fixpoint call_reprs (n : nat) : M world unit :=
  match n with
  | O => ret tt
  | S n' => call_repr ;; call_reprs n'
  end.

Definition rendering (args : list pyval) : M world unit :=
  call_reprs (instances (VList args)).

(** The directory [p] and the directories above it. *)
Fixpoint ancestors (fuel : nat) (p : string) : list string :=
  match fuel with
  | O => [p]
  | S n => if String.eqb (dirname p) p || String.eqb (dirname p) EmptyString then [p]
           else p :: ancestors n (dirname p)
  end.

(** The recursion of [os.makedirs(name, exist_ok=True)], [above] being the
    directories above [name], nearest first.  While the path above does
    not exist it is made first, a [FileExistsError] of that call being
    passed over; then comes [mkdir(name)], which is content with a
    directory that is there already, raises [FileExistsError] when [name]
    is a file and [NotADirectoryError] when the path above is one.  The
    result is the directories there are in the end, or the error with the
    path it is raised for. *)
Fixpoint mkdirs (fs : filesystem) (name : string) (above : list string)
    : os_error * string + gset string :=
  let mkdir (dirs : gset string) : os_error * string + gset string :=
    if decide (name ∈ dirs) then inr dirs
    else if decide (is_Some (fs_files fs !! name)) then inl (EEXIST, name)
    else inr ({[ name ]} ∪ dirs) in
  match above with
  | [] => mkdir (fs_dirs fs)
  | head :: rest =>
      if decide (head ∈ fs_dirs fs) then mkdir (fs_dirs fs)
      else if decide (is_Some (fs_files fs !! head)) then inl (ENOTDIR, name)
      else match mkdirs fs head rest with
           | inl (EEXIST, _) => mkdir (fs_dirs fs)
           | inl err => inl err
           | inr dirs => mkdir dirs
           end
  end.

(** [os.makedirs(path, exist_ok=True)] *)
Definition makedirs (path : string) : M world unit :=
  syscall path ;;
  w ← get;
  match mkdirs (w_fs w) path (tail (ancestors (String.length path) path)) with
  | inl (e, name) => raise (OSError e name)
  | inr dirs =>
      modify (fun w => set_fs (MkFs dirs (fs_files (w_fs w)) (fs_faults (w_fs w))
                                    (fs_short (w_fs w))) w)
  end.

(** [open(path, 'a', encoding='utf-8')]: the file is created when absent. *)
Definition open_append (path : string) : M world string :=
  syscall path ;;
  w ← get;
  if decide (path ∈ fs_dirs (w_fs w)) then raise (OSError EISDIR path)
  else if decide (dirname path ∈ fs_dirs (w_fs w)) then
    modify (fun w => set_fs (MkFs (fs_dirs (w_fs w))
                                  (<[path := default EmptyString (fs_files (w_fs w) !! path)]>
                                     (fs_files (w_fs w)))
                                  (fs_faults (w_fs w)) (fs_short (w_fs w))) w) ;;
    ret path
  else raise (OSError ENOENT path).

(** The file behind [lf] once [text] was added at its end *)
Definition extend (lf : string) (text : string) (fs : filesystem) : filesystem :=
  MkFs (fs_dirs fs)
       (<[lf := default EmptyString (fs_files fs !! lf) +:+ text]> (fs_files fs))
       (fs_faults fs) (fs_short fs).

(** [lf.write(text)] on a file opened for appending.  The text reaches the
    file through a buffer, at the latest when the file is closed; the model
    writes through.  When the system fails the write, the part of the
    text that got out before the error stays in the file: as many
    characters as [fs_short] has in store for this failure. *)
Definition write (lf : string) (text : string) : M world unit :=
  fun w =>
    match syscall lf w with
    | (Return _, w1) => (Return tt, set_fs (extend lf text (w_fs w1)) w1)
    | (Raise e, w1) =>
        let fs := w_fs w1 in
        let got_out := Text.take (hd O (fs_short fs)) text in
        (Raise e, set_fs (extend lf got_out
                                 (MkFs (fs_dirs fs) (fs_files fs) (fs_faults fs)
                                       (tail (fs_short fs)))) w1)
    end.

(** [lf.close()] *)
Definition close (lf : string) : M world unit := syscall lf.

(** [with open(path, 'a', encoding='utf-8') as lf: body lf]: the file is
    closed on the way out, whether the body returned or raised, and a
    failure to close is raised in either case. *)
Definition with_open_append {A} (path : string) (body : string -> M world A) : M world A :=
  lf ← open_append path;
  ((fun w => match body lf w with
             | (r, w1) =>
                 match close lf w1 with
                 | (Return _, w2) => (r, w2)
                 | (Raise e, w2) => (Raise e, w2)
                 end
             end) : M world A).

End Env.

Export Env.

(** ** [agents/shared/base_agent.py] *)

Module BaseAgent.

(** *** The enumerations (each a [str]-based [Enum]) *)

Module Status.
Inductive t : Type := active | idle | busy | error | maintenance.
Definition value (s : t) : string :=
  match s with
  | active => "active" | idle => "idle" | busy => "busy"
  | error => "error" | maintenance => "maintenance"
  end.
Definition to_py (s : t) : pyval := VEnum "Status" (value s).
End Status.

Module MessageType.
Inductive t : Type := request | response | notification | error.
Definition value (m : t) : string :=
  match m with
  | request => "request" | response => "response"
  | notification => "notification" | error => "error"
  end.
Definition to_py (m : t) : pyval := VEnum "MessageType" (value m).
End MessageType.

Module Priority.
Inductive t : Type := critical | high | medium | low.
Definition value (p : t) : string :=
  match p with
  | critical => "critical" | high => "high" | medium => "medium" | low => "low"
  end.
Definition to_py (p : t) : pyval := VEnum "Priority" (value p).
End Priority.

(** *** [AgentState] *)

(** An [AgentState] instance is its [__dict__]; instances are referred to
    by their address in the heap of the world. *)
Definition AgentState_fields : list string :=
  ["status"; "current_task"; "resource_utilization"; "dependencies"; "performance_metrics"].

(** [AgentState()]: every field takes its declared default. *)
Definition AgentState_default : gmap string pyval :=
  <["status" := Status.to_py Status.idle]>
  (<["current_task" := VNone]>
  (<["resource_utilization" := VDict []]>
  (<["dependencies" := VList []]>
  (<["performance_metrics" := VDict []]> ∅)))).

(** [d.update(kwargs)] on a dictionary: the entries are stored in turn. *)
Definition dict_update (d : gmap string pyval) (kwargs : list (string * pyval))
    : gmap string pyval :=
  foldl (fun acc kv => <[fst kv := snd kv]> acc) d kwargs.

(** Pydantic's [model_copy(update=kwargs)]: the [__dict__] of a new
    instance, a copy of the old one updated with [kwargs]; nothing is
    validated. *)
Definition model_copy (d : gmap string pyval) (kwargs : list (string * pyval))
    : gmap string pyval :=
  dict_update d kwargs.

(** Pydantic's [model_dump()]: a dictionary of the declared fields, in
    their order of declaration, with the values the instance holds. *)
Definition model_dump (d : gmap string pyval) : pyval :=
  VDict (omap (fun k => match d !! k with
                        | Some v => Some (k, v)
                        | None => None
                        end) AgentState_fields).

(** *** [Message] *)


(** *** Agents and their methods *)

(** The attributes [UniversalAgent.__init__] sets.  [state] refers to the
    current [AgentState] instance; [logger] is the name of the logger. *)
Record agent : Type := MkAgent {
  agent_id : string;
  role : string;
  model : string;
  state : positive;
  logger : string
}.

(** A method runs on its receiver and the world, and may change both;
    [R] is what a call returns. *)
Definition method_of (R : Type) : Type :=
  list pyval -> list (string * pyval) -> M (agent * world) R.

(** A method defined with [def]: a call runs the body and returns its
    value. *)
Abbreviation method := (method_of pyval).

(** A coroutine object: the body, which runs once the object is awaited *)
Record coroutine : Type := MkCoroutine {
  co_body : M (agent * world) pyval
}.

(** A method defined with [async def]: a call binds the arguments, runs
    nothing of the body and returns the coroutine object. *)
Abbreviation async_method := (method_of coroutine).

(** [await c], there being no other task to switch to *)
Definition await (c : coroutine) : M (agent * world) pyval := co_body c.

(** A world-only computation run from within a method *)
Definition lift {A} (m : M world A) : M (agent * world) A :=
  fun s => match m (snd s) with
           | (r, w') => (r, (fst s, w'))
           end.

Definition get_self : M (agent * world) agent := fun s => (Return (fst s), s).

(** [self.state = l] *)
Definition set_state (l : positive) : M (agent * world) unit :=
  modify (fun s => (MkAgent (agent_id (fst s)) (role (fst s)) (model (fst s)) l
                            (logger (fst s)), snd s)).

(** Reading the instance a reference points to.  A reference always
    points into the heap in Python; the model raises where it does not. *)
Definition deref (l : positive) : M world (gmap string pyval) :=
  fun w => match w_heap w !! l with
           | Some d => (Return d, w)
           | None => (Raise (MkExn "ReferenceError" true "dangling reference"), w)
           end.

(** A new instance, at an address not in use *)
Definition alloc (d : gmap string pyval) : M world positive :=
  fun w => let l := fresh (dom (w_heap w)) in
           (Return l, set_heap (<[l := d]> (w_heap w)) w).

(** [get_logger(name)]: the logger of that name *)
Definition get_logger (name : string) : string := name.

(** A function object: its [__name__], the attributes set on it, the
    function it wraps if any ([__wrapped__]), and its code. *)
Inductive pyfunc (C : Type) : Type := MkFunc {
  fn_name : string;
  fn_attrs : list (string * pyval);
  fn_wrapped : option (pyfunc C);
  fn_code : C
}.

Arguments MkFunc {C} _ _ _ _.
Arguments fn_name {C} _.
Arguments fn_attrs {C} _.
Arguments fn_wrapped {C} _.
Arguments fn_code {C} _.

(** [setattr(f, name, v)] *)
Definition setattr {C} (f : pyfunc C) (name : string) (v : pyval) : pyfunc C :=
  MkFunc (fn_name f)
         (filter (fun kv => negb (String.eqb (fst kv) name)) (fn_attrs f) ++ [(name, v)])
         (fn_wrapped f) (fn_code f).

(** *** The [tool] decorator *)

Definition json_dumps_or_raise {S} (v : pyval) : M S string :=
  match json_dumps v with
  | Some t => ret t
  | None => raise (MkExn "TypeError" true
                         ("Object of type " +:+ default "object" (json_offender v)
                          +:+ " is not JSON serializable"))
  end.

(** The keyword arguments as the log shows them: [{k: type(v).__name__}] *)
Definition kwargs_types (kwargs : list (string * pyval)) : pyval :=
  VDict (map (fun kv => (fst kv, VStr (type_name (snd kv)))) kwargs).

(** The text written for one action *)
Definition action_line (now : datetime) (id name : string) (args : list pyval)
    (kwargs_json : string) : string :=
  "- " +:+ isoformat now +:+ " | " +:+ id +:+ "." +:+ name +:+ ": "
  +:+ "{" +:+ Text.dquote +:+ "args" +:+ Text.dquote +:+ ": "
  +:+ Text.dquote +:+ Text.take 120 (str_tuple args) +:+ Text.dquote
  +:+ ", " +:+ Text.dquote +:+ "kwargs" +:+ Text.dquote +:+ ": " +:+ kwargs_json
  +:+ "}" +:+ Text.newline.

Definition action_log_path (file : string) : string :=
  let project_root := dirname (dirname (dirname file)) in
  join project_root ["agents"; "AGENT_ACTIONS.md"].

(** The text of the action log, empty while the file does not exist *)
Definition log_text (w : world) : string :=
  default EmptyString (fs_files (w_fs w) !! action_log_path (w_file w)).

(** One line appended to [agents/AGENT_ACTIONS.md], the directory being
    created when it does not exist. *)
Definition append_line (id name : string) (args : list pyval)
    (kwargs : list (string * pyval)) : M world unit :=
  w ← get;
  let log_path := action_log_path (w_file w) in
  makedirs (dirname log_path) ;;
  with_open_append log_path (fun lf =>
    now ← utcnow;
    rendering args ;;
    kw ← json_dumps_or_raise (kwargs_types kwargs);
    write lf (action_line now id name args kw)).

(** The body of the inner [try] of [wrapper] *)
Definition append_action {R} (func : pyfunc (method_of R)) (args : list pyval)
    (kwargs : list (string * pyval)) : M (agent * world) unit :=
  self ← get_self;
  lift (append_line (agent_id self) (fn_name func) args kwargs).

(** [wrapper(self, *args, **kwargs)] for the decorated [func]: whatever
    the call of [func] returns is the result, be it the value of a [def]
    or the coroutine object of an [async def]. *)
Definition wrapper {R} (func : pyfunc (method_of R)) : method_of R :=
  fun args kwargs =>
    result ← fn_code func args kwargs;
    try_except_Exception
      (try_except_Exception (append_action func args kwargs) (fun _ => ret tt))
      (fun _ => self ← get_self;
                lift (log (logger self) DEBUG
                          ("Failed to append action for " +:+ fn_name func))) ;;
    ret result.

(** [tool(func)], for any way [wrap] of building the wrapper's code: the
    function is flagged, and so is the wrapper, which remembers it. *)
Definition tool_with {C} (wrap : pyfunc C -> C) (func : pyfunc C) : pyfunc C :=
  let func' := setattr func "__is_tool__" (VBool true) in
  MkFunc "wrapper" [("__is_tool__", VBool true)] (Some func') (wrap func').

(** [tool(func)] *)
Definition tool {R} (func : pyfunc (method_of R)) : pyfunc (method_of R) :=
  tool_with wrapper func.

(** *** [UniversalAgent] *)

(** [UniversalAgent.__init__(self, agent_id, role, model)], in an instance
    of the class named [cls] *)
Definition init (cls : string) (agent_id role model : string) : M world agent :=
  model' ← (if negb (String.eqb model EmptyString) then ret model
            else getenv "AGENT_MODEL" "gemini-2.0-flash");
  st ← alloc AgentState_default;
  ret (MkAgent agent_id role model' st (get_logger cls)).

Section Introspection.

Context {C : Type}.

(** What an attribute of an object can hold: a value that cannot be
    called, or a function (which [getattr] hands out bound to the
    object). *)
Inductive attr : Type :=
| Data (v : pyval)
| Callable (f : pyfunc C).

(** An object as introspection sees it: the instance [__dict__], and the
    namespaces of its class and of the bases in method-resolution order,
    each in declaration order. *)
Record pyobject : Type := MkObject {
  obj_dict : list (string * attr);
  obj_mro : list (list (string * attr))
}.

Definition lookup_ns (name : string) (ns : list (string * attr)) : option attr :=
  match find (fun kv => String.eqb (fst kv) name) ns with
  | Some kv => Some (snd kv)
  | None => None
  end.

(** [dir(obj)]: the names of the instance, of the class and of its bases,
    without repetition, in ascending order. *)
Definition dir (obj : pyobject) : list string :=
  merge_sort String.le
    (remove_dups (map fst (obj_dict obj) ++ concat (map (map fst) (obj_mro obj)))).

(** [getattr(obj, name)]: the instance first, then the classes in order. *)
Definition getattr (obj : pyobject) (name : string) : option attr :=
  match lookup_ns name (obj_dict obj) with
  | Some a => Some a
  | None =>
      (fix go (mro : list (list (string * attr))) : option attr :=
         match mro with
         | [] => None
         | ns :: rest =>
             match lookup_ns name ns with
             | Some a => Some a
             | None => go rest
             end
         end) (obj_mro obj)
  end.

(** [callable(candidate)] *)
Definition callable (a : attr) : bool :=
  match a with
  | Data _ => false
  | Callable _ => true
  end.

(** [getattr(candidate, "__is_tool__", False)] *)
Definition is_tool_attr (a : attr) : pyval :=
  match a with
  | Data _ => VBool false
  | Callable f =>
      match find (fun kv => String.eqb (fst kv) "__is_tool__") (fn_attrs f) with
      | Some kv => snd kv
      | None => VBool false
      end
  end.

(** The loop of [tool_methods], over the names still to visit; each
    method found is kept with the name it was found under. *)
Fixpoint scan (obj : pyobject) (names : list string) : list (string * attr) :=
  match names with
  | [] => []
  | name :: rest =>
      if Text.startswith "_" name then scan obj rest
      else match getattr obj name with
           | Some candidate =>
               if callable candidate && truthy (is_tool_attr candidate)
               then (name, candidate) :: scan obj rest
               else scan obj rest
           | None => scan obj rest
           end
  end.

(** [UniversalAgent.tool_methods(self)] *)
Definition tool_methods (self : pyobject) : list attr :=
  map snd (scan self (dir self)).

End Introspection.

Arguments attr C : clear implicits.
Arguments pyobject C : clear implicits.

(** [UniversalAgent.update_state(self, **kwargs)] *)
Definition update_state (kwargs : list (string * pyval)) : M (agent * world) positive :=
  self ← get_self;
  current ← lift (deref (state self));
  updated ← lift (alloc (model_copy current kwargs));
  set_state updated ;;
  self ← get_self;
  dumped ← model_dump <$> lift (deref updated);
  lift (log (logger self) DEBUG ("state_updated | " +:+ repr dumped)) ;;
  self ← get_self;
  ret (state self).

(** [UniversalAgent.get_state(self)] *)
Definition get_state : M (agent * world) pyval :=
  self ← get_self;
  current ← lift (deref (state self));
  ret (model_dump current).


End BaseAgent.

Export BaseAgent.

(** ** [agents/tools/adk_adapter.py] *)

Module AdkAdapter.

(** [collect_tools(obj)]: the same loop as [tool_methods], on any object. *)
Definition collect_tools {C} (obj : pyobject C) : list (attr C) :=
  map snd (scan obj (dir obj)).

(** [ensure_tool_list(tools, obj)] *)
Definition ensure_tool_list {C} (tools : option (list (attr C))) (obj : pyobject C)
    : list (attr C) :=
  match tools with
  | Some l => l
  | None => collect_tools obj
  end.

End AdkAdapter.

(** ** Notions the properties are stated with *)

Module Obs.

(** The text held under a path, empty when there is no such file *)
Definition text_at (w : world) (p : string) : string :=
  default EmptyString (fs_files (w_fs w) !! p).

(** What the file-system calls that do not write leave alone *)
Definition untouched (w w' : world) : Prop :=
  w_file w' = w_file w /\ w_clock w' = w_clock w /\ w_reprs w' = w_reprs w
  /\ forall p, text_at w' p = text_at w p.

(** An outcome that is a result, or an exception deriving from [Exception] *)
Definition is_error {A} (r : result A) : Prop :=
  match r with
  | Return _ => True
  | Raise e => exc_is_Exception e = true
  end.

(** The keyword arguments as a line of the log shows them: each name
    with the name of the type of its value *)
Definition kwargs_json (kwargs : list (string * pyval)) : string :=
  "{" +:+ Text.join ", "
            (map (fun kv => json_str (fst kv) +:+ ": " +:+ json_str (type_name (snd kv))) kwargs)
  +:+ "}".

(** The line [wrapper] writes for a call whose method returned in state [s] *)
Definition line_of {R} (func : pyfunc (method_of R)) (args : list pyval)
    (kwargs : list (string * pyval)) (s : agent * world) : string :=
  action_line (w_clock (snd s) O) (agent_id (fst s)) (fn_name func) args (kwargs_json kwargs).

(** A text without line break *)
Definition one_line (s : string) : bool :=
  negb (Text.contains "010"%char s) && negb (Text.contains "013"%char s).

(** The log grew by exactly one line: a text without line break, and the
    line feed that ends it *)
Definition appends_one_line (w w' : world) : Prop :=
  exists line, one_line line = true /\ log_text w' = log_text w +:+ line +:+ Text.newline.

(** What an append started in [w] can end with: a result, an exception
    deriving from [Exception], or what the [__repr__] of an argument
    raised *)
Definition append_outcome (args : list pyval) (w : world) (r : result unit) : Prop :=
  is_error r
  \/ exists e, r = Raise e /\ Some e ∈ w_reprs w /\ instances (VList args) <> O.

(** Every coming call of a [__repr__] returns *)
Definition reprs_return (w : world) : Prop := Forall (fun o => o = None) (w_reprs w).

(** The value a call gives for the keyword [k]: the last one, should the
    name occur more than once *)
Fixpoint kw_get (kwargs : list (string * pyval)) (k : string) : option pyval :=
  match kwargs with
  | [] => None
  | kv :: rest =>
      match kw_get rest k with
      | Some v => Some v
      | None => if String.eqb (fst kv) k then Some (snd kv) else None
      end
  end.



(** The agent once its [state] attribute refers to [l] *)
Definition with_state (a : agent) (l : positive) : agent :=
  MkAgent (agent_id a) (role a) (model a) l (logger a).

(** The test an attribute found under [name] passes to be listed *)
Definition kept {C} (obj : pyobject C) (name : string) (x : attr C) : Prop :=
  Text.startswith "_" name = false /\ getattr obj name = Some x
  /\ callable x = true /\ truthy (is_tool_attr x) = true.






(** The tools of a class body in the order they are declared in *)
Definition declared_tools {C} (ns : list (string * attr C)) : list (attr C) :=
  map snd (filter (fun kv => negb (Text.startswith "_" (fst kv)) && callable (snd kv)
                             && truthy (is_tool_attr (snd kv))) ns).

End Obs.

Export Obs.

(** ** Agents of the repository used in the examples *)

Module Examples.

(** [ScrapingAgent.scrape(self, url)] of [agents/software/scraping_agent.py]
    before decoration; a call that does not bind [url] raises [TypeError]. *)
Definition bind_url (args : list pyval) (kwargs : list (string * pyval)) : option pyval :=
  match args, kwargs with
  | [url], [] => Some url
  | [], [(k, url)] => if String.eqb k "url" then Some url else None
  | _, _ => None
  end.

Definition scrape_code : method :=
  fun args kwargs =>
    match bind_url args kwargs with
    | Some url =>
        self ← get_self;
        lift (log (logger self) INFO ("Scraping URL: " +:+ str_of url)) ;;
        ret (VDict [("content", VStr "This is the scraped content.")])
    | None => raise (MkExn "TypeError" true "scrape() takes exactly one argument: url")
    end.

Definition scrape_def : pyfunc method := MkFunc "scrape" [] None scrape_code.

(** [ScrapingAgent.scrape], decorated *)
Definition scrape : pyfunc method := tool scrape_def.

(** [ScrapingAgent()] with the defaults of its signature *)
Definition ScrapingAgent : M world agent :=
  init "ScrapingAgent" "scraping-agent-001"
       "Information collection and research automation" "google/gemini-2.5-pro".

(** A world: an installation under [/srv/app], an empty heap, a clock and
    an entropy source, and a file system that serves every call. *)
Definition world0 : world :=
  MkWorld ∅
          (MkFs (list_to_set ["/"; "/srv"; "/srv/app"]) ∅ [] [])
          (fun n => MkDatetime 2025 1 2 3 4 5 (6 + n))
          (fun n => (2 ^ 100 + N.of_nat n)%N)
          [] ∅ "/srv/app/agents/shared/base_agent.py" [].

(** The agent [ScrapingAgent()] builds in [world0], and the world it
    leaves: the heap holds the initial state of the agent. *)
Definition scraper : agent :=
  MkAgent "scraping-agent-001" "Information collection and research automation"
          "google/gemini-2.5-pro" 1%positive "ScrapingAgent".

Definition world1 : world := set_heap {[ 1%positive := AgentState_default ]} world0.


(** The same world on a read-only file system: the coming calls fail. *)
Definition read_only (w : world) : world :=
  set_fs (MkFs (fs_dirs (w_fs w)) (fs_files (w_fs w))
               [Some EROFS; Some EROFS; Some EROFS; Some EROFS] (fs_short (w_fs w))) w.

Definition url : pyval := VStr "https://example.org".

Definition content : pyval := VDict [("content", VStr "This is the scraped content.")].

(** The world once [scrape] has logged the address it was given *)
Definition scraped (w : world) : world :=
  set_records (w_records w ++ [MkLogRecord "ScrapingAgent" INFO
                                           "Scraping URL: https://example.org"]) w.

(** The same world on a disk that fills up: the directory is made and
    the file opened, and the write that follows fails after ten
    characters. *)
Definition disk_full (w : world) : world :=
  set_fs (MkFs (fs_dirs (w_fs w)) (fs_files (w_fs w)) [None; None; Some ENOSPC] [10%nat]) w.

(** The first file-system call was made, and failed or went through *)
Definition one_call_later (w : world) : world :=
  set_fs (MkFs (fs_dirs (w_fs w)) (fs_files (w_fs w)) (tail (fs_faults (w_fs w)))
               (fs_short (w_fs w))) w.

(** Classes as introspection sees them; the code of a function is
    represented by its qualified name, as introspection never runs it. *)
Definition plain (cls name : string) : string * attr string :=
  (name, Callable (MkFunc name [] None (cls +:+ "." +:+ name))).

Definition decorated (cls name : string) : string * attr string :=
  (name, Callable (tool_with (fun f => "wrapper of " +:+ fn_code f)
                             (MkFunc name [] None (cls +:+ "." +:+ name)))).

Definition data (name : string) (v : pyval) : string * attr string := (name, Data v).

(** The attributes every object has from [object] *)
Definition object_ns : list (string * attr string) :=
  data "__class__" (VObject "type" "<class 'type'>")
  :: data "__doc__" (VStr "The base class of the class hierarchy.")
  :: map (plain "object")
       ["__delattr__"; "__dir__"; "__eq__"; "__format__"; "__ge__"; "__getattribute__";
        "__getstate__"; "__gt__"; "__hash__"; "__init__"; "__init_subclass__"; "__le__";
        "__lt__"; "__ne__"; "__new__"; "__reduce__"; "__reduce_ex__"; "__repr__";
        "__setattr__"; "__sizeof__"; "__str__"; "__subclasshook__"].

(** The body of [class UniversalAgent] *)
Definition UniversalAgent_ns : list (string * attr string) :=
  [ data "__module__" (VStr "agents.shared.base_agent");
    data "__doc__" (VStr "Universal base class for all specialized agents.");
    plain "UniversalAgent" "__init__";
    plain "UniversalAgent" "tool_methods";
    plain "UniversalAgent" "send_message";
    plain "UniversalAgent" "update_state";
    plain "UniversalAgent" "get_state";
    plain "UniversalAgent" "as_adk_agent";
    data "__dict__" (VObject "getset_descriptor" "<attribute '__dict__'>");
    data "__weakref__" (VObject "getset_descriptor" "<attribute '__weakref__'>") ].

(** The body of [class DocumentationAgent] of
    [agents/tools/documentation_agent.py] *)
Definition DocumentationAgent_ns : list (string * attr string) :=
  [ data "__module__" (VStr "agents.tools.documentation_agent");
    data "__doc__" (VStr "Generates documentation for the agent ecosystem.");
    plain "DocumentationAgent" "__init__";
    decorated "DocumentationAgent" "generate_agents_overview";
    decorated "DocumentationAgent" "summarize_action_logs";
    decorated "DocumentationAgent" "get_gcp_api_documentation_info";
    decorated "DocumentationAgent" "generate_comprehensive_overview" ].

(** The attributes [UniversalAgent.__init__] sets on an instance *)
Definition instance_dict (a : agent) : list (string * attr string) :=
  [ data "agent_id" (VStr (agent_id a));
    data "role" (VStr (role a));
    data "model" (VStr (model a));
    data "state" (VObject "AgentState" "AgentState(...)");
    data "logger" (VObject "Logger" ("<Logger " +:+ logger a +:+ " (INFO)>")) ].

(** [DocumentationAgent()] *)
Definition documentation_agent : pyobject string :=
  MkObject (instance_dict (MkAgent "documentation-agent-001"
                                   "Generate documentation for agents and their tools"
                                   "openai/gpt-5-chat" 1%positive "DocumentationAgent"))
           [DocumentationAgent_ns; UniversalAgent_ns; object_ns].

(** [UniversalAgent("base", "No tools", "model-x")], an agent without tools *)
Definition bare_agent : pyobject string :=
  MkObject (instance_dict (MkAgent "base" "No tools" "model-x" 1%positive "UniversalAgent"))
           [UniversalAgent_ns; object_ns].

End Examples.

(** ** More of Python's [str], and files opened for reading *)

Module Str.

(** [c.isspace()] on one code point below 256 *)
Definition isspace (c : ascii) : bool :=
  let n := N_of_ascii c in
  (N.leb 9 n && N.leb n 13) || (N.leb 28 n && N.leb n 32) || N.eqb n 133 || N.eqb n 160.

(** [s.lstrip()] *)
Fixpoint lstrip (s : string) : string :=
  match s with
  | EmptyString => EmptyString
  | String c s' => if isspace c then lstrip s' else s
  end.

(** [s.rstrip()] *)
Fixpoint rstrip (s : string) : string :=
  match s with
  | EmptyString => EmptyString
  | String c s' =>
      match rstrip s' with
      | EmptyString => if isspace c then EmptyString else String c EmptyString
      | t => String c t
      end
  end.

(** [s.strip()] *)
Definition strip (s : string) : string := rstrip (lstrip s).

(** [s.split(sep, 1)] for a separator of one character: the text before
    the first [sep] and the text after it, or [s] alone when it holds no
    [sep]. *)
Fixpoint split1 (sep : ascii) (s : string) : list string :=
  match s with
  | EmptyString => [EmptyString]
  | String c s' =>
      if Ascii.eqb c sep then [EmptyString; s']
      else match split1 sep s' with
           | head :: rest => String c head :: rest
           | [] => [String c EmptyString]
           end
  end.

(** [needle in s] *)
Fixpoint substring_in (needle s : string) : bool :=
  Text.startswith needle s
  || match s with
     | EmptyString => false
     | String _ s' => substring_in needle s'
     end.

(** [c.lower()] on one code point below 256: the capital letters of ASCII
    and of Latin-1 are 32 below their small letters. *)
Definition lower_char (c : ascii) : ascii :=
  let n := N_of_ascii c in
  if (N.leb 65 n && N.leb n 90) || (N.leb 192 n && N.leb n 222 && negb (N.eqb n 215))
  then ascii_of_N (n + 32) else c.

(** [s.lower()] *)
Fixpoint lower (s : string) : string :=
  match s with
  | EmptyString => EmptyString
  | String c s' => String (lower_char c) (lower s')
  end.

End Str.

Module Files.

(** [os.path.exists(path)]: whether [path] names a file or a directory;
    a failing [stat] counts as absence. *)
Definition exists_ (path : string) : M world bool :=
  fun w => match syscall path w with
           | (Return _, w') =>
               (Return (bool_decide (is_Some (fs_files (w_fs w') !! path))
                        || bool_decide (path ∈ fs_dirs (w_fs w'))), w')
           | (Raise _, w') => (Return false, w')
           end.

(** [open(path, 'r', encoding='utf-8')] *)
Definition open_read (path : string) : M world string :=
  syscall path ;;
  w ← get;
  if decide (path ∈ fs_dirs (w_fs w)) then raise (OSError EISDIR path)
  else if decide (is_Some (fs_files (w_fs w) !! path)) then ret path
  else raise (OSError ENOENT path).

(** The text of the file behind [f], as the iteration over [f] reads it *)
Definition read (f : string) : M world string :=
  syscall f ;;
  w ← get;
  ret (default EmptyString (fs_files (w_fs w) !! f)).

(** The lines the iteration over a text file yields: a line ends after
    ["\n"], ["\r"] or ["\r\n"], each of which is handed out as ["\n"];
    the last line may lack its end. *)
Fixpoint readlines (text : string) : list string :=
  match text with
  | EmptyString => []
  | String c rest =>
      if Ascii.eqb c "010" then Text.newline :: readlines rest
      else if Ascii.eqb c "013" then
        Text.newline ::
          match rest with
          | String c' rest' => if Ascii.eqb c' "010" then readlines rest' else readlines rest
          | EmptyString => []
          end
      else match readlines rest with
           | [] => [String c EmptyString]
           | line :: lines => String c line :: lines
           end
  end.

(** [with open(path, 'r', encoding='utf-8') as f: body f] *)
Definition with_open_read {A} (path : string) (body : string -> M world A) : M world A :=
  f ← open_read path;
  ((fun w => match body f w with
             | (r, w1) =>
                 match close f w1 with
                 | (Return _, w2) => (r, w2)
                 | (Raise e, w2) => (Raise e, w2)
                 end
             end) : M world A).

End Files.

(** ** [agents/tools/documentation_agent.py]: the summary of the action log *)

Module DocumentationAgent.

Import Str Files.

(** The three counters of [summarize_action_logs]; a dictionary keeps its
    keys in the order they were first stored. *)
Record counts : Type := MkCounts {
  total : Z;
  by_agent : list (string * Z);
  by_tool : list (string * Z)
}.

(** [d[k] = d.get(k, 0) + 1] *)
Fixpoint bump (k : string) (d : list (string * Z)) : list (string * Z) :=
  match d with
  | [] => [(k, 1)]
  | (k', n) :: d' => if String.eqb k' k then (k', n + 1) :: d' else (k', n) :: bump k d'
  end.

(** The three statements at the head of the [try] block: [None] stands
    for the [IndexError] of [split("|", 1)[1]] on a line without a bar and
    for the [ValueError] of unpacking [split(".", 1)] on a text without a
    dot. *)
Definition parse_entry (line : string) : option (string * string) :=
  part ← (split1 "|" line !! 1%nat);
  let rhs := strip part in
  head ← (split1 ":" rhs !! 0%nat);
  let agent_tool := strip head in
  match split1 "." agent_tool with
  | [agent; tool] => Some (agent, tool)
  | _ => None
  end.

(** The body of the loop, for one line of the file *)
Definition count_line (acc : counts) (line : string) : counts :=
  let line := strip line in
  if String.eqb line EmptyString || Text.startswith "#" line then acc
  else
    let total' := total acc + 1 in
    match parse_entry line with
    | Some (agent, tool) =>
        MkCounts total' (bump agent (by_agent acc)) (bump tool (by_tool acc))
    | None => MkCounts total' (by_agent acc) (by_tool acc)
    end.

(** The loop over the lines of the file *)
Definition count_lines (lines : list string) : counts :=
  foldl count_line (MkCounts 0 [] []) lines.

(** [{"total": total, "by_agent": by_agent, "by_tool": by_tool}] *)
Definition summary (c : counts) : pyval :=
  let ints (d : list (string * Z)) := VDict (map (fun kn => (fst kn, VInt (snd kn))) d) in
  VDict [("total", VInt (total c)); ("by_agent", ints (by_agent c));
         ("by_tool", ints (by_tool c))].

(** The body of [DocumentationAgent.summarize_action_logs(self,
    actions_file)], [actions_file] being a [str] as the signature has it *)
Definition summarize_action_logs (actions_file : string) : M (agent * world) pyval :=
  self ← get_self;
  lift (log (logger self) INFO ("Summarizing action logs from " +:+ actions_file)) ;;
  found ← lift (exists_ actions_file);
  if negb found then ret (summary (MkCounts 0 [] []))
  else
    c ← lift (with_open_read actions_file (fun f =>
                text ← read f;
                ret (count_lines (readlines text))));
    ret (summary c).

(** The arguments [summarize_action_logs(self, actions_file)] binds; a
    call that does not bind [actions_file] raises [TypeError]. *)
Definition bind_actions_file (args : list pyval) (kwargs : list (string * pyval))
    : option pyval :=
  match args, kwargs with
  | [actions_file], [] => Some actions_file
  | [], [(k, actions_file)] =>
      if String.eqb k "actions_file" then Some actions_file else None
  | _, _ => None
  end.

(** The method before decoration.  The model has paths that are strings
    only: on a value that is none the existence check is taken to raise
    the [TypeError] of [os.stat], after the call was logged. *)
Definition summarize_action_logs_code : method :=
  fun args kwargs =>
    match bind_actions_file args kwargs with
    | Some (VStr actions_file) => summarize_action_logs actions_file
    | Some v =>
        self ← get_self;
        lift (log (logger self) INFO ("Summarizing action logs from " +:+ str_of v)) ;;
        raise (MkExn "TypeError" true
                     ("stat: path should be string, bytes, os.PathLike or integer, not "
                      +:+ type_name v))
    | None =>
        raise (MkExn "TypeError" true
                     "summarize_action_logs() takes exactly one argument: actions_file")
    end.

Definition summarize_action_logs_def : pyfunc method :=
  MkFunc "summarize_action_logs" [] None summarize_action_logs_code.

(** [DocumentationAgent.summarize_action_logs], decorated: what the
    attribute of the class holds *)
Definition decorated_summarize_action_logs : pyfunc method :=
  tool summarize_action_logs_def.

(** The agent [DocumentationAgent()] builds in a world whose heap is
    empty *)
Definition documenter : agent :=
  MkAgent "documentation-agent-001" "Generate documentation for agents and their tools"
          "openai/gpt-5-chat" 1%positive "DocumentationAgent".

End DocumentationAgent.

(** ** [agents/shared/base_agent.py]: the logger and the ADK adapter method *)

Module Logging.

(** A handler: the stream it writes to and the format of its lines *)
Record handler : Type := MkHandler {
  h_stream : string;
  h_format : string
}.

(** A logger of the [logging] module: its handlers and its level
    ([NOTSET] is 0, [DEBUG] 10, [INFO] 20) *)
Record logger_state : Type := MkLogger {
  lg_handlers : list handler;
  lg_level : Z
}.

(** [logging.getLogger(name)] for a name that is not empty: the logger of
    that name, made on first use without handler and with the level
    [NOTSET]; [reg] holds the loggers the [logging] module keeps, by name. *)
Definition getLogger (name : string) (reg : gmap string logger_state)
    : logger_state * gmap string logger_state :=
  match reg !! name with
  | Some l => (l, reg)
  | None => (MkLogger [] 0, <[name := MkLogger [] 0]> reg)
  end.

(** [get_logger(name)], the registry being explicit; the logger returned
    is the one the registry holds under [name] afterwards. *)
Definition get_logger (name : string) (reg : gmap string logger_state)
    : gmap string logger_state :=
  let (l, reg) := getLogger name reg in
  match lg_handlers l with
  | [] =>
      let handler := MkHandler "stderr" "%(asctime)s %(levelname)s [%(name)s] %(message)s" in
      <[name := MkLogger (lg_handlers l ++ [handler]) 20]> reg
  | _ :: _ => reg
  end.

End Logging.

Module Adk.

(** The arguments of a call of [Agent] of [google.adk.agents] *)
Record agent_request (C : Type) : Type := MkRequest {
  adk_name : string;
  adk_model : string;
  adk_description : string;
  adk_instruction : string;
  adk_tools : list (attr C)
}.

Arguments MkRequest {C} _ _ _ _ _.
Arguments adk_name {C} _.
Arguments adk_model {C} _.
Arguments adk_description {C} _.
Arguments adk_instruction {C} _.
Arguments adk_tools {C} _.

(** [s or fallback] for an optional [str] *)
Definition str_or (s : option string) (fallback : string) : string :=
  match s with
  | Some t => if String.eqb t EmptyString then fallback else t
  | None => fallback
  end.

Section AsAdkAgent.

Context {C A : Type}.

(** What [from google.adk.agents import Agent] gives: the exception the
    import raises, or the class, which is seen as the function from the
    arguments of a call to its outcome. *)
Variable import_Agent : pyexn + (agent_request C -> result A).

(** [UniversalAgent.as_adk_agent(self, instruction, tools, description)];
    [obj] is [self] as introspection sees it, and an argument left out is
    [None]. *)
Definition as_adk_agent (obj : pyobject C) (instruction : option string)
    (tools : option (list (attr C))) (description : option string)
    : M (agent * world) A :=
  self ← get_self;
  match import_Agent with
  | inl exc =>
      if exc_is_Exception exc then
        lift (log (logger self) ERROR ("Failed importing ADK Agent: " +:+ exc_msg exc)) ;;
        raise exc
      else raise exc
  | inr Agent =>
      let selected_tools :=
        match tools with
        | Some (t :: ts) => t :: ts
        | _ => tool_methods obj
        end in
      match Agent (MkRequest (agent_id self) (model self)
                             (str_or description (role self))
                             (str_or instruction
                                "You are a helpful agent in a multi-agent system. Use tools when helpful.")
                             selected_tools) with
      | Return adk_agent => ret adk_agent
      | Raise e => raise e
      end
  end.

End AsAdkAgent.

End Adk.

(** ** [agents/business/marketing_agency_agent.py] *)

Module Marketing.

(** [len(v)]; an instance of a class outside the model is taken to have
    no length. *)
Definition py_len {S} (v : pyval) : M S Z :=
  match v with
  | VStr s | VEnum _ s => ret (Z.of_nat (String.length s))
  | VList xs => ret (Z.of_nat (length xs))
  | VDict items => ret (Z.of_nat (length items))
  | _ => raise (MkExn "TypeError" true
                      ("object of type " +:+ Text.squote +:+ type_name v +:+ Text.squote
                       +:+ " has no len()"))
  end.

(** [v[0]]; the keys of a dictionary of the model are strings, so that
    [0] is none of them, and an instance of a class outside the model is
    taken to have no items. *)
Definition item0 {S} (v : pyval) : M S pyval :=
  match v with
  | VList (x :: _) => ret x
  | VList [] => raise (MkExn "IndexError" true "list index out of range")
  | VStr (String c _) | VEnum _ (String c _) => ret (VStr (String c EmptyString))
  | VStr EmptyString | VEnum _ EmptyString =>
      raise (MkExn "IndexError" true "string index out of range")
  | VDict _ => raise (MkExn "KeyError" true "0")
  | _ => raise (MkExn "TypeError" true
                      (Text.squote +:+ type_name v +:+ Text.squote
                       +:+ " object is not subscriptable"))
  end.

(** [spec.get(key, fallback)] *)
Definition dict_get (spec : list (string * pyval)) (key : string) (fallback : pyval) : pyval :=
  default fallback (kw_get spec key).

(** The arguments [create_campaign(self, spec)] binds; a call that does
    not bind [spec] raises [TypeError]. *)
Definition bind_spec (args : list pyval) (kwargs : list (string * pyval)) : option pyval :=
  match args, kwargs with
  | [spec], [] => Some spec
  | [], [(k, spec)] => if String.eqb k "spec" then Some spec else None
  | _, _ => None
  end.

(** [MarketingAgencyAgent.create_campaign(self, spec)] before decoration;
    an instance of a class outside the model is taken to have no [get]. *)
Definition create_campaign_code : method :=
  fun args kwargs =>
    match bind_spec args kwargs with
    | Some (VDict spec) =>
        let product := dict_get spec "product" (VStr "product") in
        let audience := dict_get spec "audience" (VStr "audience") in
        let channels := dict_get spec "channels" (VList [VStr "social"; VStr "email"]) in
        self ← get_self;
        n ← py_len channels;
        lift (log (logger self) INFO
                  ("Campaign for " +:+ str_of product +:+ " -> " +:+ str_of audience
                   +:+ " via " +:+ pretty n +:+ " channels")) ;;
        first ← item0 channels;
        ret (VDict [("strategy",
                     VDict [("product", product); ("audience", audience);
                            ("pillars", VList [VStr "Trust"; VStr "Innovation"; VStr "Value"]);
                            ("channels", channels)]);
                    ("calendar",
                     VList [VDict [("day", VInt 1); ("channel", first);
                                   ("content", VStr "Teaser post")]])])
    | Some spec =>
        raise (MkExn "AttributeError" true
                     (Text.squote +:+ type_name spec +:+ Text.squote
                      +:+ " object has no attribute " +:+ Text.squote +:+ "get" +:+ Text.squote))
    | None => raise (MkExn "TypeError" true "create_campaign() takes exactly one argument: spec")
    end.

Definition create_campaign_def : pyfunc method :=
  MkFunc "create_campaign" [] None create_campaign_code.

(** [MarketingAgencyAgent.create_campaign], decorated *)
Definition create_campaign : pyfunc method := tool create_campaign_def.

(** The agent [MarketingAgencyAgent()] builds in a world whose heap is
    empty *)
Definition agency : agent :=
  MkAgent "marketing-agency-001" "Create marketing campaigns and content"
          "openai/gpt-5-chat" 1%positive "MarketingAgencyAgent".

End Marketing.

(** ** [agents/software/updater_agent.py] *)

Module Updater.

Import Marketing.

(** The arguments [update_dependencies(self, project)] binds; a call that
    does not bind [project] raises [TypeError]. *)
Definition bind_project (args : list pyval) (kwargs : list (string * pyval)) : option pyval :=
  match args, kwargs with
  | [project], [] => Some project
  | [], [(k, project)] => if String.eqb k "project" then Some project else None
  | _, _ => None
  end.

(** [UpdaterAgent.update_dependencies(self, project)] before decoration;
    an instance of a class outside the model is taken to have no [get]. *)
Definition update_dependencies_code : method :=
  fun args kwargs =>
    match bind_project args kwargs with
    | Some (VDict project) =>
        let name := dict_get project "name" (VStr "repo") in
        self ← get_self;
        lift (log (logger self) INFO ("Updating dependencies for: " +:+ str_of name)) ;;
        ret (VDict [("status", VStr "updated"); ("project", name)])
    | Some project =>
        raise (MkExn "AttributeError" true
                     (Text.squote +:+ type_name project +:+ Text.squote
                      +:+ " object has no attribute " +:+ Text.squote +:+ "get" +:+ Text.squote))
    | None =>
        raise (MkExn "TypeError" true "update_dependencies() takes exactly one argument: project")
    end.

Definition update_dependencies_def : pyfunc method :=
  MkFunc "update_dependencies" [] None update_dependencies_code.

(** [UpdaterAgent.update_dependencies], decorated *)
Definition update_dependencies : pyfunc method := tool update_dependencies_def.

(** The agent [UpdaterAgent()] builds in a world whose heap is empty *)
Definition updater : agent :=
  MkAgent "updater-agent-001" "Dependency management and system maintenance"
          "deepseek/coder" 1%positive "UpdaterAgent".

End Updater.

(** ** [agents/software/frontend_developer.py] *)

Module Frontend.

Import Marketing.

(** What a [for] loop over [v] goes through: the items of a list, the
    characters of a string, the keys of a dictionary; an instance of a
    class outside the model is taken not to be iterable. *)
Definition iterate {S} (v : pyval) : M S (list pyval) :=
  match v with
  | VList xs => ret xs
  | VStr s | VEnum _ s =>
      ret (map (fun c => VStr (String c EmptyString)) (list_ascii_of_string s))
  | VDict items => ret (map (fun kv => VStr (fst kv)) items)
  | _ => raise (MkExn "TypeError" true
                      (Text.squote +:+ type_name v +:+ Text.squote
                       +:+ " object is not iterable"))
  end.

(** [specification.get(key, fallback)]; what is no dictionary is taken to
    have no [get]. *)
Definition spec_get {S} (specification : pyval) (key : string) (fallback : pyval)
    : M S pyval :=
  match specification with
  | VDict spec => ret (dict_get spec key fallback)
  | _ => raise (MkExn "AttributeError" true
                      (Text.squote +:+ type_name specification +:+ Text.squote
                       +:+ " object has no attribute " +:+ Text.squote +:+ "get"
                       +:+ Text.squote))
  end.

(** The bodies of the helper coroutines, each run where it is awaited *)
Definition generate_components (specification : pyval) : M (agent * world) (list pyval) :=
  parts ← spec_get specification "components" (VList [VStr "Widget"]);
  specs ← iterate parts;
  ret (map (fun spec => VStr ("<div class='" +:+ str_of spec +:+ "'>Component for "
                              +:+ str_of spec +:+ "</div>")) specs).

Definition implement_logic (components : list pyval) (specification : pyval)
    : M (agent * world) (list (string * pyval)) :=
  feature ← spec_get specification "feature" (VStr "feature");
  ret [("components", VList components); ("logic", VStr ("Logic for " +:+ str_of feature))].

(** [enumerate(implementation["components"], start=1)] gives one test for
    each component, numbered from 1. *)
Definition generate_tests (components : list pyval) : M (agent * world) (list pyval) :=
  ret (imap (fun idx _ => VStr ("it('renders " +:+ pretty (Z.of_nat (S idx)) +:+ "')"))
            components).

Definition optimize_performance (implementation : list (string * pyval))
    : M (agent * world) (list (string * pyval)) :=
  ret implementation.

Definition validate_accessibility : M (agent * world) unit :=
  self ← get_self;
  lift (log (logger self) INFO "Validating accessibility...").

(** The body of [develop_feature], run when the coroutine is awaited *)
Definition develop_feature_body (specification : pyval) : M (agent * world) pyval :=
  components ← generate_components specification;
  implementation ← implement_logic components specification;
  tests ← generate_tests components;
  optimized ← optimize_performance implementation;
  validate_accessibility ;;
  ret (VDict [("implementation", VDict optimized); ("tests", VList tests)]).

(** The arguments [develop_feature(self, specification)] binds; a call
    that does not bind [specification] raises [TypeError]. *)
Definition bind_specification (args : list pyval) (kwargs : list (string * pyval))
    : option pyval :=
  match args, kwargs with
  | [specification], [] => Some specification
  | [], [(k, specification)] =>
      if String.eqb k "specification" then Some specification else None
  | _, _ => None
  end.

(** [FrontendDeveloperAgent.develop_feature(self, specification)] before
    decoration: being defined with [async def], a call only builds the
    coroutine object. *)
Definition develop_feature_code : async_method :=
  fun args kwargs =>
    match bind_specification args kwargs with
    | Some specification => ret (MkCoroutine (develop_feature_body specification))
    | None =>
        raise (MkExn "TypeError" true
                     "develop_feature() takes exactly one argument: specification")
    end.

Definition develop_feature_def : pyfunc async_method :=
  MkFunc "develop_feature" [] None develop_feature_code.

(** [FrontendDeveloperAgent.develop_feature], decorated *)
Definition develop_feature : pyfunc async_method := tool develop_feature_def.

(** The agent [FrontendDeveloperAgent()] builds in a world whose heap is
    empty *)
Definition frontend_dev : agent :=
  MkAgent "frontend-dev-001" "Client-side application development"
          "openai/codex" 1%positive "FrontendDeveloperAgent".

End Frontend.

(** ** [agents/tools/google_cloud_api_documentation_agent.py]: the
    categories of the tools *)

Module GcpDocs.

Import Str.

Section Categorize.

Context {C : Type}.

(** The dictionary [categories] starts from: every service with no tool *)
Definition categories0 : list (string * list (pyfunc C)) :=
  [("BigQuery", []); ("Cloud Storage", []); ("Pub/Sub", []); ("Vertex AI", []);
   ("Monitoring", []); ("Compute", []); ("Other", [])].

(** [categories[k].append(tool)] *)
Definition append_to (k : string) (tool : pyfunc C) (categories : list (string * list (pyfunc C)))
    : list (string * list (pyfunc C)) :=
  map (fun kv => if String.eqb (fst kv) k then (fst kv, snd kv ++ [tool]) else kv) categories.

(** The body of the loop of [_categorize_tools] *)
Definition categorize (categories : list (string * list (pyfunc C))) (tool : pyfunc C)
    : list (string * list (pyfunc C)) :=
  let tool_name := lower (fn_name tool) in
  if substring_in "bigquery" tool_name then append_to "BigQuery" tool categories
  else if substring_in "storage" tool_name then append_to "Cloud Storage" tool categories
  else if substring_in "pubsub" tool_name then append_to "Pub/Sub" tool categories
  else if substring_in "vertex" tool_name || substring_in "ai" tool_name
       then append_to "Vertex AI" tool categories
  else if substring_in "monitor" tool_name || substring_in "metrics" tool_name
       then append_to "Monitoring" tool categories
  else if substring_in "compute" tool_name || substring_in "instance" tool_name
       then append_to "Compute" tool categories
  else append_to "Other" tool categories.

(** [GoogleCloudAPIDocumentationAgent._categorize_tools(self, tools)], the
    tools being functions: the categories left empty are removed. *)
Definition _categorize_tools (tools : list (pyfunc C)) : list (string * list (pyfunc C)) :=
  List.filter (fun kv => match snd kv with [] => false | _ :: _ => true end)
              (foldl categorize categories0 tools).

End Categorize.

End GcpDocs.

(** ** Agents that score options: [agents/business/decision_maker.py] and
    [agents/software/software_architect.py] *)

From Stdlib Require Floats.

Set Warnings "-inexact-float".

Module Scoring.

Import PrimFloat.

(** The values these agents return: the values of the agent core, the
    [float] scores, and dictionaries that hold either. *)
Inductive value : Type :=
| Py (v : pyval)
| Float (x : float)
| Dict (items : list (string * value)).

(** Code that has no effect: it returns or raises. *)
#[global] Instance result_ret : MRet result := fun A a => Return a.
#[global] Instance result_bind : MBind result :=
  fun A B k r => match r with
                 | Return a => k a
                 | Raise e => Raise e
                 end.

(** The methods below touch nothing but the logger of the agent: they
    run in the list of the records handed to it, each with its level as
    [logging] numbers it ([INFO] is 20, [WARNING] 30) and its message. *)
Definition journal : Type := list (Z * string).

Definition emit (lv : Z) (message : string) : M journal unit :=
  modify (fun j => j ++ [(lv, message)]).

(** Running code without effect from code with effects *)
Definition pure {A} (r : result A) : M journal A := fun j => (r, j).

(** [d[k] = v]: a dictionary keeps its keys in the order they were first
    stored. *)
Fixpoint dict_set {V} (k : string) (v : V) (d : list (string * V)) : list (string * V) :=
  match d with
  | [] => [(k, v)]
  | (k', v') :: d' =>
      if String.eqb k' k then (k', v) :: d' else (k', v') :: dict_set k v d'
  end.

(** [d[k]] *)
Definition dict_item {V} (d : list (string * V)) (k : string) : result V :=
  match find (fun kv => String.eqb (fst kv) k) d with
  | Some kv => Return (snd kv)
  | None => Raise (MkExn "KeyError" true (repr_str k))
  end.

(** [v == s] for a value [v] that [dict.get] returned and a [str]; an
    instance of a class outside the model compares by identity. *)
Definition eq_str (v : option pyval) (s : string) : bool :=
  match v with
  | Some (VStr t) | Some (VEnum _ t) => String.eqb t s
  | _ => false
  end.

(** [v > n] for an [int] [n] *)
Definition gt_int (v : pyval) (n : Z) : result bool :=
  match v with
  | VInt z => Return (Z.ltb n z)
  | VBool b => Return (Z.ltb n (if b then 1 else 0))
  | _ => Raise (MkExn "TypeError" true
                      (Text.squote +:+ ">" +:+ Text.squote
                       +:+ " not supported between instances of "
                       +:+ Text.squote +:+ type_name v +:+ Text.squote +:+ " and "
                       +:+ Text.squote +:+ "int" +:+ Text.squote))
  end.

(** A dictionary of scores as a value *)
Definition floats (d : list (string * float)) : value :=
  Dict (map (fun kv => (fst kv, Float (snd kv))) d).

End Scoring.

Module DecisionMaker.

Import PrimFloat Scoring.

(** The attributes [DecisionMakerAgent.__init__] adds to those of
    [UniversalAgent] *)
Record decision_maker : Type := MkDecisionMaker {
  autonomy_level : Z;
  criteria_weights : list (string * float)
}.

(** What [__init__] sets them to *)
Definition init_attrs : decision_maker :=
  MkDecisionMaker 7 [("cost", 0.2%float); ("time", 0.2%float); ("quality", 0.25%float);
                     ("risk", 0.2%float); ("maintainability", 0.15%float)].

Section Methods.

(** The built-in [sum] on [float]s, whose rounding is not the same in
    every version of the interpreter *)
Variable sum : list float -> float.

Variable self : decision_maker.

(** The body of the loop of [evaluate_options], which is the same for
    every option: the scores of one option *)
Definition base_scores (criteria_weights : list (string * float))
    (constraints : list (string * pyval)) : result (list (string * float)) :=
  let base := foldl (fun d cw => dict_set (fst cw) 0.8%float d) [] criteria_weights in
  base ← (if eq_str (kw_get constraints "budget") "tight"
          then x ← dict_item base "cost"; mret (dict_set "cost" (x - 0.2)%float base)
          else mret base);
  if eq_str (kw_get constraints "deadline") "aggressive"
  then x ← dict_item base "time"; mret (dict_set "time" (x - 0.15)%float base)
  else mret base.

Fixpoint score_options (options : list string) (criteria_weights : list (string * float))
    (constraints : list (string * pyval)) (scores : list (string * list (string * float)))
    : result (list (string * list (string * float))) :=
  match options with
  | [] => mret scores
  | opt :: rest =>
      base ← base_scores criteria_weights constraints;
      score_options rest criteria_weights constraints (dict_set opt base scores)
  end.

(** [evaluate_options(self, options, criteria_weights, constraints)] *)
Definition evaluate_options (options : list string) (criteria_weights : list (string * float))
    (constraints : list (string * pyval)) : M journal (list (string * list (string * float))) :=
  emit 20 ("Evaluating " +:+ pretty (length options) +:+ " options with constraints="
           +:+ repr (VDict constraints)) ;;
  pure (score_options options criteria_weights constraints []).

(** [get_decision_complexity(self, context)] *)
Definition get_decision_complexity (context : list (string * pyval)) : result Z :=
  let complexity := 5 in
  many ← gt_int (default (VInt 1) (kw_get context "stakeholders")) 5;
  let complexity := if many : bool then complexity + 2 else complexity in
  let complexity :=
    if eq_str (kw_get context "risk_profile") "high" then complexity + 2 else complexity in
  mret (Z.min complexity 10).

(** [escalate_to_user(self, context, options, scores)] *)
Definition escalate_to_user (context : list (string * pyval)) (options : list string)
    (scores : list (string * list (string * float))) : M journal value :=
  emit 30 ("Escalating decision due to complexity; options=" +:+ repr (VList (map VStr options))) ;;
  ret (Dict [("action", Py (VStr "escalate")); ("context", Py (VDict context));
             ("options", Py (VList (map VStr options)));
             ("scores", Dict (map (fun kv => (fst kv, floats (snd kv))) scores))]).

(** [criterion_scores[c] * w for c, w in self.criteria_weights.items()] *)
Fixpoint weighted_terms (criterion_scores weights : list (string * float))
    : result (list float) :=
  match weights with
  | [] => mret []
  | (c, w) :: rest =>
      x ← dict_item criterion_scores c;
      terms ← weighted_terms criterion_scores rest;
      mret ((x * w)%float :: terms)
  end.

(** The loop of [select_best_option], over the entries still to visit *)
Fixpoint best_of (items : list (string * list (string * float)))
    (best_option : option string) (best_score : float) : result (option string) :=
  match items with
  | [] => mret best_option
  | (opt, criterion_scores) :: rest =>
      terms ← weighted_terms criterion_scores (criteria_weights self);
      let weighted := sum terms in
      if (best_score <? weighted)%float then best_of rest (Some opt) weighted
      else best_of rest best_option best_score
  end.

(** [select_best_option(self, scores)] *)
Definition select_best_option (scores : list (string * list (string * float)))
    : result string :=
  best_option ← best_of scores None neg_infinity;
  match best_option with
  | Some opt => mret opt
  | None => Raise (MkExn "AssertionError" true EmptyString)
  end.

(** [log_decision(self, decision, context, reasoning)] *)
Definition log_decision (decision : string) (context : list (string * pyval))
    (reasoning : string) : M journal unit :=
  emit 20 ("Decision=" +:+ decision +:+ " | context=" +:+ repr (VDict context)
           +:+ " | reasoning=" +:+ reasoning).

(** [make_decision(self, context, options, constraints)] before decoration *)
Definition make_decision (context : list (string * pyval)) (options : list string)
    (constraints : list (string * pyval)) : M journal value :=
  scores ← evaluate_options options (criteria_weights self) constraints;
  complexity ← pure (get_decision_complexity context);
  if Z.ltb (autonomy_level self) complexity then escalate_to_user context options scores
  else
    decision ← pure (select_best_option scores);
    log_decision decision context "Autonomous decision based on evaluation" ;;
    ret (Dict [("decision", Py (VStr decision));
               ("scores", Dict (map (fun kv => (fst kv, floats (snd kv))) scores))]).

End Methods.

(** [sum] as it adds from left to right, starting from [0] *)
Definition sum_left (xs : list float) : float := foldl PrimFloat.add 0%float xs.

End DecisionMaker.

Module SoftwareArchitect.

Import PrimFloat Scoring.

(** The [criteria] of [evaluate_architecture_decision] *)
Definition criteria : list (string * float) :=
  [("scalability", 0.25%float); ("maintainability", 0.20%float); ("performance", 0.20%float);
   ("security", 0.15%float); ("cost", 0.10%float); ("teamexpertise", 0.10%float)].

(** The loop of [calculate_weighted_score] *)
Fixpoint add_weights (weights : list float) (base : float) : float :=
  match weights with
  | [] => base
  | weight :: rest => add_weights rest (base + weight * 0.8)%float
  end.

(** [calculate_weighted_score(self, option, criteria)] *)
Definition calculate_weighted_score (opt : string) (criteria : list (string * float))
    : M journal float :=
  emit 20 ("Scoring architecture option=" +:+ opt) ;;
  ret (add_weights (map snd criteria) 0%float).

(** [max(scores, key=scores.get)] once the first key is taken: a later
    key replaces the best one when its score is greater. *)
Fixpoint max_by (items : list (string * float)) (best : string) (best_key : float) : string :=
  match items with
  | [] => best
  | (k, v) :: rest => if (best_key <? v)%float then max_by rest k v else max_by rest best best_key
  end.

(** [select_best_option(self, scores)] *)
Definition select_best_option (scores : list (string * float)) : result string :=
  match scores with
  | [] => Raise (MkExn "ValueError" true "max() arg is an empty sequence")
  | (k, v) :: rest => Return (max_by rest k v)
  end.

(** The loop of [evaluate_architecture_decision] *)
Fixpoint score_all (options : list string) (scores : list (string * float))
    : M journal (list (string * float)) :=
  match options with
  | [] => ret scores
  | opt :: rest =>
      score ← calculate_weighted_score opt criteria;
      score_all rest (dict_set opt score scores)
  end.

(** [evaluate_architecture_decision(self, requirement, options)] before
    decoration; the dictionary returned is [{"best_option": best, **scores}]. *)
Definition evaluate_architecture_decision (requirement : string) (options : list string)
    : M journal value :=
  scores ← score_all options [];
  best ← pure (select_best_option scores);
  ret (Dict (foldl (fun d kv => dict_set (fst kv) (Float (snd kv)) d)
                   [("best_option", Py (VStr best))] scores)).

End SoftwareArchitect.

(** ** Further notions the properties are stated with *)

Module Notions.

Import Str Files DocumentationAgent.

(** The characters that end a line, and those the format of the action
    log gives a meaning: the line breaks and the bar *)
Definition line_break (c : ascii) : Prop := c = "010"%char \/ c = "013"%char.

Definition structural (c : ascii) : Prop := c = "|"%char \/ line_break c.

(** A text that is empty or ends with a line feed *)
Fixpoint complete_lines (s : string) : bool :=
  match s with
  | EmptyString => true
  | String c s' =>
      match s' with
      | EmptyString => Ascii.eqb c "010"
      | String _ _ => complete_lines s'
      end
  end.



(** The sum of the counts of a dictionary *)
Definition tally (d : list (string * Z)) : Z := foldr (fun kn acc => snd kn + acc) 0 d.


(** The parts of the world that logging an action has no business with *)
Definition quiet (w w' : world) : Prop :=
  w_heap w' = w_heap w /\ w_records w' = w_records w
  /\ w_environ w' = w_environ w /\ w_urandom w' = w_urandom w.

(** What a call that writes to [path] at most leaves alone: every other
    file, be it there or not *)
Definition only_writes (path : string) (w w' : world) : Prop :=
  forall p, p <> path -> fs_files (w_fs w') !! p = fs_files (w_fs w) !! p.

(** The file system serves every coming call *)
Definition serving (w : world) : Prop := fs_faults (w_fs w) = [].

(** Nothing stands in the way of the action log: its path is not taken by
    a directory, and neither the path of its directory nor any path above
    it is taken by a file. *)
Definition log_path_free (w : world) : Prop :=
  (action_log_path (w_file w) ∉ fs_dirs (w_fs w))
  /\ Forall (fun p => fs_files (w_fs w) !! p = None)
             (ancestors (String.length (dirname (action_log_path (w_file w))))
                        (dirname (action_log_path (w_file w)))).

(** A directory path that is not empty and does not end with a
    separator, and a name that can stand between two separators *)
Definition open_dir (p : string) : bool :=
  negb (String.eqb p EmptyString) && negb (endswith_sep p).

Definition path_component (d : string) : bool :=
  negb (String.eqb d EmptyString) && negb (Text.contains "/"%char d).

(** A dictionary all of whose values are [b] *)
Definition uniform {V} (b : V) (d : list (string * V)) : Prop :=
  Forall (fun kv => snd kv = b) d.

(** [d.get(k)] on a dictionary that an agent returned *)
Definition field (v : Scoring.value) (k : string) : option Scoring.value :=
  match v with
  | Scoring.Dict items =>
      match find (fun kv => String.eqb (fst kv) k) items with
      | Some kv => Some (snd kv)
      | None => None
      end
  | _ => None
  end.

End Notions.

Export Notions.

(** * Properties *)

(** ** Running monadic code *)

Section Monad.

Context {S A B : Type}.

Lemma bind_run (m : M S A) (k : A -> M S B) (s : S) (r : result B) (s' : S) :
  (m ≫= k) s = (r, s') ->
  (exists a s1, m s = (Return a, s1) /\ k a s1 = (r, s'))
  \/ (exists e, m s = (Raise e, s') /\ r = Raise e).
Proof.
  unfold mbind, M_bind, bind. destruct (m s) as [[a|e] s1]; intros H.
  - left. eauto.
  - right. exists e. inversion H; subst. auto.
Qed.

End Monad.

(** ** The file system calls *)

Lemma untouched_trans w1 w2 w3 : untouched w1 w2 -> untouched w2 w3 -> untouched w1 w3.
Proof.
  intros (F1 & C1 & R1 & T1) (F2 & C2 & R2 & T2).
  split; [congruence|split; [congruence|split; [congruence|]]].
  intros p. rewrite T2. apply T1.
Qed.

Lemma syscall_spec p w r w' :
  syscall p w = (r, w') -> untouched w w' /\ is_error r.
Proof.
  unfold syscall. destruct (fs_faults (w_fs w)) as [|[e|] rest]; intros H;
    inversion H; subst; clear H;
    (split; [repeat split | first [exact I | reflexivity]]).
Qed.

Ltac invert H := inversion H; subst; clear H.

(** One step of a computation: split a bind, or read off a primitive. *)
Ltac step H :=
  let H1 := fresh "Hrun" in
  first
    [ apply bind_run in H as [(? & ? & H1 & H)|(? & H1 & ->)]
    | unfold get, modify, ret, raise, mret, M_ret in H; invert H ].

Lemma makedirs_spec p w r w' :
  makedirs p w = (r, w') -> untouched w w' /\ is_error r.
Proof.
  unfold makedirs. intros H.
  step H; apply syscall_spec in Hrun as [U1 E1]; [|auto].
  step H; step Hrun.
  destruct (mkdirs _ _ _) as [[e name]|dirs]; step H;
    (split; [|first [exact I | reflexivity]]).
  - exact U1.
  - eapply untouched_trans; [exact U1|]. repeat split.
Qed.

Lemma open_append_spec p w r w' :
  open_append p w = (r, w') ->
  untouched w w' /\ is_error r /\ (forall lf, r = Return lf -> lf = p).
Proof.
  unfold open_append. intros H.
  step H; apply syscall_spec in Hrun as [U1 E1]; [|split; [exact U1|split; [exact E1|discriminate]]].
  step H; step Hrun.
  repeat case_decide.
  - step H. split; [exact U1|split; [reflexivity|discriminate]].
  - step H; step Hrun. step H.
    split; [|split; [exact I|intros lf [= ->]; reflexivity]].
    eapply untouched_trans; [exact U1|]. repeat split.
    intros q. unfold text_at. simpl.
    destruct (decide (p = q)) as [->|Hne].
    + rewrite lookup_insert_eq. destruct (_ !! q); reflexivity.
    + rewrite lookup_insert_ne by exact Hne. reflexivity.
  - step H. split; [exact U1|split; [reflexivity|discriminate]].
Qed.

Lemma append_empty s : s +:+ EmptyString = s.
Proof.
  induction s as [|c s IH]; [reflexivity|].
  change (String c s +:+ EmptyString) with (String c (s +:+ EmptyString)).
  rewrite IH. reflexivity.
Qed.

Lemma take_all s : Text.take (String.length s) s = s.
Proof.
  induction s as [|c s IH]; [reflexivity|].
  cbn [String.length Text.take]. rewrite IH. reflexivity.
Qed.

Lemma take_none s : Text.take O s = EmptyString.
Proof. destruct s; reflexivity. Qed.

(** A write that returns has added the whole text; one that fails has
    added a part of it, from its start. *)
Lemma write_spec lf t w r w' :
  write lf t w = (r, w') ->
  w_file w' = w_file w /\ w_reprs w' = w_reprs w /\ is_error r /\
  (forall p, p <> lf -> text_at w' p = text_at w p) /\
  match r with
  | Return _ => text_at w' lf = text_at w lf +:+ t
  | Raise _ => exists n, text_at w' lf = text_at w lf +:+ Text.take n t
  end.
Proof.
  unfold write. intros H.
  destruct (syscall lf w) as [[u|e] w1] eqn:Hs;
    apply syscall_spec in Hs as [(F1 & C1 & R1 & T1) E1]; invert H;
    unfold text_at in *; cbn [w_file w_reprs w_fs set_fs extend fs_files].
  - repeat split; auto.
    + intros p Hp. rewrite lookup_insert_ne by congruence. apply T1.
    + rewrite lookup_insert_eq. cbn [default]. rewrite <- T1. reflexivity.
  - repeat split; auto.
    + intros p Hp. rewrite lookup_insert_ne by congruence. apply T1.
    + eexists. rewrite lookup_insert_eq. cbn [default]. rewrite <- T1. reflexivity.
Qed.

Lemma close_spec lf w r w' :
  close lf w = (r, w') -> untouched w w' /\ is_error r.
Proof. apply syscall_spec. Qed.

Lemma utcnow_spec w r w' :
  utcnow w = (r, w') ->
  r = Return (w_clock w O) /\ w_file w' = w_file w /\ w_reprs w' = w_reprs w
  /\ forall p, text_at w' p = text_at w p.
Proof. unfold utcnow. intros H. invert H. repeat split. Qed.

(** Rendering the arguments changes nothing but the outcomes still in
    store; it raises only what a [__repr__] raises, and cannot fail when
    there is no instance to render. *)
Lemma set_reprs_same w : set_reprs (w_reprs w) w = w.
Proof. destruct w; reflexivity. Qed.

Lemma call_repr_spec w r w' :
  call_repr w = (r, w') ->
  exists rest, w' = set_reprs rest w
    /\ (forall e, Some e ∈ rest -> Some e ∈ w_reprs w)
    /\ (r = Return tt \/ exists e, r = Raise e /\ Some e ∈ w_reprs w).
Proof.
  unfold call_repr. destruct (w_reprs w) as [|[e|] rest] eqn:Hr; intros H;
    injection H as <- <-.
  - exists []. rewrite <- Hr, set_reprs_same, Hr. auto.
  - exists rest. split; [reflexivity|]. split; [intros e' He'; right; exact He'|].
    right. exists e. split; [reflexivity|left].
  - exists rest. split; [reflexivity|]. split; [intros e' He'; right; exact He'|].
    left. reflexivity.
Qed.

Lemma call_reprs_spec n w r w' :
  call_reprs n w = (r, w') ->
  (exists rest, w' = set_reprs rest w)
  /\ (r = Return tt \/ exists e, r = Raise e /\ Some e ∈ w_reprs w /\ n <> O).
Proof.
  revert w. induction n as [|n IH]; intros w H.
  - injection H as <- <-. split; [exists (w_reprs w); symmetry; apply set_reprs_same|].
    left. reflexivity.
  - cbn [call_reprs] in H.
    apply bind_run in H as [([] & w1 & H1 & H)|(e & H1 & ->)];
      apply call_repr_spec in H1 as (rest & -> & Hin & Hr).
    + apply IH in H as ([rest' ->] & Hr'). split; [exists rest'; reflexivity|].
      destruct Hr' as [->|(e & -> & He & _)]; [left; reflexivity|].
      right. exists e. split; [reflexivity|split; [apply Hin, He|discriminate]].
    + split; [exists rest; reflexivity|].
      destruct Hr as [[=]|(e' & [= <-] & He)].
      right. exists e. split; [reflexivity|split; [exact He|discriminate]].
Qed.

Lemma rendering_spec args w r w' :
  rendering args w = (r, w') ->
  w_file w' = w_file w /\ (forall p, text_at w' p = text_at w p)
  /\ (r = Return tt \/ exists e, r = Raise e /\ Some e ∈ w_reprs w /\ instances (VList args) <> O).
Proof.
  unfold rendering. intros H. apply call_reprs_spec in H as ([rest ->] & Hr).
  split; [reflexivity|]. split; [reflexivity|exact Hr].
Qed.

Lemma json_dumps_kwargs_types kwargs :
  json_dumps (kwargs_types kwargs) = Some (kwargs_json kwargs).
Proof.
  unfold kwargs_types, kwargs_json. cbn [json_dumps].
  assert (H : mapM (fun kv : string * pyval =>
                match json_dumps (snd kv) with
                | Some t => Some (json_str (fst kv) +:+ ": " +:+ t)
                | None => None
                end) (map (fun kv => (fst kv, VStr (type_name (snd kv)))) kwargs)
              = Some (map (fun kv => json_str (fst kv) +:+ ": " +:+ json_str (type_name (snd kv))) kwargs)).
  { induction kwargs as [|kv rest IH]; [reflexivity|].
    cbn. cbn in IH. rewrite IH. reflexivity. }
  cbn in H |- *. rewrite H. reflexivity.
Qed.

(** What the body of the [with] block does to the file it writes to *)
Lemma append_body_spec lf id name args kwargs w r w' :
  (now ← utcnow; rendering args ;;
   kw ← json_dumps_or_raise (kwargs_types kwargs);
   write lf (action_line now id name args kw)) w = (r, w') ->
  w_file w' = w_file w /\ append_outcome args w r /\
  (forall p, p <> lf -> text_at w' p = text_at w p) /\
  (exists n, text_at w' lf
             = text_at w lf +:+ Text.take n (action_line (w_clock w O) id name args (kwargs_json kwargs))) /\
  (forall u, r = Return u ->
             text_at w' lf = text_at w lf +:+ action_line (w_clock w O) id name args (kwargs_json kwargs)).
Proof.
  intros Hb. set (line := action_line (w_clock w O) id name args (kwargs_json kwargs)).
  apply bind_run in Hb as [(now & w3 & H3 & Hb)|(e & H3 & ->)];
    apply utcnow_spec in H3 as (Hn & F3 & R3 & T3); [|discriminate Hn].
  invert Hn.
  apply bind_run in Hb as [([] & w4 & H4 & Hb)|(e & H4 & ->)];
    apply rendering_spec in H4 as (F4 & T4 & E4).
  2:{ split; [congruence|]. split.
      { right. destruct E4 as [[=]|(e' & [= <-] & He & Hi)].
        exists e. rewrite <- R3. auto. }
      split; [intros; rewrite T4; apply T3|].
      split; [exists O; rewrite take_none, append_empty, T4; apply T3|discriminate]. }
  unfold json_dumps_or_raise in Hb. rewrite json_dumps_kwargs_types in Hb.
  apply bind_run in Hb as [(kw & w5 & H5 & Hb)|(e & H5 & ->)]; [|invert H5].
  invert H5.
  apply write_spec in Hb as (F5 & R5 & E5 & T5 & W5).
  split; [congruence|]. split; [left; exact E5|].
  split; [intros p Hp; rewrite T5, T4, T3 by exact Hp; reflexivity|].
  destruct r as [u|e].
  - split; [exists (String.length line); rewrite take_all|intros _ _];
      rewrite W5, T4, T3; reflexivity.
  - destruct W5 as [n W5]. split; [exists n; rewrite W5, T4, T3; reflexivity|discriminate].
Qed.

Lemma append_line_spec id name args kwargs w r w' :
  append_line id name args kwargs w = (r, w') ->
  w_file w' = w_file w /\ append_outcome args w r /\
  (forall p, p <> action_log_path (w_file w) -> text_at w' p = text_at w p) /\
  (exists n, log_text w' = log_text w +:+ Text.take n (action_line (w_clock w O) id name args (kwargs_json kwargs))) /\
  (forall u, r = Return u -> log_text w' = log_text w +:+ action_line (w_clock w O) id name args (kwargs_json kwargs)).
Proof.
  unfold append_line, log_text.
  fold (text_at w (action_log_path (w_file w))).
  fold (text_at w' (action_log_path (w_file w'))).
  intros H.
  apply bind_run in H as [(w0 & w0' & H0 & H)|(e & H0 & ->)]; [|invert H0].
  invert H0.
  set (path := action_log_path (w_file w0')) in *.
  apply bind_run in H as [(u1 & w1 & H1 & H)|(e & H1 & ->)];
    apply makedirs_spec in H1 as [(F1 & C1 & R1 & T1) E1].
  2:{ rewrite F1. fold path. split; [reflexivity|split; [left; exact E1|split; [intros; apply T1|]]].
      split; [exists O; rewrite take_none, append_empty; apply T1|discriminate]. }
  unfold with_open_append in H.
  apply bind_run in H as [(lf & w2 & H2 & H)|(e & H2 & ->)];
    apply open_append_spec in H2 as ((F2 & C2 & R2 & T2) & E2 & L2).
  2:{ rewrite F2, F1. fold path.
      split; [reflexivity|split; [left; exact E2|split; [intros; rewrite T2; apply T1|]]].
      split; [exists O; rewrite take_none, append_empty, T2; apply T1|discriminate]. }
  specialize (L2 _ eq_refl). subst lf.
  match type of H with context [?m w2] => destruct (m w2) as [rb wb] eqn:Hb end.
  destruct (close path wb) as [rc wc] eqn:Hc.
  apply close_spec in Hc as [(F4 & C4 & R4 & T4) E4].
  assert (Hr : w' = wc /\ r = match rc with Return _ => rb | Raise e => Raise e end).
  { destruct rc; invert H; auto. }
  destruct Hr as [-> ->]. clear H.
  apply append_body_spec in Hb as (F5 & E5 & T5 & W5 & V5).
  assert (Hfile : w_file wc = w_file w0') by congruence.
  rewrite Hfile. fold path.
  assert (Hclock : w_clock w2 = w_clock w0') by congruence.
  rewrite Hclock in W5, V5.
  split; [reflexivity|].
  split.
  { destruct rc as [uc|ec]; [|left; exact E4].
    destruct E5 as [E5|(e & -> & He & Hi)]; [left; exact E5|].
    right. exists e. rewrite <- R1, <- R2. auto. }
  split; [intros p Hp; rewrite T4, T5, T2, T1 by exact Hp; reflexivity|].
  rewrite T4. split.
  - destruct W5 as [n W5]. exists n. rewrite W5, T2, T1. reflexivity.
  - intros u Hu. destruct rc as [uc|ec]; [|discriminate Hu].
    rewrite (V5 _ Hu), T2, T1. reflexivity.
Qed.

Lemma append_action_spec {R} (func : pyfunc (method_of R)) args kwargs s r s' :
  append_action func args kwargs s = (r, s') ->
  fst s' = fst s /\ w_file (snd s') = w_file (snd s) /\ append_outcome args (snd s) r /\
  (forall p, p <> action_log_path (w_file (snd s)) -> text_at (snd s') p = text_at (snd s) p) /\
  (exists n, log_text (snd s') = log_text (snd s) +:+ Text.take n (line_of func args kwargs s)) /\
  (forall u, r = Return u -> log_text (snd s') = log_text (snd s) +:+ line_of func args kwargs s).
Proof.
  unfold append_action, line_of. intros H.
  apply bind_run in H as [(self & s1 & H1 & H)|(e & H1 & ->)]; [|invert H1].
  invert H1. unfold lift in H.
  destruct (append_line _ _ _ _ (snd s1)) as [r0 w0] eqn:Hw. invert H.
  apply append_line_spec in Hw. simpl. tauto.
Qed.

Lemma wrapper_run {R} (func : pyfunc (method_of R)) args kwargs s :
  wrapper func args kwargs s =
  match fn_code func args kwargs s with
  | (Return r, s1) =>
      match append_action func args kwargs s1 with
      | (Return _, s2) => (Return r, s2)
      | (Raise e, s2) => if exc_is_Exception e then (Return r, s2) else (Raise e, s2)
      end
  | (Raise e, s1) => (Raise e, s1)
  end.
Proof.
  unfold wrapper, try_except_Exception, mbind, M_bind, bind, mret, M_ret, ret.
  destruct (fn_code func args kwargs s) as [[r|e] s1]; [|reflexivity].
  destruct (append_action func args kwargs s1) as [[[]|e] s2]; [reflexivity|].
  destruct (exc_is_Exception e) eqn:He; [reflexivity|]. rewrite He. reflexivity.
Qed.

(** ** The [tool] decorator *)

Import Examples.

Lemma tool_code {R} (func : pyfunc (method_of R)) :
  fn_code (tool func) = wrapper (setattr func "__is_tool__" (VBool true)).
Proof. reflexivity. Qed.

Lemma tool_run {R} (func : pyfunc (method_of R)) args kwargs s :
  fn_code (tool func) args kwargs s =
  match fn_code func args kwargs s with
  | (Return r, s1) =>
      match append_action func args kwargs s1 with
      | (Return _, s2) => (Return r, s2)
      | (Raise e, s2) => if exc_is_Exception e then (Return r, s2) else (Raise e, s2)
      end
  | (Raise e, s1) => (Raise e, s1)
  end.
Proof. rewrite tool_code, wrapper_run. reflexivity. Qed.

(** The decorated method returns the result of the method whenever the
    append returns or fails with an exception deriving from [Exception]. *)
Lemma tool_returns {R} (func : pyfunc (method_of R)) args kwargs s r s1 :
  fn_code func args kwargs s = (Return r, s1) ->
  is_error (fst (append_action func args kwargs s1)) ->
  fn_code (tool func) args kwargs s
  = (Return r, snd (append_action func args kwargs s1)).
Proof.
  intros H He. rewrite tool_run, H.
  destruct (append_action func args kwargs s1) as [[u|e] s2] eqn:Ha; [reflexivity|].
  cbn in He. rewrite He. reflexivity.
Qed.

(** When it raises, the decorated method has raised before anything was
    appended. *)
Lemma tool_raises {R} (func : pyfunc (method_of R)) args kwargs s e s1 :
  fn_code func args kwargs s = (Raise e, s1) ->
  fn_code (tool func) args kwargs s = (Raise e, s1).
Proof. intros Hf. rewrite tool_run, Hf. reflexivity. Qed.

(** An exception of the append that does not derive from [Exception]
    goes through both handlers, and is what a [__repr__] raised. *)
Lemma tool_swallows_failure_outside {R} (func : pyfunc (method_of R)) args kwargs s r s1 e s2 :
  fn_code func args kwargs s = (Return r, s1) ->
  append_action func args kwargs s1 = (Raise e, s2) ->
  exc_is_Exception e = false ->
  fn_code (tool func) args kwargs s = (Raise e, s2)
  /\ Some e ∈ w_reprs (snd s1) /\ instances (VList args) <> O.
Proof.
  intros Hf Ha He.
  split; [rewrite tool_run, Hf, Ha, He; reflexivity|].
  apply append_action_spec in Ha as (_ & _ & [Herr|(e' & [= <-] & Hin & Hn)] & _); [|auto].
  cbn in Herr. congruence.
Qed.

(** Every failure of the append derives from [Exception] when no
    [__repr__] is run, and when none of those in store raises anything
    else. *)
Lemma append_action_error {R} (func : pyfunc (method_of R)) args kwargs s :
  instances (VList args) = O
  \/ Forall (fun o => forall e, o = Some e -> exc_is_Exception e = true) (w_reprs (snd s)) ->
  is_error (fst (append_action func args kwargs s)).
Proof.
  intros Hsafe.
  destruct (append_action func args kwargs s) as [r s'] eqn:Ha.
  apply append_action_spec in Ha as (_ & _ & [He|(e & -> & Hin & Hn)] & _); [exact He|].
  cbn. destruct Hsafe as [H0|Hall]; [contradiction|].
  rewrite Forall_forall in Hall. exact (Hall _ Hin e eq_refl).
Qed.

(** C1, as amended.  When the method returns [r] and appending to the
    action log then fails with [e], at whichever of its steps, the
    decorated method still returns [r] provided [e] derives from
    [Exception], which is what the handlers of the wrapper catch: the
    failure is swallowed, and the state is the one the failed attempt
    left.  The failures of the file system (creating the directory,
    opening, writing, closing) and of the JSON rendering all derive from
    [Exception].  Of the steps of the append only the rendering of
    [str(args)], which runs the [__repr__] of the arguments, can raise an
    exception that does not (signals that interrupt the program are not
    modelled): the handlers let it through, and the decorated method
    raises it in place of the result. *)
Theorem tool_swallows_logging_failure {R} (func : pyfunc (method_of R)) args kwargs s r s1 e s2 :
  fn_code func args kwargs s = (Return r, s1) ->
  append_action func args kwargs s1 = (Raise e, s2) ->
  (exc_is_Exception e = true -> fn_code (tool func) args kwargs s = (Return r, s2))
  /\ (exc_is_Exception e = false ->
      fn_code (tool func) args kwargs s = (Raise e, s2)
      /\ Some e ∈ w_reprs (snd s1) /\ instances (VList args) <> O).
Proof.
  intros Hf Ha. split; intros He.
  - rewrite tool_run, Hf, Ha, He. reflexivity.
  - exact (tool_swallows_failure_outside _ _ _ _ _ _ _ _ Hf Ha He).
Qed.

Lemma tool_swallows_logging_failure_witness :
  fn_code scrape_def [url] [] (scraper, read_only world1)
  = (Return content, (scraper, scraped (read_only world1)))
  /\ append_action scrape_def [url] [] (scraper, scraped (read_only world1))
     = (Raise (OSError EROFS "/srv/app/agents"),
        (scraper, one_call_later (scraped (read_only world1))))
  /\ fn_code scrape [url] [] (scraper, read_only world1)
     = (Return content, (scraper, one_call_later (scraped (read_only world1)))).
Proof.
  assert (Hf : fn_code scrape_def [url] [] (scraper, read_only world1)
               = (Return content, (scraper, scraped (read_only world1))))
    by reflexivity.
  assert (Ha : append_action scrape_def [url] [] (scraper, scraped (read_only world1))
               = (Raise (OSError EROFS "/srv/app/agents"),
                  (scraper, one_call_later (scraped (read_only world1)))))
    by reflexivity.
  split; [exact Hf|split; [exact Ha|]].
  exact (proj1 (tool_swallows_logging_failure _ _ _ _ _ _ _ _ Hf Ha) eq_refl).
Defined.

(** C1 as stated fails: [update_dependencies] returns its result for a
    project that holds an instance under a key it does not read; the
    [__repr__] of that instance then raises [SystemExit] while the line is
    rendered, neither handler catches it, and the decorated method raises
    it: the result is lost. *)
Lemma repr_failure_is_not_swallowed :
  let project := VDict [("name", VStr "repo"); ("owner", VObject "Owner" "<Owner>")] in
  let w := set_reprs [Some (MkExn "SystemExit" false "1")] world1 in
  fst (fn_code Updater.update_dependencies_def [project] [] (Updater.updater, w))
  = Return (VDict [("status", VStr "updated"); ("project", VStr "repo")])
  /\ fst (append_action Updater.update_dependencies_def [project] []
            (snd (fn_code Updater.update_dependencies_def [project] [] (Updater.updater, w))))
     = Raise (MkExn "SystemExit" false "1")
  /\ fst (fn_code Updater.update_dependencies [project] [] (Updater.updater, w))
     = Raise (MkExn "SystemExit" false "1").
Proof.
  intros project w. split; [reflexivity|]. split; vm_compute; reflexivity.
Qed.

(** C3, at the failing input.  [develop_feature] is defined with
    [async def] and decorated with the same [tool]: the call the wrapper
    makes only builds the coroutine object, so the wrapper appends the
    line of the call and returns before any of the body has run.  On a
    specification whose [components] is the number 5 the body raises
    [TypeError] once the coroutine is awaited, and the action log holds
    the line of that call all the same. *)
Theorem async_tool_is_logged_before_it_fails :
  let specification := VDict [("components", VInt 5)] in
  let line := line_of Frontend.develop_feature_def [specification] []
                      (Frontend.frontend_dev, world1) in
  exists c s1,
    fn_code Frontend.develop_feature [specification] [] (Frontend.frontend_dev, world1)
    = (Return c, s1)
    /\ log_text (snd s1) = log_text world1 +:+ line
    /\ await c s1
       = (Raise (MkExn "TypeError" true "'int' object is not iterable"), s1).
Proof.
  intros specification line.
  set (run := fn_code Frontend.develop_feature [specification] []
                      (Frontend.frontend_dev, world1)).
  exists (MkCoroutine (Frontend.develop_feature_body specification)), (snd run).
  split; [|split].
  - transitivity (fst run, snd run); [apply surjective_pairing|].
    apply (f_equal (fun r => (r, snd run))).
    unfold run.
    change (fn_code Frontend.develop_feature)
      with (fn_code (tool Frontend.develop_feature_def)).
    rewrite tool_run.
    change (fn_code Frontend.develop_feature_def [specification] []
                    (Frontend.frontend_dev, world1))
      with (Return (MkCoroutine (Frontend.develop_feature_body specification)),
            (Frontend.frontend_dev, world1)).
    cbv iota.
    destruct (append_action _ _ _ _) as [[u|e] s2] eqn:Ha; [reflexivity|].
    exfalso. assert (He : fst (append_action Frontend.develop_feature_def [specification] []
                                 (Frontend.frontend_dev, world1)) = Return tt)
      by (vm_compute; reflexivity).
    rewrite Ha in He. discriminate He.
  - vm_compute. reflexivity.
  - destruct (snd run) as [a w]. reflexivity.
Qed.


Lemma action_line_not_empty now id name args kw :
  action_line now id name args kw <> EmptyString.
Proof. unfold action_line. intros H. discriminate H. Qed.




(** ** The state of an agent *)

(** What [update_state] does in a world where the agent has a state *)
Lemma update_state_run kwargs a w prior :
  w_heap w !! state a = Some prior ->
  let l := fresh (dom (w_heap w)) in
  let updated := model_copy prior kwargs in
  update_state kwargs (a, w)
  = (Return l,
     (with_state a l,
      set_records (w_records w ++ [MkLogRecord (logger a) DEBUG
                                     ("state_updated | " +:+ repr (model_dump updated))])
                  (set_heap (<[l := updated]> (w_heap w)) w))).
Proof.
  intros Hprior l updated.
  unfold update_state, get_self, lift, deref, alloc, set_state, log, modify,
    fmap, M_fmap, mbind, M_bind, mret, M_ret, bind, ret.
  cbn [fst snd]. rewrite Hprior. cbn [fst snd w_heap set_heap state logger].
  fold l. rewrite lookup_insert_eq. reflexivity.
Qed.

Lemma get_state_run a w current :
  w_heap w !! state a = Some current ->
  get_state (a, w) = (Return (model_dump current), (a, w)).
Proof.
  intros H. unfold get_state, get_self, lift, deref, mbind, M_bind, mret, M_ret, bind, ret.
  cbn [fst snd]. rewrite H. reflexivity.
Qed.

Lemma fresh_not_allocated (h : gmap positive (gmap string pyval)) : h !! fresh (dom h) = None.
Proof. apply not_elem_of_dom. apply is_fresh. Qed.

Lemma dict_update_lookup kwargs d k :
  dict_update d kwargs !! k
  = match kw_get kwargs k with
    | Some v => Some v
    | None => d !! k
    end.
Proof.
  unfold dict_update. revert d. induction kwargs as [|[k0 v0] rest IH]; intros d.
  - reflexivity.
  - cbn [foldl kw_get fst snd]. rewrite IH.
    destruct (kw_get rest k) as [v|]; [reflexivity|].
    destruct (String.eqb_spec k0 k) as [->|Hne].
    + apply lookup_insert_eq.
    + apply lookup_insert_ne. exact Hne.
Qed.

Lemma init_run cls id rl mdl w :
  init cls id rl mdl w
  = (Return (MkAgent id rl
                     (if negb (String.eqb mdl EmptyString) then mdl
                      else default "gemini-2.0-flash" (w_environ w !! "AGENT_MODEL"))
                     (fresh (dom (w_heap w))) cls),
     set_heap (<[fresh (dom (w_heap w)) := AgentState_default]> (w_heap w)) w).
Proof.
  unfold init, getenv, alloc, get_logger, mbind, M_bind, mret, M_ret, bind, ret.
  destruct (negb (String.eqb mdl EmptyString)); reflexivity.
Qed.

(** C4.  [update_state] leaves the state the agent had alone: the
    instance a reader still refers to holds what it held, the new state is
    another instance, and no instance of the heap is changed. *)
Theorem update_state_keeps_prior_state kwargs a w prior :
  w_heap w !! state a = Some prior ->
  exists l a' w',
    update_state kwargs (a, w) = (Return l, (a', w'))
    /\ w_heap w' !! state a = Some prior
    /\ l <> state a
    /\ forall l0 d, w_heap w !! l0 = Some d -> w_heap w' !! l0 = Some d.
Proof.
  intros Hprior. do 3 eexists. split; [exact (update_state_run kwargs a w prior Hprior)|].
  assert (Hfresh : fresh (dom (w_heap w)) <> state a).
  { intros Heq. pose proof (fresh_not_allocated (w_heap w)) as Hn.
    rewrite Heq, Hprior in Hn. discriminate Hn. }
  cbn [w_heap set_records set_heap].
  split; [rewrite lookup_insert_ne by exact Hfresh; exact Hprior|].
  split; [exact Hfresh|].
  intros l0 d Hl0. rewrite lookup_insert_ne; [exact Hl0|].
  intros Heq. pose proof (fresh_not_allocated (w_heap w)) as Hn.
  rewrite Heq, Hl0 in Hn. discriminate Hn.
Qed.

Lemma update_state_keeps_prior_state_witness :
  w_heap world1 !! state scraper = Some AgentState_default
  /\ exists l a' w',
       update_state [("status", Status.to_py Status.busy)] (scraper, world1)
       = (Return l, (a', w'))
       /\ w_heap w' !! state scraper = Some AgentState_default
       /\ l <> state scraper
       /\ forall l0 d, w_heap world1 !! l0 = Some d -> w_heap w' !! l0 = Some d.
Proof.
  assert (H : w_heap world1 !! state scraper = Some AgentState_default) by reflexivity.
  split; [exact H|].
  exact (update_state_keeps_prior_state [("status", Status.to_py Status.busy)] _ _ _ H).
Defined.

(** C5.  [update_state] returns a new state that holds, under every
    name, the value given in the call if there is one and the value of the
    prior state otherwise, and makes it the current state of the agent,
    whose other attributes keep their values; [get_state] then reports the
    new state.  On an agent just built, [update_state(status="busy",
    current_task="T1")] followed by [get_state()] reports these two values
    and the defaults of the three other fields. *)
Theorem update_state_overrides_given_fields :
  (forall kwargs a w prior,
     w_heap w !! state a = Some prior ->
     exists l a' w' updated,
       update_state kwargs (a, w) = (Return l, (a', w'))
       /\ w_heap w' !! l = Some updated
       /\ (forall k, updated !! k = match kw_get kwargs k with
                                    | Some v => Some v
                                    | None => prior !! k
                                    end)
       /\ state a' = l
       /\ (agent_id a', role a', model a', logger a') = (agent_id a, role a, model a, logger a)
       /\ get_state (a', w') = (Return (model_dump updated), (a', w')))
  /\ (forall cls id rl mdl w,
        exists a w1 l a2 w2,
          init cls id rl mdl w = (Return a, w1)
          /\ get_state (a, w1)
             = (Return (VDict [("status", Status.to_py Status.idle);
                               ("current_task", VNone);
                               ("resource_utilization", VDict []);
                               ("dependencies", VList []);
                               ("performance_metrics", VDict [])]), (a, w1))
          /\ update_state [("status", VStr "busy"); ("current_task", VStr "T1")] (a, w1)
             = (Return l, (a2, w2))
          /\ get_state (a2, w2)
             = (Return (VDict [("status", VStr "busy");
                               ("current_task", VStr "T1");
                               ("resource_utilization", VDict []);
                               ("dependencies", VList []);
                               ("performance_metrics", VDict [])]), (a2, w2))).
Proof.
  split.
  - intros kwargs a w prior Hprior. do 4 eexists.
    split; [exact (update_state_run kwargs a w prior Hprior)|].
    assert (Hnew : <[fresh (dom (w_heap w)) := model_copy prior kwargs]> (w_heap w)
                   !! fresh (dom (w_heap w)) = Some (model_copy prior kwargs))
      by apply lookup_insert_eq.
    split; [exact Hnew|].
    split; [intros k; apply dict_update_lookup|].
    split; [reflexivity|]. split; [reflexivity|].
    apply get_state_run. exact Hnew.
  - intros cls id rl mdl w.
    set (a0 := MkAgent id rl
                 (if negb (String.eqb mdl EmptyString) then mdl
                  else default "gemini-2.0-flash" (w_environ w !! "AGENT_MODEL"))
                 (fresh (dom (w_heap w))) cls).
    set (w1 := set_heap (<[fresh (dom (w_heap w)) := AgentState_default]> (w_heap w)) w).
    assert (Hst : w_heap w1 !! state a0 = Some AgentState_default)
      by apply lookup_insert_eq.
    exists a0, w1. do 3 eexists.
    split; [apply init_run|].
    split; [exact (get_state_run a0 w1 _ Hst)|].
    split; [exact (update_state_run _ a0 w1 _ Hst)|].
    apply (get_state_run _ _ (model_copy AgentState_default
             [("status", VStr "busy"); ("current_task", VStr "T1")])).
    apply lookup_insert_eq.
Qed.

Lemma update_state_overrides_given_fields_witness :
  w_heap world1 !! state scraper = Some AgentState_default
  /\ exists l a' w' updated,
       update_state [("current_task", VStr "T1")] (scraper, world1) = (Return l, (a', w'))
       /\ w_heap w' !! l = Some updated
       /\ updated !! "current_task" = Some (VStr "T1")
       /\ updated !! "status" = Some (Status.to_py Status.idle).
Proof.
  assert (H : w_heap world1 !! state scraper = Some AgentState_default) by reflexivity.
  split; [exact H|].
  destruct (proj1 update_state_overrides_given_fields [("current_task", VStr "T1")] _ _ _ H)
    as (l & a' & w' & updated & Hrun & Hl & Hk & _).
  exists l, a', w', updated.
  split; [exact Hrun|]. split; [exact Hl|].
  split; [rewrite (Hk "current_task")|rewrite (Hk "status")]; reflexivity.
Defined.

Lemma model_dump_status d v :
  d !! "status" = Some v -> exists rest, model_dump d = VDict (("status", v) :: rest).
Proof.
  intros H. unfold model_dump, AgentState_fields. cbn [omap list_omap].
  rewrite H. eexists. reflexivity.
Qed.

(** C10.  [update_state] checks nothing: whatever value [v] is given for
    [status], a member of [Status] or not, the call returns, the new state
    holds [v] itself under [status], and [get_state] reports it. *)
Theorem update_state_does_not_validate v a w prior :
  w_heap w !! state a = Some prior ->
  exists l a' w' updated rest,
    update_state [("status", v)] (a, w) = (Return l, (a', w'))
    /\ state a' = l
    /\ w_heap w' !! l = Some updated
    /\ updated !! "status" = Some v
    /\ get_state (a', w') = (Return (VDict (("status", v) :: rest)), (a', w')).
Proof.
  intros Hprior.
  pose proof (update_state_run [("status", v)] a w prior Hprior) as Hrun.
  cbv zeta in Hrun.
  assert (Hv : model_copy prior [("status", v)] !! "status" = Some v)
    by apply lookup_insert_eq.
  destruct (model_dump_status _ _ Hv) as [rest Hrest].
  eexists _, _, _, (model_copy prior [("status", v)]), rest.
  split; [exact Hrun|].
  split; [reflexivity|].
  split; [apply lookup_insert_eq|].
  split; [exact Hv|].
  rewrite <- Hrest. apply get_state_run. apply lookup_insert_eq.
Qed.

Lemma update_state_does_not_validate_witness :
  w_heap world1 !! state scraper = Some AgentState_default
  /\ exists l a' w' updated rest,
       update_state [("status", VStr "on holiday")] (scraper, world1) = (Return l, (a', w'))
       /\ state a' = l
       /\ w_heap w' !! l = Some updated
       /\ updated !! "status" = Some (VStr "on holiday")
       /\ get_state (a', w')
          = (Return (VDict (("status", VStr "on holiday") :: rest)), (a', w')).
Proof.
  assert (H : w_heap world1 !! state scraper = Some AgentState_default) by reflexivity.
  split; [exact H|].
  exact (update_state_does_not_validate (VStr "on holiday") _ _ _ H).
Defined.

(** ** Introspection *)

Section IntrospectionFacts.

Context {C : Type}.

Implicit Types (obj : pyobject C) (ns : list (string * attr C)) (x : attr C).

Lemma scan_elem obj names name x :
  (name, x) ∈ scan obj names <-> name ∈ names /\ kept obj name x.
Proof.
  unfold kept. induction names as [|n rest IH]; cbn [scan].
  - split; [intros H; inversion H|intros [H _]; inversion H].
  - destruct (Text.startswith "_" n) eqn:Hn.
    { rewrite IH, elem_of_cons. split; [tauto|].
      intros [[->|H] K]; [|tauto]. destruct K as [K _]. congruence. }
    destruct (getattr obj n) as [c|] eqn:Hg.
    2:{ rewrite IH, elem_of_cons. split; [tauto|].
        intros [[->|H] K]; [|tauto]. destruct K as (_ & K & _). congruence. }
    destruct (callable c && truthy (is_tool_attr c)) eqn:Hc.
    + apply andb_true_iff in Hc as [Hc1 Hc2].
      rewrite elem_of_cons, IH, elem_of_cons. split.
      * intros [[= -> ->]|[H K]]; [tauto|tauto].
      * intros [[->|H] K]; [|tauto]. left. destruct K as (_ & K & _). congruence.
    + rewrite IH, elem_of_cons. split; [tauto|].
      intros [[->|H] K]; [|tauto]. destruct K as (_ & K1 & K2 & K3).
      assert (c = x) as -> by congruence. rewrite K2, K3 in Hc. discriminate Hc.
Qed.

Lemma scan_names_elem obj names name :
  name ∈ map fst (scan obj names) -> name ∈ names.
Proof.
  intros H. apply list_elem_of_In, in_map_iff in H as ([n x] & <- & H).
  apply list_elem_of_In, scan_elem in H. tauto.
Qed.

Lemma scan_sorted obj names :
  StronglySorted String.le names -> StronglySorted String.le (map fst (scan obj names)).
Proof.
  induction 1 as [|n rest Hs IH Hn]; cbn [scan]; [constructor|].
  destruct (Text.startswith "_" n); [exact IH|].
  destruct (getattr obj n) as [c|]; [|exact IH].
  destruct (callable c && truthy (is_tool_attr c)); [|exact IH].
  cbn [map fst]. constructor; [exact IH|].
  apply Forall_forall. intros m Hm. apply scan_names_elem in Hm.
  rewrite Forall_forall in Hn. apply Hn. exact Hm.
Qed.

Lemma scan_NoDup obj names : NoDup names -> NoDup (map fst (scan obj names)).
Proof.
  induction 1 as [|n rest Hn Hnd IH]; cbn [scan]; [constructor|].
  destruct (Text.startswith "_" n); [exact IH|].
  destruct (getattr obj n) as [c|]; [|exact IH].
  destruct (callable c && truthy (is_tool_attr c)); [|exact IH].
  cbn [map fst]. constructor; [|exact IH].
  intros Hm. apply Hn. apply scan_names_elem in Hm. exact Hm.
Qed.

Lemma dir_elem obj name :
  name ∈ dir obj
  <-> name ∈ map fst (obj_dict obj) \/ exists ns, ns ∈ obj_mro obj /\ name ∈ map fst ns.
Proof.
  unfold dir. rewrite merge_sort_Permutation, elem_of_remove_dups, elem_of_app.
  apply or_iff_compat_l. rewrite list_elem_of_In, in_concat. split.
  - intros (names & Hnames & Hin). apply in_map_iff in Hnames as (ns & <- & Hns).
    exists ns. rewrite !list_elem_of_In. auto.
  - intros (ns & Hns & Hin). exists (map fst ns). rewrite <- !list_elem_of_In.
    split; [|exact Hin]. apply list_elem_of_In, in_map, list_elem_of_In, Hns.
Qed.

Lemma lookup_ns_elem ns name x : lookup_ns name ns = Some x -> (name, x) ∈ ns.
Proof.
  unfold lookup_ns. destruct (find _ ns) as [[k v]|] eqn:Hf; [|discriminate].
  intros [= <-]. apply find_some in Hf as [Hin Hk].
  apply String.eqb_eq in Hk. cbn [fst] in Hk. subst k. apply list_elem_of_In, Hin.
Qed.

(** What [getattr] finds is an attribute of the instance or of a class. *)
Lemma getattr_elem obj name x :
  getattr obj name = Some x -> (name, x) ∈ obj_dict obj ++ concat (obj_mro obj).
Proof.
  unfold getattr. rewrite elem_of_app.
  destruct (lookup_ns name (obj_dict obj)) as [a|] eqn:Hd.
  - intros [= <-]. left. apply lookup_ns_elem, Hd.
  - intros H. right. induction (obj_mro obj) as [|ns rest IH]; [discriminate H|].
    cbn [concat]. rewrite elem_of_app.
    destruct (lookup_ns name ns) as [a|] eqn:Hn.
    + injection H as <-. left. apply lookup_ns_elem, Hn.
    + right. apply IH, H.
Qed.

Lemma dir_sorted obj : StronglySorted String.le (dir obj) /\ NoDup (dir obj).
Proof.
  unfold dir. split.
  - apply StronglySorted_merge_sort; apply _.
  - rewrite merge_sort_Permutation. apply NoDup_remove_dups.
Qed.

Lemma getattr_dir obj name x : getattr obj name = Some x -> name ∈ dir obj.
Proof.
  intros H%getattr_elem. apply dir_elem.
  apply elem_of_app in H as [H|H].
  - left. apply list_elem_of_In, in_map_iff. exists (name, x).
    split; [reflexivity|apply list_elem_of_In, H].
  - right. apply list_elem_of_In, in_concat in H as (ns & Hns & H).
    exists ns. split; [apply list_elem_of_In, Hns|].
    apply list_elem_of_In, in_map_iff. exists (name, x). split; [reflexivity|exact H].
Qed.

(** C6.  The introspection query returns exactly the attributes of the
    object that are found under a name without a leading underscore, are
    callable and carry a true [__is_tool__]; the names it goes through are
    those of the instance, of its class and of the bases.  So a function
    that [tool] has decorated is returned when it is found under a public
    name, whatever it wraps, and a function that nothing has set
    [__is_tool__] on never is.  When nothing carries the flag the result
    is the empty list, and [collect_tools] gives the same list. *)
Theorem tool_methods_are_the_flagged_callables obj :
  (forall x, x ∈ tool_methods obj
             <-> exists name, name ∈ dir obj /\ Text.startswith "_" name = false
                              /\ getattr obj name = Some x
                              /\ callable x = true /\ truthy (is_tool_attr x) = true)
  /\ (forall name, name ∈ dir obj
                   <-> name ∈ map fst (obj_dict obj)
                       \/ exists ns, ns ∈ obj_mro obj /\ name ∈ map fst ns)
  /\ (forall name wrap f,
        Text.startswith "_" name = false ->
        getattr obj name = Some (Callable (tool_with wrap f)) ->
        Callable (tool_with wrap f) ∈ tool_methods obj)
  /\ (forall f, fn_attrs f = [] -> Callable f ∉ tool_methods obj)
  /\ (forall v, Data v ∉ tool_methods obj)
  /\ ((forall name x, getattr obj name = Some x -> truthy (is_tool_attr x) = false) ->
      tool_methods obj = [])
  /\ AdkAdapter.collect_tools obj = tool_methods obj.
Proof.
  assert (Hiff : forall x, x ∈ tool_methods obj
             <-> exists name, name ∈ dir obj /\ Text.startswith "_" name = false
                              /\ getattr obj name = Some x
                              /\ callable x = true /\ truthy (is_tool_attr x) = true).
  { intros x. unfold tool_methods. rewrite list_elem_of_In, in_map_iff. split.
    + intros ([n y] & <- & H). apply list_elem_of_In, scan_elem in H. exists n. exact H.
    + intros (n & H). exists (n, x). split; [reflexivity|].
      apply list_elem_of_In, scan_elem. exact H. }
  split; [exact Hiff|].
  split; [apply dir_elem|].
  split; [|split; [|split; [|split; [|reflexivity]]]].
  - intros name wrap f Hn Hg. apply Hiff. exists name.
    split; [exact (getattr_dir _ _ _ Hg)|]. split; [exact Hn|]. split; [exact Hg|].
    split; reflexivity.
  - intros f Hf (name & _ & _ & _ & _ & Ht)%Hiff.
    cbn [is_tool_attr] in Ht. rewrite Hf in Ht. discriminate Ht.
  - intros v (name & _ & _ & _ & Hc & _)%Hiff. discriminate Hc.
  - intros Hnone. unfold tool_methods.
    destruct (scan obj (dir obj)) as [|[n x] rest] eqn:Hs; [reflexivity|].
    assert (H : (n, x) ∈ scan obj (dir obj)) by (rewrite Hs; left).
    apply scan_elem in H as (_ & _ & Hg & _ & Hf).
    rewrite (Hnone n x Hg) in Hf. discriminate Hf.
Qed.

(** C7, as amended.  The introspection query lists the tools in the
    ascending order of the names they are found under, each name once;
    being a function of the object, it gives the same list every time. *)
Theorem tool_methods_in_name_order obj :
  tool_methods obj = map snd (scan obj (dir obj))
  /\ StronglySorted String.le (map fst (scan obj (dir obj)))
  /\ NoDup (map fst (scan obj (dir obj))).
Proof.
  destruct (dir_sorted obj) as [Hs Hn].
  split; [reflexivity|]. split; [apply scan_sorted, Hs|apply scan_NoDup, Hn].
Qed.

End IntrospectionFacts.

(** [DocumentationAgent()] has four tools, each found under its name;
    [summarize_action_logs] is one of them, [update_state], which it
    inherits undecorated, is none; an agent of the base class has no
    tool. *)
Lemma tool_methods_are_the_flagged_callables_witness :
  (snd (decorated "DocumentationAgent" "summarize_action_logs")
     ∈ tool_methods documentation_agent)
  /\ (snd (plain "UniversalAgent" "update_state") ∉ tool_methods documentation_agent)
  /\ tool_methods documentation_agent
     = map snd [decorated "DocumentationAgent" "generate_agents_overview";
                decorated "DocumentationAgent" "generate_comprehensive_overview";
                decorated "DocumentationAgent" "get_gcp_api_documentation_info";
                decorated "DocumentationAgent" "summarize_action_logs"]
  /\ (forall name x, getattr bare_agent name = Some x -> truthy (is_tool_attr x) = false)
  /\ tool_methods bare_agent = []
  /\ AdkAdapter.collect_tools documentation_agent = tool_methods documentation_agent.
Proof.
  assert (H : forall name x, getattr bare_agent name = Some x ->
                             truthy (is_tool_attr x) = false).
  { intros name x Hg. apply getattr_elem in Hg.
    assert (Hall : Forall (fun kv => truthy (is_tool_attr (snd kv)) = false)
                          (obj_dict bare_agent ++ concat (obj_mro bare_agent)))
      by (vm_compute; repeat constructor).
    rewrite Forall_forall in Hall. exact (Hall _ Hg). }
  destruct (tool_methods_are_the_flagged_callables documentation_agent)
    as (_ & _ & Hin & Hout & _ & _ & Hsame).
  destruct (tool_methods_are_the_flagged_callables bare_agent)
    as (_ & _ & _ & _ & _ & Hnone & _).
  split; [exact (Hin "summarize_action_logs" _ _ eq_refl eq_refl)|].
  split; [exact (Hout (MkFunc "update_state" [] None "UniversalAgent.update_state") eq_refl)|].
  split; [vm_compute; reflexivity|].
  split; [exact H|].
  split; [exact (Hnone H)|exact Hsame].
Defined.

(** C7 as stated fails: [DocumentationAgent] declares
    [summarize_action_logs] second, and the query lists it last. *)
Lemma tools_not_in_declaration_order :
  map fst (scan documentation_agent (dir documentation_agent))
  = ["generate_agents_overview"; "generate_comprehensive_overview";
     "get_gcp_api_documentation_info"; "summarize_action_logs"]
  /\ tool_methods documentation_agent <> declared_tools DocumentationAgent_ns.
Proof.
  split; [vm_compute; reflexivity|].
  intros H. vm_compute in H. discriminate H.
Qed.

(** ** Identifiers *)

Lemma app_cons a s1 s2 : String a s1 +:+ s2 = String a (s1 +:+ s2).
Proof. reflexivity. Qed.

Lemma length_app s1 s2 : String.length (s1 +:+ s2) = (String.length s1 + String.length s2)%nat.
Proof.
  induction s1 as [|a s1 IH]; [reflexivity|].
  rewrite app_cons. cbn [String.length]. rewrite IH. reflexivity.
Qed.













(** ** Messages *)






(** * Further properties *)

(** ** Splitting and stripping text *)

Import Str Files.

Lemma contains_app c a b :
  Text.contains c (a +:+ b) = Text.contains c a || Text.contains c b.
Proof.
  induction a as [|x a IH]; [reflexivity|].
  change (String x a +:+ b) with (String x (a +:+ b)). cbn [Text.contains].
  rewrite IH. destruct (Ascii.eqb x c); reflexivity.
Qed.

Lemma split1_app sep a b :
  Text.contains sep a = false ->
  split1 sep (a +:+ String sep b) = [a; b].
Proof.
  induction a as [|x a IH]; intros H.
  - change (EmptyString +:+ String sep b) with (String sep b).
    cbn [split1]. rewrite Ascii.eqb_refl. reflexivity.
  - cbn [Text.contains] in H. destruct (Ascii.eqb x sep) eqn:E; [discriminate|].
    change (String x a +:+ String sep b) with (String x (a +:+ String sep b)).
    cbn [split1]. rewrite E, (IH H). reflexivity.
Qed.

Lemma lstrip_length s : (String.length (lstrip s) <= String.length s)%nat.
Proof.
  induction s as [|c s IH]; [reflexivity|].
  cbn [lstrip]. destruct (isspace c); cbn [String.length]; lia.
Qed.

Lemma lstrip_fixed_app s c t :
  lstrip s = s -> isspace c = false -> lstrip (s +:+ String c t) = s +:+ String c t.
Proof.
  intros Hs Hc. destruct s as [|x s].
  - change (EmptyString +:+ String c t) with (String c t).
    cbn [lstrip]. rewrite Hc. reflexivity.
  - cbn [lstrip] in Hs.
    change (String x s +:+ String c t) with (String x (s +:+ String c t)).
    cbn [lstrip]. destruct (isspace x); [|reflexivity].
    pose proof (lstrip_length s) as Hl. rewrite Hs in Hl. cbn [String.length] in Hl. lia.
Qed.

Lemma rstrip_cons c s :
  isspace c = false -> rstrip (String c s) = String c (rstrip s).
Proof. intros Hc. cbn [rstrip]. rewrite Hc. destruct (rstrip s); reflexivity. Qed.

Lemma rstrip_app a b :
  rstrip b <> EmptyString -> rstrip (a +:+ b) = a +:+ rstrip b.
Proof.
  intros Hb. induction a as [|x a IH]; [reflexivity|].
  change (String x a +:+ b) with (String x (a +:+ b)).
  change (String x a +:+ rstrip b) with (String x (a +:+ rstrip b)).
  cbn [rstrip]. rewrite IH.
  destruct (a +:+ rstrip b) eqn:E; [|reflexivity].
  destruct a; [cbn in E; contradiction|discriminate E].
Qed.

Lemma app_assoc_str (a b c : string) : (a +:+ b) +:+ c = a +:+ (b +:+ c).
Proof.
  induction a as [|x a IH]; [reflexivity|].
  change (String x ((a +:+ b) +:+ c) = String x (a +:+ (b +:+ c))). f_equal. exact IH.
Qed.

(** ** Characters the rendered parts of a line never hold *)

Lemma pretty_N_char_plain c x : structural c -> Ascii.eqb (pretty_N_char x) c = false.
Proof.
  intros [->|[->| ->]]; unfold pretty_N_char; repeat case_match; reflexivity.
Qed.

Lemma pretty_N_go_plain c x s :
  structural c -> Text.contains c s = false -> Text.contains c (pretty_N_go x s) = false.
Proof.
  intros Hc. revert s. induction (N.lt_wf_0 x) as [x _ IH]; intros s Hs.
  destruct (decide (x = 0)%N) as [->|Hx].
  - rewrite pretty_N_go_0. exact Hs.
  - rewrite pretty_N_go_step by lia. apply IH.
    + apply N.div_lt; lia.
    + cbn [Text.contains]. rewrite (pretty_N_char_plain c _ Hc). exact Hs.
Qed.

Lemma pretty_nat_plain c (n : nat) : structural c -> Text.contains c (pretty n) = false.
Proof.
  intros Hc. unfold pretty, pretty_nat, pretty, pretty_N. case_decide.
  - destruct Hc as [->|[->| ->]]; reflexivity.
  - apply pretty_N_go_plain; [exact Hc|reflexivity].
Qed.

Lemma zeros_plain c k :
  structural c -> Text.contains c (String.concat EmptyString (replicate k "0")) = false.
Proof.
  intros Hc. induction k as [|k IH]; [reflexivity|].
  destruct k as [|k]; [destruct Hc as [->|[->| ->]]; reflexivity|].
  change (Text.contains c
            ("0" +:+ EmptyString +:+ String.concat EmptyString (replicate (S k) "0")) = false).
  rewrite !contains_app, IH. destruct Hc as [->|[->| ->]]; reflexivity.
Qed.

Lemma zero_pad_plain c w n : structural c -> Text.contains c (Text.zero_pad w n) = false.
Proof.
  intros Hc. unfold Text.zero_pad.
  rewrite contains_app, (pretty_nat_plain c n Hc), (zeros_plain c _ Hc). reflexivity.
Qed.

Lemma isoformat_plain c d : structural c -> Text.contains c (isoformat d) = false.
Proof.
  intros Hc. unfold isoformat.
  repeat (rewrite contains_app || rewrite (zero_pad_plain c _ _ Hc)).
  destruct (Nat.eqb (dt_microsecond d) 0).
  - destruct Hc as [->|[->| ->]]; reflexivity.
  - rewrite contains_app, (zero_pad_plain c _ _ Hc).
    destruct Hc as [->|[->| ->]]; reflexivity.
Qed.

Lemma isoformat_no_bar d : Text.contains "|" (isoformat d) = false.
Proof. apply isoformat_plain. left. reflexivity. Qed.

Lemma hex_digit_plain c d : line_break c -> Ascii.eqb (Text.hex_digit d) c = false.
Proof. intros [->| ->]; unfold Text.hex_digit; repeat case_match; reflexivity. Qed.

Lemma hex_fixed_plain c w n : line_break c -> Text.contains c (Text.hex_fixed w n) = false.
Proof.
  intros Hc. revert n. induction w as [|w IH]; intros n; [reflexivity|].
  cbn [Text.hex_fixed]. rewrite contains_app, IH. cbn [Text.contains orb].
  rewrite (hex_digit_plain c _ Hc). reflexivity.
Qed.

Lemma json_char_plain c x : line_break c -> Text.contains c (json_char x) = false.
Proof.
  intros Hc. unfold json_char.
  destruct (Ascii.eqb x "034") eqn:E1; [destruct Hc as [->| ->]; reflexivity|].
  destruct (Ascii.eqb x "\") eqn:E2; [destruct Hc as [->| ->]; reflexivity|].
  destruct (Ascii.eqb x "010") eqn:E3; [destruct Hc as [->| ->]; reflexivity|].
  destruct (Ascii.eqb x "013") eqn:E4; [destruct Hc as [->| ->]; reflexivity|].
  destruct (Ascii.eqb x "009") eqn:E5; [destruct Hc as [->| ->]; reflexivity|].
  destruct (Ascii.eqb x "008") eqn:E6; [destruct Hc as [->| ->]; reflexivity|].
  destruct (Ascii.eqb x "012") eqn:E7; [destruct Hc as [->| ->]; reflexivity|].
  destruct (_ && _).
  - cbn [Text.contains]. destruct Hc as [->| ->]; [rewrite E3|rewrite E4]; reflexivity.
  - rewrite contains_app, (hex_fixed_plain c _ _ Hc). destruct Hc as [->| ->]; reflexivity.
Qed.

Lemma json_str_plain c s : line_break c -> Text.contains c (json_str s) = false.
Proof.
  intros Hc. unfold json_str. rewrite !contains_app.
  assert (H : Text.contains c (json_chars s) = false).
  { induction s as [|x s IH]; [reflexivity|].
    cbn [json_chars]. rewrite contains_app, (json_char_plain c x Hc), IH. reflexivity. }
  rewrite H. destruct Hc as [->| ->]; reflexivity.
Qed.

Lemma join_plain c sep parts :
  Text.contains c sep = false ->
  Forall (fun p => Text.contains c p = false) parts ->
  Text.contains c (Text.join sep parts) = false.
Proof.
  intros Hsep. induction 1 as [|p parts Hp Hparts IH]; [reflexivity|].
  cbn [Text.join]. destruct parts as [|q parts]; [exact Hp|].
  rewrite !contains_app, Hp, Hsep, IH. reflexivity.
Qed.

Lemma kwargs_json_plain c kwargs : line_break c -> Text.contains c (kwargs_json kwargs) = false.
Proof.
  intros Hc. unfold kwargs_json. rewrite !contains_app.
  rewrite join_plain.
  - destruct Hc as [->| ->]; reflexivity.
  - destruct Hc as [->| ->]; reflexivity.
  - apply List.Forall_map. apply List.Forall_forall. intros kv _.
    rewrite !contains_app, !(json_str_plain c _ Hc).
    destruct Hc as [->| ->]; reflexivity.
Qed.

(** ** Reading the action log back *)

Import DocumentationAgent.

Lemma lstrip_cons c s : isspace c = false -> lstrip (String c s) = String c s.
Proof. intros Hc. cbn [lstrip]. rewrite Hc. reflexivity. Qed.

Lemma lstrip_space c s : isspace c = true -> lstrip (String c s) = lstrip s.
Proof. intros Hc. cbn [lstrip]. rewrite Hc. reflexivity. Qed.

(** What [parse_entry] makes of a line of the shape the decorator writes *)
Lemma parse_entry_line iso id name body :
  Text.contains "|" iso = false ->
  Text.contains ":" id = false -> Text.contains "." id = false -> lstrip id = id ->
  Text.contains ":" name = false -> rstrip name = name ->
  rstrip body = body -> body <> EmptyString ->
  parse_entry ("- " +:+ iso +:+ " | " +:+ id +:+ "." +:+ name +:+ ": " +:+ body)
  = Some (id, name).
Proof.
  intros Hiso Hid1 Hid2 Hid3 Hn1 Hn2 Hb1 Hb2. unfold parse_entry.
  set (rest := id +:+ "." +:+ name +:+ ": " +:+ body).
  assert (Hsplit : split1 "|" ("- " +:+ iso +:+ " | " +:+ rest) = ["- " +:+ iso +:+ " "; " " +:+ rest]).
  { rewrite <- (split1_app "|" ("- " +:+ iso +:+ " ") (" " +:+ rest)).
    - rewrite !app_assoc_str. reflexivity.
    - rewrite !contains_app, Hiso. reflexivity. }
  rewrite Hsplit. cbn [lookup list_lookup mbind option_bind].
  assert (Hrhs : strip (" " +:+ rest) = rest).
  { unfold strip. change (" " +:+ rest) with (String " " rest).
    rewrite lstrip_space by reflexivity.
    unfold rest. change ("." +:+ ?x) with (String "." x).
    rewrite (lstrip_fixed_app id "." _ Hid3 eq_refl).
    change (String "." ?x) with ("." +:+ x).
    replace (id +:+ "." +:+ name +:+ ": " +:+ body)
      with ((id +:+ "." +:+ name +:+ ": ") +:+ body) by (rewrite !app_assoc_str; reflexivity).
    rewrite rstrip_app by (rewrite Hb1; exact Hb2). rewrite Hb1. reflexivity. }
  rewrite Hrhs.
  assert (Hhead : split1 ":" rest = [id +:+ "." +:+ name; " " +:+ body]).
  { unfold rest.
    rewrite <- (split1_app ":" (id +:+ "." +:+ name) (" " +:+ body)).
    - rewrite !app_assoc_str. reflexivity.
    - rewrite !contains_app, Hid1, Hn1. reflexivity. }
  rewrite Hhead. cbn [lookup list_lookup mbind option_bind].
  assert (Hat : strip (id +:+ "." +:+ name) = id +:+ "." +:+ name).
  { unfold strip. change ("." +:+ name) with (String "." name).
    rewrite (lstrip_fixed_app id "." _ Hid3 eq_refl).
    rewrite rstrip_app; rewrite rstrip_cons by reflexivity; [|discriminate].
    rewrite Hn2. reflexivity. }
  rewrite Hat. change ("." +:+ name) with (String "." name).
  rewrite (split1_app "." id name Hid2). reflexivity.
Qed.

Lemma strip_action_line now id name args kw :
  exists body,
    rstrip body = body /\ body <> EmptyString
    /\ strip (action_line now id name args kw)
       = "- " +:+ isoformat now +:+ " | " +:+ id +:+ "." +:+ name +:+ ": " +:+ body.
Proof.
  set (inner := Text.dquote +:+ "args" +:+ Text.dquote +:+ ": "
                +:+ Text.dquote +:+ Text.take 120 (str_tuple args) +:+ Text.dquote
                +:+ ", " +:+ Text.dquote +:+ "kwargs" +:+ Text.dquote +:+ ": " +:+ kw).
  assert (Hbody : rstrip ("{" +:+ inner +:+ "}" +:+ Text.newline) = "{" +:+ inner +:+ "}").
  { change ("{" +:+ inner +:+ "}" +:+ Text.newline)
      with (String "{" (inner +:+ "}" +:+ Text.newline)).
    rewrite rstrip_cons by reflexivity. rewrite rstrip_app by discriminate. reflexivity. }
  exists ("{" +:+ inner +:+ "}"). split; [|split; [discriminate|]].
  - change ("{" +:+ inner +:+ "}") with (String "{" (inner +:+ "}")).
    rewrite rstrip_cons by reflexivity. rewrite rstrip_app by discriminate. reflexivity.
  - unfold strip, action_line.
    change ("- " +:+ ?x) with (String "-" (String " " x)).
    rewrite lstrip_cons by reflexivity.
    change (String "-" (String " " ?x)) with ("- " +:+ x).
    replace ("- " +:+ isoformat now +:+ " | " +:+ id +:+ "." +:+ name +:+ ": " +:+ "{"
             +:+ Text.dquote +:+ "args" +:+ Text.dquote +:+ ": "
             +:+ Text.dquote +:+ Text.take 120 (str_tuple args) +:+ Text.dquote
             +:+ ", " +:+ Text.dquote +:+ "kwargs" +:+ Text.dquote +:+ ": " +:+ kw
             +:+ "}" +:+ Text.newline)
      with (("- " +:+ isoformat now +:+ " | " +:+ id +:+ "." +:+ name +:+ ": ")
            +:+ ("{" +:+ inner +:+ "}" +:+ Text.newline)).
    + rewrite rstrip_app by (rewrite Hbody; discriminate).
      rewrite Hbody. rewrite !app_assoc_str. reflexivity.
    + unfold inner. rewrite !app_assoc_str. reflexivity.
Qed.

(** X1.  A line the decorator wrote is read back by the summary as the
    call it records: for an agent identifier holding neither colon nor
    dot and not starting with white space, and a tool name holding no
    colon and not ending in white space, the parsing step of
    [summarize_action_logs] applied to the stripped line gives that
    identifier and that name, whatever the timestamp and the arguments. *)
Theorem logged_line_parses_back now id name args kw :
  Text.contains ":" id = false -> Text.contains "." id = false -> lstrip id = id ->
  Text.contains ":" name = false -> rstrip name = name ->
  parse_entry (strip (action_line now id name args kw)) = Some (id, name).
Proof.
  intros Hid1 Hid2 Hid3 Hn1 Hn2.
  destruct (strip_action_line now id name args kw) as (body & Hb1 & Hb2 & ->).
  apply parse_entry_line; auto using isoformat_no_bar.
Qed.

(** ** Lines of a text file *)


Lemma readlines_one_line s :
  one_line s = true -> readlines (s +:+ Text.newline) = [s +:+ Text.newline].
Proof.
  unfold one_line. induction s as [|c s IH]; intros H; [reflexivity|].
  cbn [Text.contains] in H.
  destruct (Ascii.eqb c "010") eqn:E1; [discriminate H|].
  destruct (Ascii.eqb c "013") eqn:E2; [rewrite andb_false_r in H; discriminate H|].
  change (String c s +:+ Text.newline) with (String c (s +:+ Text.newline)).
  cbn [readlines]. rewrite E1, E2, (IH H). reflexivity.
Qed.



(** ** Counting *)

Lemma tally_bump k d : tally (bump k d) = tally d + 1.
Proof.
  induction d as [|[k' n] d IH]; [reflexivity|].
  cbn [bump]. unfold tally in *. destruct (String.eqb k' k); cbn [foldr snd] in *; lia.
Qed.

Lemma bump_keys k d :
  NoDup (map fst d) -> NoDup (map fst (bump k d)) /\ forall x, x ∈ map fst (bump k d) -> x = k \/ x ∈ map fst d.
Proof.
  induction d as [|[k' n] d IH]; intros Hd.
  - cbn [bump map fst]. split; [apply NoDup_singleton|]. intros x Hx. set_solver.
  - cbn [bump]. inversion Hd as [|? ? Hk' Hd']; subst.
    destruct (String.eqb_spec k' k) as [->|Hne].
    + split; [exact Hd|]. intros x Hx. right. exact Hx.
    + destruct (IH Hd') as [IH1 IH2]. cbn [map fst]. split.
      * constructor; [|exact IH1]. intros Hin. destruct (IH2 _ Hin) as [->|Hin']; [congruence|].
        exact (Hk' Hin').
      * intros x Hx. apply elem_of_cons in Hx as [->|Hx]; [right; left|].
        destruct (IH2 _ Hx) as [->|Hx']; [left; reflexivity|right; right; exact Hx'].
Qed.

Lemma bump_positive k d :
  Forall (fun kn => 1 <= snd kn) d -> Forall (fun kn => 1 <= snd kn) (bump k d).
Proof.
  induction d as [|[k' n] d IH]; intros Hd.
  - constructor; [cbn [snd]; lia|constructor].
  - cbn [bump]. inversion Hd as [|? ? Hn Hd']; subst. cbn [snd] in Hn.
    destruct (String.eqb k' k); constructor; cbn [snd]; auto; lia.
Qed.

(** ** Calls on a file system that serves them *)

Lemma bind_ok {S A B} (m : M S A) (k : A -> M S B) s a s1 :
  m s = (Return a, s1) -> (m ≫= k) s = k a s1.
Proof. intros H. unfold mbind, M_bind, bind. rewrite H. reflexivity. Qed.

Lemma syscall_ok p w : serving w -> syscall p w = (Return tt, w).
Proof. unfold serving, syscall. intros ->. reflexivity. Qed.

Lemma ancestors_cons n p : ancestors n p = p :: tail (ancestors n p).
Proof. destruct n as [|n]; cbn [ancestors]; [reflexivity|]. destruct (_ || _); reflexivity. Qed.

(** Where no file is in the way, every directory that is missing gets
    made and none is lost. *)
Lemma mkdirs_free fs name above :
  Forall (fun q => fs_files fs !! q = None) (name :: above) ->
  exists dirs,
    mkdirs fs name above = inr dirs
    /\ fs_dirs fs ⊆ dirs /\ name ∈ dirs
    /\ dirs ⊆ fs_dirs fs ∪ list_to_set (name :: above).
Proof.
  revert name. induction above as [|head rest IH]; intros name Hfree;
    inversion Hfree as [|? ? Hname Hrest]; subst; cbn [mkdirs].
  - case_decide as Hin.
    + exists (fs_dirs fs). split; [reflexivity|]. split; [reflexivity|].
      split; [exact Hin|apply union_subseteq_l].
    + case_decide as Hfile; [rewrite Hname in Hfile; destruct Hfile; discriminate|].
      exists ({[name]} ∪ fs_dirs fs). split; [reflexivity|].
      split; [apply union_subseteq_r|]. split; [apply elem_of_union_l, elem_of_singleton; reflexivity|].
      intros q [->%elem_of_singleton|Hq]%elem_of_union.
      * apply elem_of_union_r, elem_of_list_to_set. left.
      * apply elem_of_union_l, Hq.
  - case_decide as Hhead.
    + case_decide as Hin.
      * exists (fs_dirs fs). split; [reflexivity|]. split; [reflexivity|].
        split; [exact Hin|apply union_subseteq_l].
      * case_decide as Hfile; [rewrite Hname in Hfile; destruct Hfile; discriminate|].
        exists ({[name]} ∪ fs_dirs fs). split; [reflexivity|].
        split; [apply union_subseteq_r|].
        split; [apply elem_of_union_l, elem_of_singleton; reflexivity|].
        intros q [->%elem_of_singleton|Hq]%elem_of_union.
        -- apply elem_of_union_r, elem_of_list_to_set. left.
        -- apply elem_of_union_l, Hq.
    + case_decide as Hheadfile.
      { inversion Hrest as [|? ? Hh _]; subst. rewrite Hh in Hheadfile.
        destruct Hheadfile; discriminate. }
      destruct (IH head Hrest) as (dirs & -> & Hsub & _ & Hup).
      case_decide as Hin.
      * exists dirs. split; [reflexivity|]. split; [exact Hsub|]. split; [exact Hin|].
        intros q Hq. apply Hup in Hq as [Hq|Hq]%elem_of_union; [apply elem_of_union_l, Hq|].
        apply elem_of_union_r, elem_of_list_to_set. right. apply elem_of_list_to_set in Hq. exact Hq.
      * case_decide as Hfile; [rewrite Hname in Hfile; destruct Hfile; discriminate|].
        exists ({[name]} ∪ dirs). split; [reflexivity|].
        split; [etransitivity; [exact Hsub|apply union_subseteq_r]|].
        split; [apply elem_of_union_l, elem_of_singleton; reflexivity|].
        intros q [->%elem_of_singleton|Hq]%elem_of_union.
        -- apply elem_of_union_r, elem_of_list_to_set. left.
        -- apply Hup in Hq as [Hq|Hq]%elem_of_union; [apply elem_of_union_l, Hq|].
           apply elem_of_union_r, elem_of_list_to_set. right.
           apply elem_of_list_to_set in Hq. exact Hq.
Qed.

Lemma makedirs_ok p w :
  serving w ->
  Forall (fun q => fs_files (w_fs w) !! q = None) (ancestors (String.length p) p) ->
  exists dirs,
    makedirs p w
    = (Return tt, set_fs (MkFs dirs (fs_files (w_fs w)) (fs_faults (w_fs w))
                               (fs_short (w_fs w))) w)
    /\ fs_dirs (w_fs w) ⊆ dirs /\ p ∈ dirs
    /\ dirs ⊆ fs_dirs (w_fs w) ∪ list_to_set (ancestors (String.length p) p).
Proof.
  intros Hs Hfree. unfold makedirs.
  rewrite (bind_ok _ _ _ _ _ (syscall_ok p w Hs)).
  rewrite (bind_ok get _ w w w eq_refl).
  rewrite (ancestors_cons _ p) in Hfree |- *. cbn [tail].
  destruct (mkdirs_free _ _ _ Hfree) as (dirs & -> & Hrest).
  exists dirs. split; [reflexivity|exact Hrest].
Qed.

Lemma open_append_ok p w :
  serving w -> p ∉ fs_dirs (w_fs w) -> dirname p ∈ fs_dirs (w_fs w) ->
  open_append p w
  = (Return p,
     set_fs (MkFs (fs_dirs (w_fs w))
                  (<[p := default EmptyString (fs_files (w_fs w) !! p)]> (fs_files (w_fs w)))
                  (fs_faults (w_fs w)) (fs_short (w_fs w))) w).
Proof.
  intros Hs Hp Hd. unfold open_append.
  rewrite (bind_ok _ _ _ _ _ (syscall_ok p w Hs)).
  rewrite (bind_ok get _ w w w eq_refl).
  repeat case_decide; try contradiction. reflexivity.
Qed.

Lemma write_ok lf t w :
  serving w -> write lf t w = (Return tt, set_fs (extend lf t (w_fs w)) w).
Proof. intros Hs. unfold write. rewrite (syscall_ok lf w Hs). reflexivity. Qed.

Lemma call_reprs_ok n w :
  reprs_return w -> exists rest, call_reprs n w = (Return tt, set_reprs rest w).
Proof.
  unfold reprs_return. revert w. induction n as [|n IH]; intros w Hw.
  - exists (w_reprs w). rewrite set_reprs_same. reflexivity.
  - cbn [call_reprs].
    destruct (w_reprs w) as [|o rest] eqn:Hr.
    + rewrite (bind_ok call_repr _ w tt w)
        by (unfold call_repr; rewrite Hr; reflexivity).
      apply IH. rewrite Hr. constructor.
    + inversion Hw as [|? ? Ho Hrest]; subst.
      rewrite (bind_ok call_repr _ w tt (set_reprs rest w))
        by (unfold call_repr; rewrite Hr; reflexivity).
      destruct (IH (set_reprs rest w) Hrest) as [rest' ->].
      exists rest'. reflexivity.
Qed.




(** ** The directory of the action log *)

Lemma list_ascii_app a b :
  list_ascii_of_string (a +:+ b) = list_ascii_of_string a ++ list_ascii_of_string b.
Proof.
  induction a as [|x a IH]; [reflexivity|].
  change (String x a +:+ b) with (String x (a +:+ b)). cbn [list_ascii_of_string].
  rewrite IH. reflexivity.
Qed.

Lemma string_of_list_length l : String.length (string_of_list_ascii l) = length l.
Proof. induction l as [|c l IH]; [reflexivity|]. cbn. f_equal. exact IH. Qed.

Lemma list_of_string_length s : length (list_ascii_of_string s) = String.length s.
Proof. induction s as [|c s IH]; [reflexivity|]. cbn. f_equal. exact IH. Qed.

Lemma drop_while_length p l : (length (drop_while p l) <= length l)%nat.
Proof.
  induction l as [|c l IH]; [reflexivity|].
  cbn [drop_while]. destruct (p c); cbn [length]; lia.
Qed.

(** The text before the last separator is all [dirname] can return. *)
Lemma dirname_length_head p :
  (String.length (dirname p)
   <= length (drop_while (fun c => negb (is_sep c)) (rev (list_ascii_of_string p))))%nat.
Proof.
  unfold dirname. set (cut := drop_while _ (rev (list_ascii_of_string p))).
  destruct (forallb is_sep (rev cut)); rewrite string_of_list_length, ?length_rev.
  - reflexivity.
  - pose proof (drop_while_length is_sep (rev (rev cut))) as H.
    rewrite !length_rev in H. exact H.
Qed.

Lemma dirname_length p : (String.length (dirname p) <= String.length p)%nat.
Proof.
  etransitivity; [apply dirname_length_head|].
  etransitivity; [apply drop_while_length|].
  rewrite length_rev, list_of_string_length. reflexivity.
Qed.

Lemma ancestors_length n p q :
  q ∈ ancestors n p -> (String.length q <= String.length p)%nat.
Proof.
  revert p. induction n as [|n IH]; intros p; cbn [ancestors].
  - intros ->%list_elem_of_singleton. reflexivity.
  - destruct (_ || _).
    + intros ->%list_elem_of_singleton. reflexivity.
    + intros [->|H]%elem_of_cons; [reflexivity|].
      apply IH in H. pose proof (dirname_length p). lia.
Qed.

Lemma ancestors_head n p : p ∈ ancestors n p.
Proof.
  destruct n as [|n]; cbn [ancestors]; [left|].
  destruct (_ || _); left.
Qed.

Lemma join_file_name a :
  exists pre, join a ["agents"; "AGENT_ACTIONS.md"] = pre +:+ "AGENT_ACTIONS.md".
Proof.
  cbn [join]. change (Text.startswith "/" "agents") with false.
  change (Text.startswith "/" "AGENT_ACTIONS.md") with false. cbv iota.
  destruct (_ || _); destruct (_ || _); eexists; rewrite <- ?app_assoc_str; reflexivity.
Qed.

Lemma drop_while_prefix p (l l' : list ascii) :
  forallb p l = true -> drop_while p (l ++ l') = drop_while p l'.
Proof.
  induction l as [|c l IH]; [reflexivity|].
  cbn [forallb app drop_while]. destruct (p c); [exact IH|discriminate].
Qed.

Lemma dirname_log_path_shorter file :
  (String.length (dirname (action_log_path file)) < String.length (action_log_path file))%nat.
Proof.
  unfold action_log_path.
  destruct (join_file_name (dirname (dirname (dirname file)))) as [pre ->].
  eapply Nat.le_lt_trans; [apply dirname_length_head|].
  rewrite list_ascii_app, rev_app_distr.
  rewrite drop_while_prefix by reflexivity.
  eapply Nat.le_lt_trans; [apply drop_while_length|].
  rewrite length_rev, list_of_string_length, length_app.
  cbn [String.length]. lia.
Qed.

Lemma log_path_not_ancestor n file :
  action_log_path file ∉ ancestors n (dirname (action_log_path file)).
Proof.
  intros H%ancestors_length. pose proof (dirname_log_path_shorter file). lia.
Qed.

(** ** Appending on a file system that serves every call *)

Lemma append_line_ok id name args kwargs w :
  serving w -> reprs_return w -> log_path_free w ->
  exists w',
    append_line id name args kwargs w = (Return tt, w')
    /\ fs_files (w_fs w')
       = <[action_log_path (w_file w) :=
             log_text w +:+ action_line (w_clock w O) id name args (kwargs_json kwargs)]>
           (fs_files (w_fs w))
    /\ fs_dirs (w_fs w) ⊆ fs_dirs (w_fs w')
    /\ dirname (action_log_path (w_file w)) ∈ fs_dirs (w_fs w')
    /\ fs_dirs (w_fs w')
       ⊆ fs_dirs (w_fs w)
         ∪ list_to_set (ancestors (String.length (dirname (action_log_path (w_file w))))
                                  (dirname (action_log_path (w_file w))))
    /\ serving w' /\ w_file w' = w_file w /\ quiet w w'.
Proof.
  intros Hs Hr [Hfree1 Hfree2]. unfold append_line.
  rewrite (bind_ok get _ w w w eq_refl).
  set (path := action_log_path (w_file w)) in *.
  destruct (makedirs_ok (dirname path) w Hs Hfree2) as (dirs & Hmk & Hsub & Hdir & Hup).
  rewrite (bind_ok _ _ _ _ _ Hmk).
  set (w1 := set_fs _ w).
  assert (Hs1 : serving w1) by exact Hs.
  assert (Hp1 : path ∉ fs_dirs (w_fs w1)).
  { cbn. intros [H|H]%Hup%elem_of_union; [exact (Hfree1 H)|].
    apply elem_of_list_to_set in H. exact (log_path_not_ancestor _ _ H). }
  assert (Hd1 : dirname path ∈ fs_dirs (w_fs w1)) by exact Hdir.
  unfold with_open_append.
  rewrite (bind_ok _ _ _ _ _ (open_append_ok path w1 Hs1 Hp1 Hd1)).
  set (w2 := set_fs _ w1).
  rewrite (bind_ok utcnow _ w2 (w_clock w O) (set_clock (fun n => w_clock w (S n)) w2) eq_refl).
  set (w3 := set_clock _ w2).
  assert (Hr3 : reprs_return w3) by exact Hr.
  destruct (call_reprs_ok (instances (VList args)) w3 Hr3) as [rest Hrender].
  rewrite (bind_ok (rendering args) _ w3 tt _ Hrender).
  set (w4 := set_reprs rest w3).
  unfold json_dumps_or_raise. rewrite json_dumps_kwargs_types.
  rewrite (bind_ok (ret (kwargs_json kwargs)) _ w4 _ w4 eq_refl).
  assert (Hs4 : serving w4) by exact Hs.
  rewrite (write_ok path _ w4 Hs4).
  set (w5 := set_fs _ w4).
  assert (Hs5 : serving w5) by exact Hs.
  unfold close. rewrite (syscall_ok path w5 Hs5).
  exists w5. split; [reflexivity|].
  split; [|split; [exact Hsub|split; [exact Hdir|split; [exact Hup|]]]].
  - cbn. rewrite lookup_insert_eq. cbn. rewrite insert_insert_eq. reflexivity.
  - split; [exact Hs|split; [reflexivity|repeat split]].
Qed.

(** ** The summary of a log the decorator wrote *)

Lemma one_line_app a b : one_line (a +:+ b) = one_line a && one_line b.
Proof.
  unfold one_line. rewrite !contains_app.
  destruct (Text.contains "010" a), (Text.contains "010" b),
    (Text.contains "013" a), (Text.contains "013" b); reflexivity.
Qed.

Lemma one_line_plain s : (forall c, line_break c -> Text.contains c s = false) -> one_line s = true.
Proof.
  intros H. unfold one_line.
  rewrite (H "010"%char) by (left; reflexivity).
  rewrite (H "013"%char) by (right; reflexivity). reflexivity.
Qed.

Lemma isoformat_one_line d : one_line (isoformat d) = true.
Proof. apply one_line_plain. intros c Hc. apply isoformat_plain. right. exact Hc. Qed.

Lemma kwargs_json_one_line kwargs : one_line (kwargs_json kwargs) = true.
Proof. apply one_line_plain. intros c Hc. apply kwargs_json_plain. exact Hc. Qed.

Lemma action_line_text now id name args kw :
  one_line id = true -> one_line name = true ->
  one_line (Text.take 120 (str_tuple args)) = true -> one_line kw = true ->
  exists text, action_line now id name args kw = text +:+ Text.newline /\ one_line text = true.
Proof.
  intros Hid Hname Hargs Hkw.
  exists ("- " +:+ isoformat now +:+ " | " +:+ id +:+ "." +:+ name +:+ ": "
          +:+ "{" +:+ Text.dquote +:+ "args" +:+ Text.dquote +:+ ": "
          +:+ Text.dquote +:+ Text.take 120 (str_tuple args) +:+ Text.dquote
          +:+ ", " +:+ Text.dquote +:+ "kwargs" +:+ Text.dquote +:+ ": " +:+ kw +:+ "}").
  split.
  - unfold action_line. rewrite !app_assoc_str. reflexivity.
  - rewrite !one_line_app, Hid, Hname, Hargs, Hkw, isoformat_one_line. reflexivity.
Qed.






Lemma lift_run {A} (m : M world A) a w r w' :
  m w = (r, w') -> lift m (a, w) = (r, (a, w')).
Proof. intros H. unfold lift. cbn [fst snd]. rewrite H. reflexivity. Qed.


Lemma append_action_ok {R} (func : pyfunc (method_of R)) args kwargs s :
  serving (snd s) -> reprs_return (snd s) -> log_path_free (snd s) ->
  exists w',
    append_action func args kwargs s = (Return tt, (fst s, w'))
    /\ fs_files (w_fs w')
       = <[action_log_path (w_file (snd s)) := log_text (snd s) +:+ line_of func args kwargs s]>
           (fs_files (w_fs (snd s)))
    /\ fs_dirs (w_fs (snd s)) ⊆ fs_dirs (w_fs w')
    /\ dirname (action_log_path (w_file (snd s))) ∈ fs_dirs (w_fs w')
    /\ fs_dirs (w_fs w')
       ⊆ fs_dirs (w_fs (snd s))
         ∪ list_to_set (ancestors (String.length (dirname (action_log_path (w_file (snd s)))))
                                  (dirname (action_log_path (w_file (snd s)))))
    /\ serving w' /\ w_file w' = w_file (snd s) /\ quiet (snd s) w'.
Proof.
  intros Hs Hr Hfree. destruct s as [a w]. cbn [fst snd] in *.
  destruct (append_line_ok (agent_id a) (fn_name func) args kwargs w Hs Hr Hfree)
    as (w' & Hrun & Hrest).
  exists w'. split; [|exact Hrest].
  unfold append_action.
  rewrite (bind_ok get_self _ (a, w) a (a, w) eq_refl).
  exact (lift_run _ a w _ _ Hrun).
Qed.


(** ** One call, one line *)

(** C2, as amended.  For a method defined with [def]: when the method
    raises, the decorated method raises the same exception and stops in
    the state the method left, before anything is appended.  When the
    method returns, the decorated method returns the same result whenever
    the append returns or fails with an exception deriving from
    [Exception]; the one other outcome is that the [__repr__] of an
    argument raised something else while the line was rendered, which the
    decorated method then raises.  A call whose append returned has added
    the text of its entry to the action log, and that text is exactly one
    line when the agent identifier, the name of the tool and the text of
    the arguments hold no line break; whatever the append did, the log has
    gained a part of that text from its start, possibly none of it. *)
Theorem tool_refines_method (func : pyfunc method) args kwargs s :
  (forall e s1, fn_code func args kwargs s = (Raise e, s1) ->
     fn_code (tool func) args kwargs s = (Raise e, s1))
  /\ forall r s1, fn_code func args kwargs s = (Return r, s1) ->
     exists ra s2,
       append_action func args kwargs s1 = (ra, s2)
       /\ snd (fn_code (tool func) args kwargs s) = s2
       /\ (is_error ra -> fst (fn_code (tool func) args kwargs s) = Return r)
       /\ (forall e, ra = Raise e -> exc_is_Exception e = false ->
           fst (fn_code (tool func) args kwargs s) = Raise e
           /\ Some e ∈ w_reprs (snd s1) /\ instances (VList args) <> O)
       /\ (ra = Return tt ->
           log_text (snd s2) = log_text (snd s1) +:+ line_of func args kwargs s1
           /\ (one_line (agent_id (fst s1)) = true -> one_line (fn_name func) = true ->
               one_line (Text.take 120 (str_tuple args)) = true ->
               appends_one_line (snd s1) (snd s2)))
       /\ exists n,
           log_text (snd s2)
           = log_text (snd s1) +:+ Text.take n (line_of func args kwargs s1).
Proof.
  split; [intros e s1; apply tool_raises|].
  intros r s1 Hf.
  destruct (append_action func args kwargs s1) as [ra s2] eqn:Ha.
  exists ra, s2. split; [reflexivity|].
  assert (Hrun := tool_run func args kwargs s). rewrite Hf, Ha in Hrun.
  split; [rewrite Hrun; destruct ra as [[]|e]; [|destruct (exc_is_Exception e)]; reflexivity|].
  split.
  { intros He. rewrite Hrun. destruct ra as [[]|e]; [reflexivity|].
    cbn in He. rewrite He. reflexivity. }
  split.
  { intros e -> He.
    destruct (tool_swallows_failure_outside func args kwargs s r s1 e s2 Hf Ha He) as [Ht Hin].
    rewrite Ht. split; [reflexivity|exact Hin]. }
  apply append_action_spec in Ha as (_ & _ & _ & _ & Hn & Hl).
  split; [|exact Hn].
  intros ->. split; [exact (Hl tt eq_refl)|].
  intros Hid Hname Hargs.
  destruct (action_line_text (w_clock (snd s1) O) (agent_id (fst s1)) (fn_name func) args
              (kwargs_json kwargs) Hid Hname Hargs (kwargs_json_one_line kwargs))
    as (text & Htext & Hone).
  exists text. split; [exact Hone|].
  rewrite (Hl tt eq_refl). unfold line_of. rewrite Htext. reflexivity.
Qed.

Lemma tool_refines_method_witness :
  fst (fn_code scrape [url] [] (scraper, world1)) = Return content
  /\ appends_one_line (scraped world1) (snd (snd (fn_code scrape [url] [] (scraper, world1)))).
Proof.
  destruct (tool_refines_method scrape_def [url] [] (scraper, world1)) as [_ Hl].
  destruct (Hl content (scraper, scraped world1) eq_refl)
    as (ra & s2 & Ha & Hs2 & Hret & _ & Hone & _).
  change (fn_code scrape) with (fn_code (tool scrape_def)).
  assert (Hra : ra = Return tt).
  { assert (Hr : fst (append_action scrape_def [url] [] (scraper, scraped world1)) = Return tt)
      by (vm_compute; reflexivity).
    rewrite Ha in Hr. exact Hr. }
  split; [apply Hret; rewrite Hra; exact I|].
  rewrite Hs2. exact (proj2 (Hone Hra) eq_refl eq_refl eq_refl).
Defined.

(** C2 as stated fails.  On a read-only file system the decorated
    [scrape] returns its result and the action log gains no line; the
    decorated [update_dependencies], given a project that holds an
    instance whose [__repr__] returns a text of two lines, returns its
    result and leaves an entry that reads back as two lines; and given a
    project that holds an instance whose [__repr__] raises [SystemExit],
    it raises where the method itself returns. *)
Lemma successful_call_not_one_line :
  (fn_code scrape [url] [] (scraper, read_only world1)
   = (Return content, (scraper, one_call_later (scraped (read_only world1))))
   /\ ~ appends_one_line (read_only world1) (one_call_later (scraped (read_only world1))))
  /\ (let project := VDict [("name", VStr "repo"); ("owner", VObject "Owner" "<Owner>")] in
      let w := set_reprs [Some (MkExn "SystemExit" false "1")] world1 in
      fst (fn_code Updater.update_dependencies [project] [] (Updater.updater, w))
      <> fst (fn_code Updater.update_dependencies_def [project] [] (Updater.updater, w)))
  /\ let project := VDict [("name", VStr "repo");
                           ("notes", VObject "Notes" ("<Notes" +:+ Text.newline +:+ "v2>"))] in
     let run := fn_code Updater.update_dependencies [project] [] (Updater.updater, world1) in
     fst run = Return (VDict [("status", VStr "updated"); ("project", VStr "repo")])
     /\ length (readlines (log_text (snd (snd run)))) = 2%nat
     /\ ~ appends_one_line world1 (snd (snd run)).
Proof.
  split.
  - split; [reflexivity|].
    intros (line & _ & Hl).
    change (EmptyString = EmptyString +:+ line +:+ Text.newline) in Hl.
    destruct line; discriminate Hl.
  - split; [intros project w H; vm_compute in H; discriminate H|].
    intros project run.
    assert (Hlen : length (readlines (log_text (snd (snd run)))) = 2%nat)
      by (vm_compute; reflexivity).
    split; [vm_compute; reflexivity|]. split; [exact Hlen|].
    intros (line & Hone & Hl). rewrite Hl in Hlen.
    change (log_text world1) with EmptyString in Hlen.
    change (EmptyString +:+ line +:+ Text.newline) with (line +:+ Text.newline) in Hlen.
    rewrite (readlines_one_line _ Hone) in Hlen. discriminate Hlen.
Qed.


(** ** A log that is not there *)

Lemma exists_absent path w :
  fs_files (w_fs w) !! path = None -> path ∉ fs_dirs (w_fs w) ->
  exists w', exists_ path w = (Return false, w')
    /\ fs_files (w_fs w') = fs_files (w_fs w) /\ fs_dirs (w_fs w') = fs_dirs (w_fs w)
    /\ w_records w' = w_records w /\ w_heap w' = w_heap w.
Proof.
  intros Hf Hd.
  assert (Hno : bool_decide (is_Some (fs_files (w_fs w) !! path))
                || bool_decide (path ∈ fs_dirs (w_fs w)) = false).
  { rewrite Hf, bool_decide_eq_false_2, bool_decide_eq_false_2;
      first [reflexivity | exact Hd | intros [? H]; discriminate H]. }
  unfold exists_, syscall.
  destruct (fs_faults (w_fs w)) as [|[e|] rest]; eexists;
    (split; [cbn [w_fs set_fs fs_files fs_dirs]; rewrite ?Hno; reflexivity|]);
    repeat split.
Qed.

(** X20.  A lookup that fails passes for a log that is not there: when
    the file system fails the call that looks for the file, as it does
    when a directory on the way may not be searched,
    [summarize_action_logs] returns zero actions and empty counts without
    raising, whatever the log holds. *)
Theorem failed_lookup_gives_empty_summary path a w e rest :
  fs_faults (w_fs w) = Some e :: rest ->
  fst (summarize_action_logs path (a, w))
  = Return (VDict [("total", VInt 0); ("by_agent", VDict []); ("by_tool", VDict [])]).
Proof.
  intros Hfault. unfold summarize_action_logs.
  rewrite (bind_ok get_self _ (a, w) a (a, w) eq_refl).
  set (w1 := set_records (w_records w ++ [MkLogRecord (logger a) INFO
                                            ("Summarizing action logs from " +:+ path)]) w).
  rewrite (bind_ok _ _ (a, w) tt (a, w1) eq_refl).
  assert (Hrun : exists w2, exists_ path w1 = (Return false, w2)).
  { unfold exists_, syscall. change (fs_faults (w_fs w1)) with (fs_faults (w_fs w)).
    rewrite Hfault. eauto. }
  destruct Hrun as [w2 Hrun].
  rewrite (bind_ok _ _ _ _ _ (lift_run _ a _ _ _ Hrun)). reflexivity.
Qed.

(** ** What the counters always satisfy *)

Lemma count_line_sound acc line :
  let ok (c : counts) :=
    tally (by_agent c) = tally (by_tool c)
    /\ 0 <= tally (by_agent c) <= total c
    /\ NoDup (map fst (by_agent c)) /\ NoDup (map fst (by_tool c))
    /\ Forall (fun kn => 1 <= snd kn) (by_agent c)
    /\ Forall (fun kn => 1 <= snd kn) (by_tool c) in
  ok acc -> ok (count_line acc line).
Proof.
  intros ok (H1 & H2 & H3 & H4 & H5 & H6). unfold count_line.
  destruct (_ || _); [repeat split; auto; lia|].
  destruct (parse_entry (strip line)) as [[agent tool]|]; unfold ok; cbn [total by_agent by_tool].
  - rewrite !tally_bump.
    repeat split; auto using bump_positive; try lia; apply bump_keys; assumption.
  - repeat split; auto; lia.
Qed.

Lemma count_lines_sound lines :
  let c := count_lines lines in
  tally (by_agent c) = tally (by_tool c)
  /\ 0 <= tally (by_agent c) <= total c
  /\ NoDup (map fst (by_agent c)) /\ NoDup (map fst (by_tool c))
  /\ Forall (fun kn => 1 <= snd kn) (by_agent c)
  /\ Forall (fun kn => 1 <= snd kn) (by_tool c).
Proof.
  unfold count_lines.
  assert (H0 : let c := MkCounts 0 [] [] in
               tally (by_agent c) = tally (by_tool c)
               /\ 0 <= tally (by_agent c) <= total c
               /\ NoDup (map fst (by_agent c)) /\ NoDup (map fst (by_tool c))
               /\ Forall (fun kn => 1 <= snd kn) (by_agent c)
               /\ Forall (fun kn => 1 <= snd kn) (by_tool c)).
  { cbn. repeat split; try constructor; lia. }
  revert H0. generalize (MkCounts 0 [] []).
  induction lines as [|line lines IH]; intros acc Hacc; [exact Hacc|].
  cbn [foldl]. apply IH. apply count_line_sound. exact Hacc.
Qed.

Lemma summarize_action_logs_returns path s v s' :
  summarize_action_logs path s = (Return v, s') -> exists lines, v = summary (count_lines lines).
Proof.
  unfold summarize_action_logs. intros H.
  apply bind_run in H as [(a & s1 & _ & H)|(e & _ & [=])].
  apply bind_run in H as [(u & s2 & _ & H)|(e & _ & [=])].
  apply bind_run in H as [(found & s3 & _ & H)|(e & _ & [=])].
  destruct (negb found).
  - invert H. exists []. reflexivity.
  - apply bind_run in H as [(c & s4 & Hopen & H)|(e & _ & [=])].
    invert H. unfold lift in Hopen.
    match type of Hopen with context [with_open_read ?p ?b ?w] =>
      destruct (with_open_read p b w) as [rc wc] eqn:Hwith end.
    invert Hopen. unfold with_open_read in Hwith.
    apply bind_run in Hwith as [(f & w1 & _ & Hwith)|(e & _ & [=])].
    match type of Hwith with context [(read ?f ≫= ?k) ?w] =>
      destruct ((read f ≫= k) w) as [rb wb] eqn:Hbody end.
    destruct (close f wb) as [[u'|e] wd]; [|discriminate Hwith].
    invert Hwith.
    apply bind_run in Hbody as [(text & w2 & _ & Hbody)|(e & _ & [=])].
    invert Hbody. eexists. reflexivity.
Qed.

(** X4.  Whatever the log holds, the summary is consistent: the counts
    per agent and the counts per tool add up to the same number, which is
    at most the total (the difference being the entries that do not have
    the shape [... | agent.tool: ...]); no agent and no tool is listed
    twice, and none with a count below one. *)
Theorem summary_counts_add_up path s v s' :
  summarize_action_logs path s = (Return v, s') ->
  exists c,
    v = summary c
    /\ tally (by_agent c) = tally (by_tool c)
    /\ 0 <= tally (by_agent c) <= total c
    /\ NoDup (map fst (by_agent c)) /\ NoDup (map fst (by_tool c))
    /\ Forall (fun kn => 1 <= snd kn) (by_agent c)
    /\ Forall (fun kn => 1 <= snd kn) (by_tool c).
Proof.
  intros [lines ->]%summarize_action_logs_returns.
  exists (count_lines lines). split; [reflexivity|]. apply count_lines_sound.
Qed.

(** ** What logging an action touches *)

Lemma quiet_trans w1 w2 w3 : quiet w1 w2 -> quiet w2 w3 -> quiet w1 w3.
Proof.
  intros (H1 & H2 & H3 & H4) (K1 & K2 & K3 & K4).
  repeat split; congruence.
Qed.

Lemma syscall_quiet p w r w' : syscall p w = (r, w') -> quiet w w'.
Proof.
  unfold syscall. destruct (fs_faults (w_fs w)) as [|[e|] rest]; intros H;
    invert H; repeat split.
Qed.

Lemma makedirs_quiet p w r w' : makedirs p w = (r, w') -> quiet w w'.
Proof.
  unfold makedirs. intros H.
  step H; apply syscall_quiet in Hrun; [|exact Hrun]. rename Hrun into Q1.
  step H; step Hrun.
  destruct (mkdirs _ _ _) as [[e name]|dirs]; step H; [exact Q1|].
  eapply quiet_trans; [exact Q1|]. repeat split.
Qed.

Lemma open_append_quiet p w r w' : open_append p w = (r, w') -> quiet w w'.
Proof.
  unfold open_append. intros H.
  step H; apply syscall_quiet in Hrun; [|exact Hrun]. rename Hrun into Q1.
  step H; step Hrun.
  repeat case_decide.
  - step H. exact Q1.
  - step H; step Hrun. step H. eapply quiet_trans; [exact Q1|]. repeat split.
  - step H. exact Q1.
Qed.

Lemma write_quiet lf t w r w' : write lf t w = (r, w') -> quiet w w'.
Proof.
  unfold write. intros H.
  destruct (syscall lf w) as [[u|e] w1] eqn:Hs; apply syscall_quiet in Hs; invert H;
    (eapply quiet_trans; [exact Hs|]); repeat split.
Qed.

Lemma rendering_quiet args w r w' : rendering args w = (r, w') -> quiet w w'.
Proof.
  unfold rendering. intros H. apply call_reprs_spec in H as ([rest ->] & _). repeat split.
Qed.

Lemma append_line_quiet id name args kwargs w r w' :
  append_line id name args kwargs w = (r, w') -> quiet w w'.
Proof.
  unfold append_line. intros H.
  apply bind_run in H as [(w0 & w0' & H0 & H)|(e & H0 & ->)]; [|invert H0].
  invert H0.
  apply bind_run in H as [(u1 & w1 & H1 & H)|(e & H1 & ->)];
    apply makedirs_quiet in H1; [|exact H1].
  unfold with_open_append in H.
  apply bind_run in H as [(lf & w2 & H2 & H)|(e & H2 & ->)];
    apply open_append_quiet in H2; [|eapply quiet_trans; eassumption].
  match type of H with context [?m w2] => destruct (m w2) as [rb wb] eqn:Hb end.
  destruct (close lf wb) as [rc wc] eqn:Hc.
  apply syscall_quiet in Hc.
  assert (Hw : w' = wc) by (destruct rc; invert H; reflexivity).
  subst w'. clear H.
  assert (Hbody : quiet w2 wb).
  { apply bind_run in Hb as [(now & w3 & H3 & Hb)|(e & H3 & ->)]; [|invert H3].
    invert H3.
    assert (Q3 : quiet w2 (set_clock (fun n => w_clock w2 (S n)) w2)) by (repeat split).
    apply bind_run in Hb as [([] & w4 & H4 & Hb)|(e & H4 & ->)];
      apply rendering_quiet in H4; [|eapply quiet_trans; eassumption].
    unfold json_dumps_or_raise in Hb. rewrite json_dumps_kwargs_types in Hb.
    apply bind_run in Hb as [(kw & w5 & H5 & Hb)|(e & H5 & ->)]; [|invert H5].
    invert H5. apply write_quiet in Hb.
    eauto using quiet_trans. }
  eauto using quiet_trans.
Qed.

(** The files an append leaves alone *)
Lemma only_writes_trans path w1 w2 w3 :
  only_writes path w1 w2 -> only_writes path w2 w3 -> only_writes path w1 w3.
Proof. intros H1 H2 p Hp. rewrite (H2 p Hp). exact (H1 p Hp). Qed.

Lemma syscall_files p w r w' :
  syscall p w = (r, w') -> fs_files (w_fs w') = fs_files (w_fs w).
Proof.
  unfold syscall. destruct (fs_faults (w_fs w)) as [|[e|] rest]; intros H;
    invert H; reflexivity.
Qed.

Lemma makedirs_files p w r w' :
  makedirs p w = (r, w') -> fs_files (w_fs w') = fs_files (w_fs w).
Proof.
  unfold makedirs. intros H.
  step H; apply syscall_files in Hrun; [|exact Hrun]. rename Hrun into F1.
  step H; step Hrun.
  destruct (mkdirs _ _ _) as [[e name]|dirs]; step H; exact F1.
Qed.

Lemma open_append_files p w r w' : open_append p w = (r, w') -> only_writes p w w'.
Proof.
  unfold open_append. intros H q Hq.
  step H; apply syscall_files in Hrun; [|rewrite Hrun; reflexivity]. rename Hrun into F1.
  step H; step Hrun.
  repeat case_decide.
  - step H. rewrite F1. reflexivity.
  - step H; step Hrun. step H. cbn [w_fs set_fs fs_files].
    rewrite lookup_insert_ne by congruence. rewrite F1. reflexivity.
  - step H. rewrite F1. reflexivity.
Qed.

Lemma write_files lf t w r w' : write lf t w = (r, w') -> only_writes lf w w'.
Proof.
  unfold write. intros H q Hq.
  destruct (syscall lf w) as [[u|e] w1] eqn:Hs; apply syscall_files in Hs; invert H;
    cbn [w_fs set_fs extend fs_files]; rewrite lookup_insert_ne by congruence;
    rewrite Hs; reflexivity.
Qed.

Lemma append_line_files id name args kwargs w r w' :
  append_line id name args kwargs w = (r, w') ->
  only_writes (action_log_path (w_file w)) w w'.
Proof.
  unfold append_line. intros H.
  apply bind_run in H as [(w0 & w0' & H0 & H)|(e & H0 & ->)]; [|invert H0].
  invert H0. set (path := action_log_path (w_file w0')) in *.
  assert (Hsame : forall w1 w2, fs_files (w_fs w2) = fs_files (w_fs w1) ->
                                only_writes path w1 w2).
  { intros w1 w2 Heq q _. rewrite Heq. reflexivity. }
  apply bind_run in H as [(u1 & w1 & H1 & H)|(e & H1 & ->)];
    apply makedirs_files, Hsame in H1; [|exact H1].
  unfold with_open_append in H.
  apply bind_run in H as [(lf & w2 & H2 & H)|(e & H2 & ->)].
  2:{ apply open_append_files in H2. eauto using only_writes_trans. }
  assert (Hlf : lf = path).
  { apply open_append_spec in H2 as (_ & _ & L2). exact (L2 _ eq_refl). }
  subst lf. apply open_append_files in H2.
  match type of H with context [?m w2] => destruct (m w2) as [rb wb] eqn:Hb end.
  destruct (close path wb) as [rc wc] eqn:Hc.
  apply syscall_files, Hsame in Hc.
  assert (Hw : w' = wc) by (destruct rc; invert H; reflexivity).
  subst w'. clear H.
  assert (Hbody : only_writes path w2 wb).
  { apply bind_run in Hb as [(now & w3 & H3 & Hb)|(e & H3 & ->)]; [|invert H3].
    invert H3.
    apply bind_run in Hb as [([] & w4 & H4 & Hb)|(e & H4 & ->)];
      apply call_reprs_spec in H4 as ([rest ->] & _); [|intros q _; reflexivity].
    unfold json_dumps_or_raise in Hb. rewrite json_dumps_kwargs_types in Hb.
    apply bind_run in Hb as [(kw & w5 & H5 & Hb)|(e & H5 & ->)]; [|invert H5].
    invert H5. apply write_files in Hb. exact Hb. }
  eauto using only_writes_trans.
Qed.

(** What an append leaves of the state, whatever its outcome *)
Lemma append_action_frame {R} (func : pyfunc (method_of R)) args kwargs s r s' :
  append_action func args kwargs s = (r, s') ->
  fst s' = fst s /\ quiet (snd s) (snd s')
  /\ only_writes (action_log_path (w_file (snd s))) (snd s) (snd s').
Proof.
  unfold append_action. intros H.
  apply bind_run in H as [(self & s1 & H1 & H)|(e & H1 & ->)]; [|invert H1].
  invert H1. unfold lift in H.
  destruct (append_line _ _ _ _ (snd s1)) as [r0 w0] eqn:Hw. invert H.
  cbn [fst snd]. split; [reflexivity|].
  split; [exact (append_line_quiet _ _ _ _ _ _ _ Hw)|exact (append_line_files _ _ _ _ _ _ _ Hw)].
Qed.

(** The state a decorated call ends in, when the method has returned *)
Lemma tool_state {R} (func : pyfunc (method_of R)) args kwargs s r s1 :
  fn_code func args kwargs s = (Return r, s1) ->
  snd (fn_code (tool func) args kwargs s) = snd (append_action func args kwargs s1).
Proof.
  intros Hf. rewrite tool_run, Hf.
  destruct (append_action func args kwargs s1) as [[u|e] s2]; [reflexivity|].
  destruct (exc_is_Exception e); reflexivity.
Qed.




(** X6.  Logging an action is silent.  Once the method has returned,
    whatever happens while the line is appended and whatever the
    decorated call ends with, be it the result or what the [__repr__] of
    an argument raised, the agent, the heap of states, the environment
    and the records handed to the loggers are as the method itself left
    them, and so is every file but the action log.  In particular the
    message [Failed to append action] of the outer handler is never
    logged: what the inner handler does not catch, the outer one does not
    catch either. *)
Theorem logging_an_action_is_silent {R} (func : pyfunc (method_of R)) args kwargs s r s1 :
  fn_code func args kwargs s = (Return r, s1) ->
  exists ro s2,
    fn_code (tool func) args kwargs s = (ro, s2)
    /\ fst s2 = fst s1
    /\ w_records (snd s2) = w_records (snd s1)
    /\ w_heap (snd s2) = w_heap (snd s1)
    /\ w_environ (snd s2) = w_environ (snd s1)
    /\ (forall p, p <> action_log_path (w_file (snd s1)) ->
        fs_files (w_fs (snd s2)) !! p = fs_files (w_fs (snd s1)) !! p).
Proof.
  intros Hf.
  destruct (fn_code (tool func) args kwargs s) as [ro s2] eqn:Ht.
  exists ro, s2. split; [reflexivity|].
  assert (Hs2 : s2 = snd (append_action func args kwargs s1)).
  { rewrite <- (tool_state _ _ _ _ _ _ Hf), Ht. reflexivity. }
  destruct (append_action func args kwargs s1) as [ra sa] eqn:Ha. cbn [snd] in Hs2. subst sa.
  apply append_action_frame in Ha as (Hself & (H1 & H2 & H3 & _) & Hfiles).
  repeat split; assumption.
Qed.

(** X3.  Summarising a log that does not exist is no error, and is itself
    an action that gets logged.  When the path names neither a file nor a
    directory, the decorated [summarize_action_logs] returns zero actions
    and empty counts, whatever the file system does to the call that looks
    for the file and to the append that follows; one record is handed to
    the logger, and no file but the action log is created or changed.
    Where the file system serves the append and nothing stands in its
    way, the action log then holds its former text followed by the line
    of this call: asked about an action log that does not exist, the call
    creates it. *)
Theorem summary_of_missing_log path a w :
  fs_files (w_fs w) !! path = None -> path ∉ fs_dirs (w_fs w) ->
  exists w',
    fn_code decorated_summarize_action_logs [VStr path] [] (a, w)
    = (Return (VDict [("total", VInt 0); ("by_agent", VDict []); ("by_tool", VDict [])]),
       (a, w'))
    /\ w_records w'
       = w_records w ++ [MkLogRecord (logger a) INFO ("Summarizing action logs from " +:+ path)]
    /\ (forall p, p <> action_log_path (w_file w) ->
        fs_files (w_fs w') !! p = fs_files (w_fs w) !! p)
    /\ (tail (fs_faults (w_fs w)) = [] -> reprs_return w -> log_path_free w ->
        fs_files (w_fs w') !! action_log_path (w_file w)
        = Some (log_text w
                +:+ action_line (w_clock w O) (agent_id a) "summarize_action_logs"
                                [VStr path] "{}")).
Proof.
  intros Hf Hd.
  assert (Hbody : exists w1,
             fn_code summarize_action_logs_def [VStr path] [] (a, w)
             = (Return (VDict [("total", VInt 0); ("by_agent", VDict []); ("by_tool", VDict [])]),
                (a, w1))
             /\ fs_files (w_fs w1) = fs_files (w_fs w) /\ fs_dirs (w_fs w1) = fs_dirs (w_fs w)
             /\ w_records w1
                = w_records w ++ [MkLogRecord (logger a) INFO
                                              ("Summarizing action logs from " +:+ path)]
             /\ w_file w1 = w_file w /\ w_clock w1 = w_clock w /\ w_reprs w1 = w_reprs w
             /\ fs_faults (w_fs w1) = tail (fs_faults (w_fs w))).
  { cbn [fn_code summarize_action_logs_def summarize_action_logs_code bind_actions_file].
    unfold summarize_action_logs.
    rewrite (bind_ok get_self _ (a, w) a (a, w) eq_refl).
    set (w0 := set_records (w_records w ++ [MkLogRecord (logger a) INFO
                                              ("Summarizing action logs from " +:+ path)]) w).
    rewrite (bind_ok _ _ (a, w) tt (a, w0) eq_refl).
    assert (Hno : bool_decide (is_Some (fs_files (w_fs w0) !! path))
                  || bool_decide (path ∈ fs_dirs (w_fs w0)) = false).
    { cbn [w0 w_fs set_records]. rewrite Hf, bool_decide_eq_false_2, bool_decide_eq_false_2;
        first [reflexivity | exact Hd | intros [? H]; discriminate H]. }
    assert (Hex : exists w1, exists_ path w0 = (Return false, w1)
                  /\ fs_files (w_fs w1) = fs_files (w_fs w) /\ fs_dirs (w_fs w1) = fs_dirs (w_fs w)
                  /\ w_records w1 = w_records w0
                  /\ w_file w1 = w_file w /\ w_clock w1 = w_clock w /\ w_reprs w1 = w_reprs w
                  /\ fs_faults (w_fs w1) = tail (fs_faults (w_fs w))).
    { unfold exists_, syscall. change (fs_faults (w_fs w0)) with (fs_faults (w_fs w)).
      destruct (fs_faults (w_fs w)) as [|[e|] rest] eqn:Hfaults; eexists;
        (split; [cbn [w_fs set_fs fs_files fs_dirs]; rewrite ?Hno; reflexivity|]);
        unfold w0;
        cbn [w_fs set_fs set_records fs_files fs_dirs fs_faults w_records w_file w_clock
             w_reprs tail];
        rewrite ?Hfaults; repeat split. }
    destruct Hex as (w1 & Hrun & Hrest).
    rewrite (bind_ok _ _ _ _ _ (lift_run _ a _ _ _ Hrun)).
    exists w1. split; [reflexivity|exact Hrest]. }
  destruct Hbody as (w1 & Hrun & Hfiles1 & Hdirs1 & Hrec1 & Hfile1 & Hclock1 & Hreprs1 & Hfaults1).
  destruct (append_action summarize_action_logs_def [VStr path] [] (a, w1)) as [ra s2] eqn:Ha.
  assert (Herr : is_error ra).
  { pose proof (append_action_error summarize_action_logs_def [VStr path] [] (a, w1)
                  (or_introl eq_refl)) as He.
    rewrite Ha in He. exact He. }
  pose proof (append_action_frame _ _ _ _ _ _ Ha) as (Hself & (_ & Hrec & _) & Honly).
  destruct s2 as [a2 w2]. cbn [fst snd] in *. subst a2.
  exists w2. split.
  { unfold decorated_summarize_action_logs. rewrite tool_run, Hrun, Ha.
    destruct ra as [u|e]; [reflexivity|]. cbn in Herr. rewrite Herr. reflexivity. }
  split; [rewrite Hrec; exact Hrec1|].
  split.
  { intros p Hp. rewrite Hfile1 in Honly. rewrite (Honly p Hp), Hfiles1. reflexivity. }
  intros Hserved Hr Hfree.
  assert (Hs1 : serving w1) by (unfold serving; rewrite Hfaults1; exact Hserved).
  assert (Hr1 : reprs_return w1) by (unfold reprs_return; rewrite Hreprs1; exact Hr).
  assert (Hfree1 : log_path_free w1).
  { unfold log_path_free. rewrite Hfile1, Hfiles1, Hdirs1. exact Hfree. }
  destruct (append_action_ok summarize_action_logs_def [VStr path] [] (a, w1) Hs1 Hr1 Hfree1)
    as (w' & Hrun' & Hfiles' & _).
  rewrite Ha in Hrun'. injection Hrun' as _ <-.
  rewrite Hfiles'. cbn [snd fst]. rewrite Hfile1, lookup_insert_eq.
  unfold line_of, log_text. cbn [fst snd fn_name summarize_action_logs_def].
  rewrite Hfile1, Hfiles1, Hclock1. reflexivity.
Qed.

(** ** Where the action log lives *)

Lemma string_of_list_of_string s : string_of_list_ascii (list_ascii_of_string s) = s.
Proof. induction s as [|c s IH]; [reflexivity|]. cbn. f_equal. exact IH. Qed.

Lemma no_sep_forallb f :
  Text.contains "/" f = false ->
  forallb (fun c => negb (is_sep c)) (rev (list_ascii_of_string f)) = true.
Proof.
  intros H. apply forallb_forall. intros c Hc%in_rev.
  induction f as [|x f IH]; [destruct Hc|].
  cbn [Text.contains] in H. cbn [list_ascii_of_string] in Hc.
  destruct (Ascii.eqb x "/") eqn:E; [discriminate|].
  destruct Hc as [<-|Hc]; [unfold is_sep; rewrite E; reflexivity|exact (IH H Hc)].
Qed.

Lemma open_dir_last p :
  open_dir p = true ->
  exists c rest, rev (list_ascii_of_string p) = c :: rest /\ is_sep c = false.
Proof.
  unfold open_dir, endswith_sep. rewrite andb_true_iff, !negb_true_iff.
  intros [Hne Hend]. destruct (rev (list_ascii_of_string p)) as [|c rest] eqn:E.
  - apply (f_equal (@rev ascii)) in E. rewrite rev_involutive in E. cbn in E.
    destruct p; [discriminate Hne|discriminate E].
  - eauto.
Qed.

Lemma dirname_cut (la lf : list ascii) c rest :
  rev la = c :: rest -> is_sep c = false ->
  forallb (fun x => negb (is_sep x)) (rev lf) = true ->
  let head := rev (drop_while (fun x => negb (is_sep x)) (rev (la ++ "/"%char :: lf))) in
  (if forallb is_sep head then head else rev (drop_while is_sep (rev head))) = la.
Proof.
  intros Hrev Hc Hf.
  assert (Hla : la = rev rest ++ [c]).
  { rewrite <- (rev_involutive la), Hrev. reflexivity. }
  assert (Hcut : drop_while (fun x => negb (is_sep x)) (rev (la ++ "/"%char :: lf))
                 = "/"%char :: rev la).
  { rewrite rev_app_distr. cbn [rev]. rewrite <- app_assoc.
    rewrite (drop_while_prefix _ _ _ Hf). reflexivity. }
  cbv zeta. rewrite Hcut. cbn [rev]. rewrite rev_involutive.
  assert (Hall : forallb is_sep (la ++ ["/"%char]) = false).
  { rewrite Hla, !forallb_app. cbn [forallb]. rewrite Hc, andb_false_r. reflexivity. }
  rewrite Hall, rev_app_distr. cbn [rev app drop_while].
  change (is_sep "/") with true. cbv iota.
  rewrite Hrev. cbn [drop_while]. rewrite Hc, <- Hrev. apply rev_involutive.
Qed.

Lemma dirname_child a f :
  open_dir a = true -> Text.contains "/" f = false ->
  dirname (a +:+ "/" +:+ f) = a.
Proof.
  intros Ha Hf. destruct (open_dir_last a Ha) as (c & rest & Hrev & Hc).
  unfold dirname. rewrite !list_ascii_app.
  change (list_ascii_of_string "/" ++ list_ascii_of_string f)
    with ("/"%char :: list_ascii_of_string f).
  pose proof (dirname_cut _ _ c rest Hrev Hc (no_sep_forallb f Hf)) as H.
  cbv zeta in H.
  destruct (forallb is_sep _); rewrite H; apply string_of_list_of_string.
Qed.

Lemma open_dir_child a d : path_component d = true -> open_dir (a +:+ "/" +:+ d) = true.
Proof.
  unfold path_component, open_dir, endswith_sep.
  rewrite andb_true_iff, !negb_true_iff. intros [Hne Hd].
  rewrite !list_ascii_app, !rev_app_distr.
  apply no_sep_forallb in Hd.
  destruct (rev (list_ascii_of_string d)) as [|c rest] eqn:E.
  - apply (f_equal (@rev ascii)) in E. rewrite rev_involutive in E. cbn in E.
    destruct d; [discriminate Hne|discriminate E].
  - cbn [forallb] in Hd. apply andb_true_iff in Hd as [Hc _].
    cbn [app]. rewrite Hc. rewrite andb_true_r.
    destruct a; reflexivity.
Qed.

Lemma join_open_dir a b rest :
  open_dir a = true -> Text.startswith "/" b = false ->
  join a (b :: rest) = join (a +:+ "/" +:+ b) rest.
Proof.
  unfold open_dir. rewrite andb_true_iff, !negb_true_iff. intros [Hne Hend] Hb.
  cbn [join]. rewrite Hb, Hne, Hend. reflexivity.
Qed.

(** X7.  The action log is [agents/AGENT_ACTIONS.md] under the directory
    two levels above the one that holds the module: when the module is
    the file [root/d1/d2/f], the log is [root/agents/AGENT_ACTIONS.md],
    whatever the two directories are called. *)
Theorem action_log_beside_package root d1 d2 f :
  open_dir root = true -> path_component d1 = true -> path_component d2 = true ->
  Text.contains "/" f = false ->
  action_log_path (root +:+ "/" +:+ d1 +:+ "/" +:+ d2 +:+ "/" +:+ f)
  = root +:+ "/agents/AGENT_ACTIONS.md".
Proof.
  intros Hroot Hd1 Hd2 Hf. unfold action_log_path.
  replace (root +:+ "/" +:+ d1 +:+ "/" +:+ d2 +:+ "/" +:+ f)
    with (((root +:+ "/" +:+ d1) +:+ "/" +:+ d2) +:+ "/" +:+ f)
    by (rewrite !app_assoc_str; reflexivity).
  rewrite (dirname_child _ f) by (apply open_dir_child; exact Hd2) || exact Hf.
  pose proof Hd1 as Hd1'. pose proof Hd2 as Hd2'.
  unfold path_component in Hd1', Hd2'.
  rewrite andb_true_iff, !negb_true_iff in Hd1', Hd2'.
  rewrite (dirname_child _ d2 (open_dir_child root d1 Hd1) (proj2 Hd2')).
  rewrite (dirname_child _ d1 Hroot (proj2 Hd1')).
  rewrite (join_open_dir root "agents" _ Hroot eq_refl).
  rewrite (join_open_dir _ "AGENT_ACTIONS.md" _ (open_dir_child root "agents" eq_refl) eq_refl).
  cbn [join]. rewrite !app_assoc_str. reflexivity.
Qed.

(** ** Agents and their states *)

(** X8.  Two agents never share a state.  Of two agents built one after
    the other, each refers to a state instance of its own, and updating
    the state of the second leaves alone what [get_state] reports for the
    first: the defaults it was built with. *)
Theorem agents_have_separate_states cls1 id1 rl1 mdl1 cls2 id2 rl2 mdl2 kwargs w :
  exists a1 w1 a2 w2 l a2' w3,
    init cls1 id1 rl1 mdl1 w = (Return a1, w1)
    /\ init cls2 id2 rl2 mdl2 w1 = (Return a2, w2)
    /\ state a1 <> state a2
    /\ update_state kwargs (a2, w2) = (Return l, (a2', w3))
    /\ state a1 <> state a2'
    /\ get_state (a1, w3) = (Return (model_dump AgentState_default), (a1, w3)).
Proof.
  set (l1 := fresh (dom (w_heap w))).
  set (w1 := set_heap (<[l1 := AgentState_default]> (w_heap w)) w).
  set (l2 := fresh (dom (w_heap w1))).
  set (w2 := set_heap (<[l2 := AgentState_default]> (w_heap w1)) w1).
  set (a1 := MkAgent id1 rl1
               (if negb (String.eqb mdl1 EmptyString) then mdl1
                else default "gemini-2.0-flash" (w_environ w !! "AGENT_MODEL")) l1 cls1).
  set (a2 := MkAgent id2 rl2
               (if negb (String.eqb mdl2 EmptyString) then mdl2
                else default "gemini-2.0-flash" (w_environ w1 !! "AGENT_MODEL")) l2 cls2).
  assert (H12 : l1 <> l2).
  { intros Heq. pose proof (fresh_not_allocated (w_heap w1)) as Hn. fold l2 in Hn.
    rewrite <- Heq in Hn. cbn in Hn. rewrite lookup_insert_eq in Hn. discriminate Hn. }
  assert (Hst2 : w_heap w2 !! state a2 = Some AgentState_default) by apply lookup_insert_eq.
  assert (Hst1 : w_heap w2 !! l1 = Some AgentState_default).
  { cbn. rewrite lookup_insert_ne by congruence. apply lookup_insert_eq. }
  exists a1, w1, a2, w2. do 3 eexists.
  split; [apply init_run|]. split; [apply init_run|].
  split; [exact H12|].
  split; [exact (update_state_run kwargs a2 w2 AgentState_default Hst2)|].
  assert (H13 : l1 <> fresh (dom (w_heap w2))).
  { intros Heq. pose proof (fresh_not_allocated (w_heap w2)) as Hn.
    rewrite <- Heq, Hst1 in Hn. discriminate Hn. }
  split; [exact H13|].
  apply get_state_run. cbn [state w_heap set_records set_heap a1].
  rewrite lookup_insert_ne by congruence. exact Hst1.
Qed.

Lemma dict_update_app d kw1 kw2 :
  dict_update (dict_update d kw1) kw2 = dict_update d (kw1 ++ kw2).
Proof. unfold dict_update. rewrite foldl_app. reflexivity. Qed.

(** X9.  Two updates in a row amount to one.  After [update_state] with
    some fields and then with others, the agent is in the state one call
    with all of them leads to, a field given twice taking its later
    value: [get_state] reports the same in both cases. *)
Theorem update_state_twice kw1 kw2 a w prior :
  w_heap w !! state a = Some prior ->
  exists l1 a1 w1 l2 a2 w2 l a' w',
    update_state kw1 (a, w) = (Return l1, (a1, w1))
    /\ update_state kw2 (a1, w1) = (Return l2, (a2, w2))
    /\ update_state (kw1 ++ kw2) (a, w) = (Return l, (a', w'))
    /\ w_heap w2 !! state a2 = Some (model_copy prior (kw1 ++ kw2))
    /\ w_heap w' !! state a' = Some (model_copy prior (kw1 ++ kw2))
    /\ fst (get_state (a2, w2)) = Return (model_dump (model_copy prior (kw1 ++ kw2)))
    /\ fst (get_state (a', w')) = fst (get_state (a2, w2)).
Proof.
  intros Hprior.
  pose proof (update_state_run kw1 a w prior Hprior) as H1. cbv zeta in H1.
  set (l1 := fresh (dom (w_heap w))) in *.
  match type of H1 with _ = (_, (?x, ?y)) => set (a1 := x) in *; set (w1 := y) in * end.
  assert (Hst1 : w_heap w1 !! state a1 = Some (model_copy prior kw1)) by apply lookup_insert_eq.
  pose proof (update_state_run kw2 a1 w1 _ Hst1) as H2. cbv zeta in H2.
  match type of H2 with _ = (_, (?x, ?y)) => set (a2 := x) in *; set (w2 := y) in * end.
  pose proof (update_state_run (kw1 ++ kw2) a w prior Hprior) as H3. cbv zeta in H3.
  match type of H3 with _ = (_, (?x, ?y)) => set (a3 := x) in *; set (w3 := y) in * end.
  assert (Hst2 : w_heap w2 !! state a2 = Some (model_copy prior (kw1 ++ kw2))).
  { unfold model_copy. rewrite <- dict_update_app. apply lookup_insert_eq. }
  assert (Hst3 : w_heap w3 !! state a3 = Some (model_copy prior (kw1 ++ kw2)))
    by apply lookup_insert_eq.
  eexists _, a1, w1, _, a2, w2, _, a3, w3.
  split; [exact H1|]. split; [exact H2|]. split; [exact H3|].
  split; [exact Hst2|]. split; [exact Hst3|].
  rewrite (get_state_run a2 w2 _ Hst2), (get_state_run a3 w3 _ Hst3). split; reflexivity.
Qed.

(** ** The ADK adapter *)

Import AdkAdapter Adk.

(** X10.  An empty list of tools does not mean the same to the two
    adapters.  [as_adk_agent] called with [tools=[]] behaves as when
    [tools] is left out, whatever the import gives and whatever [Agent]
    does: it hands [Agent] every tool method of the agent; whereas
    [ensure_tool_list] keeps the empty list it was given. *)
Theorem empty_tool_list_is_ignored {C A : Type} (import_Agent : pyexn + (agent_request C -> result A))
    (obj : pyobject C) instruction description s :
  as_adk_agent import_Agent obj instruction (Some []) description s
  = as_adk_agent import_Agent obj instruction None description s
  /\ (forall Agent, import_Agent = inr Agent ->
      as_adk_agent import_Agent obj instruction (Some []) description s
      = (Agent (MkRequest (agent_id (fst s)) (model (fst s))
                          (str_or description (role (fst s)))
                          (str_or instruction
                             "You are a helpful agent in a multi-agent system. Use tools when helpful.")
                          (tool_methods obj)), s))
  /\ ensure_tool_list (Some []) obj = []
  /\ ensure_tool_list None obj = tool_methods obj.
Proof.
  split; [reflexivity|]. split; [|split; reflexivity].
  intros Agent ->. unfold as_adk_agent.
  rewrite (bind_ok get_self _ s (fst s) s eq_refl).
  destruct (Agent _); reflexivity.
Qed.

(** ** The logger of an agent *)

Lemma get_logger_unfold name (reg : gmap string Logging.logger_state) :
  Logging.get_logger name reg
  = let configured :=
      Logging.MkLogger
        [Logging.MkHandler "stderr" "%(asctime)s %(levelname)s [%(name)s] %(message)s"] 20 in
    match reg !! name with
    | Some l =>
        match Logging.lg_handlers l with
        | [] => <[name := configured]> reg
        | _ :: _ => reg
        end
    | None => <[name := configured]> (<[name := Logging.MkLogger [] 0]> reg)
    end.
Proof.
  unfold Logging.get_logger, Logging.getLogger.
  destruct (reg !! name) as [[[|h hs] lv]|]; reflexivity.
Qed.

(** X11.  [get_logger] configures a logger once.  After a call the logger
    of that name has a handler; a second call for the same name changes
    nothing, so that the agents of one class, which share the logger named
    after the class, do not pile up handlers; a logger that already has a
    handler is left as it is, level included; and no other logger is
    touched. *)
Theorem get_logger_configures_once name (reg : gmap string Logging.logger_state) :
  (exists l, Logging.get_logger name reg !! name = Some l /\ Logging.lg_handlers l <> [])
  /\ Logging.get_logger name (Logging.get_logger name reg) = Logging.get_logger name reg
  /\ (forall l, reg !! name = Some l -> Logging.lg_handlers l <> [] ->
      Logging.get_logger name reg = reg)
  /\ (forall l, Logging.get_logger name reg !! name = Some l ->
      reg !! name = Some l \/ (length (Logging.lg_handlers l) = 1%nat /\ Logging.lg_level l = 20))
  /\ (forall other, other <> name -> Logging.get_logger name reg !! other = reg !! other).
Proof.
  assert (Hfix : forall r l, r !! name = Some l -> Logging.lg_handlers l <> [] ->
                 Logging.get_logger name r = r).
  { intros r l Hl Hh. rewrite get_logger_unfold. cbv zeta. rewrite Hl.
    destruct (Logging.lg_handlers l); [contradiction|reflexivity]. }
  assert (Hsome : exists l, Logging.get_logger name reg !! name = Some l
                            /\ Logging.lg_handlers l <> []).
  { rewrite get_logger_unfold. cbv zeta.
    destruct (reg !! name) as [l|] eqn:Hl.
    - destruct (Logging.lg_handlers l) as [|h hs] eqn:Hh.
      + eexists. rewrite lookup_insert_eq. split; [reflexivity|discriminate].
      + exists l. rewrite Hh. split; [exact Hl|discriminate].
    - eexists. rewrite lookup_insert_eq. split; [reflexivity|discriminate]. }
  split; [exact Hsome|].
  split; [destruct Hsome as (l & Hl & Hh); exact (Hfix _ l Hl Hh)|].
  split; [exact (Hfix reg)|].
  split.
  - intros l. rewrite get_logger_unfold. cbv zeta.
    destruct (reg !! name) as [l0|] eqn:Hl.
    + destruct (Logging.lg_handlers l0) as [|h hs] eqn:Hh.
      * rewrite lookup_insert_eq. intros [= <-]. right. split; reflexivity.
      * rewrite Hl. intros [= <-]. left. reflexivity.
    + rewrite lookup_insert_eq. intros [= <-]. right. split; reflexivity.
  - intros other Hne. rewrite get_logger_unfold. cbv zeta.
    destruct (reg !! name) as [l0|] eqn:Hl.
    + destruct (Logging.lg_handlers l0); [|reflexivity].
      apply lookup_insert_ne. congruence.
    + rewrite !lookup_insert_ne by congruence. reflexivity.
Qed.

(** ** The marketing agency *)

Import Marketing.

(** X12.  A campaign needs a channel.  [create_campaign] called with a
    specification whose [channels] is the empty list raises [IndexError],
    after it has logged that the campaign goes via 0 channels; as the
    method raised, the decorator appends nothing to the action log. *)
Theorem campaign_without_channel_fails spec s :
  kw_get spec "channels" = Some (VList []) ->
  exists w',
    fn_code create_campaign [VDict spec] [] s
    = (Raise (MkExn "IndexError" true "list index out of range"), (fst s, w'))
    /\ log_text w' = log_text (snd s)
    /\ w_records w'
       = w_records (snd s)
         ++ [MkLogRecord (logger (fst s)) INFO
               ("Campaign for " +:+ str_of (dict_get spec "product" (VStr "product"))
                +:+ " -> " +:+ str_of (dict_get spec "audience" (VStr "audience"))
                +:+ " via 0 channels")].
Proof.
  intros Hch. destruct s as [a w].
  assert (Hc : dict_get spec "channels" (VList [VStr "social"; VStr "email"]) = VList [])
    by (unfold dict_get; rewrite Hch; reflexivity).
  eexists. split; [|split].
  - unfold create_campaign. rewrite tool_run.
    unfold create_campaign_def, create_campaign_code. cbn [fn_code bind_spec].
    cbv zeta. rewrite Hc. reflexivity.
  - reflexivity.
  - reflexivity.
Qed.

(** ** The decision maker *)

Import Scoring.

Lemma ltb_irrefl x : PrimFloat.ltb x x = false.
Proof.
  rewrite FloatAxioms.ltb_spec. unfold SpecFloat.SFltb.
  destruct (FloatOps.Prim2SF x) as [s|s| |s m e]; cbn; try reflexivity.
  - destruct s; reflexivity.
  - destruct s; cbn; rewrite ?Z.compare_refl, ?Pos.compare_refl; cbn;
      rewrite ?Pos.compare_refl; reflexivity.
Qed.

Lemma result_bind_return {A B} (r : result A) (k : A -> result B) b :
  r ≫= k = Return b -> exists a, r = Return a /\ k a = Return b.
Proof. destruct r as [a|e]; [eauto|discriminate]. Qed.

Lemma dict_set_uniform {V} (b : V) k d : uniform b d -> uniform b (dict_set k b d).
Proof.
  induction 1 as [|[k' v'] d Hv Hd IH]; cbn [dict_set].
  - repeat constructor.
  - destruct (String.eqb k' k); constructor; auto.
Qed.

Lemma score_options_run options weights constraints scores b :
  DecisionMaker.base_scores weights constraints = Return b ->
  DecisionMaker.score_options options weights constraints scores
  = Return (foldl (fun d o => dict_set o b d) scores options).
Proof.
  intros Hb. revert scores. induction options as [|o rest IH]; intros scores; [reflexivity|].
  cbn [DecisionMaker.score_options foldl]. rewrite Hb. apply IH.
Qed.

Lemma scores_head {V} (b : V) options o t :
  uniform b t ->
  exists t', foldl (fun d k => dict_set k b d) ((o, b) :: t) options = (o, b) :: t'
             /\ uniform b t'.
Proof.
  revert t. induction options as [|k rest IH]; intros t Ht; [eauto|].
  cbn [foldl dict_set]. destruct (String.eqb o k).
  - apply IH. exact Ht.
  - apply IH. apply dict_set_uniform. exact Ht.
Qed.

Lemma best_of_uniform sum self b terms t best_option best_score :
  uniform b t ->
  DecisionMaker.weighted_terms b (DecisionMaker.criteria_weights self) = Return terms ->
  PrimFloat.ltb best_score (sum terms) = false ->
  DecisionMaker.best_of sum self t best_option best_score = Return best_option.
Proof.
  intros Ht Hterms Hlt. induction Ht as [|[k v] t Hv Ht IH]; [reflexivity|].
  cbn [snd] in Hv. subst v. cbn [DecisionMaker.best_of]. rewrite Hterms.
  cbn [mbind result_bind]. rewrite Hlt. exact IH.
Qed.

(** The option [select_best_option] picks among scores that are the same
    for every option *)
Lemma select_best_uniform sum self b o t d :
  uniform b t ->
  DecisionMaker.select_best_option sum self ((o, b) :: t) = Return d -> d = o.
Proof.
  intros Ht. unfold DecisionMaker.select_best_option. cbn [DecisionMaker.best_of].
  destruct (DecisionMaker.weighted_terms b _) as [terms|e] eqn:Hterms; [|discriminate].
  cbn [mbind result_bind].
  destruct (PrimFloat.ltb PrimFloat.neg_infinity (sum terms)) eqn:Hlt.
  - rewrite (best_of_uniform sum self b terms t _ _ Ht Hterms (ltb_irrefl _)).
    intros [= <-]. reflexivity.
  - rewrite (best_of_uniform sum self b terms t _ _ Ht Hterms Hlt). discriminate.
Qed.

Lemma select_best_first sum self options constraints scores d :
  DecisionMaker.score_options options (DecisionMaker.criteria_weights self) constraints []
  = Return scores ->
  DecisionMaker.select_best_option sum self scores = Return d ->
  exists rest, options = d :: rest.
Proof.
  intros Hscores Hbest. destruct options as [|o rest].
  - cbn in Hscores. injection Hscores as <-. discriminate Hbest.
  - cbn [DecisionMaker.score_options] in Hscores.
    destruct (DecisionMaker.base_scores _ constraints) as [b|e] eqn:Hb; [|discriminate].
    cbn [mbind result_bind] in Hscores.
    rewrite (score_options_run _ _ _ _ b Hb) in Hscores. injection Hscores as <-.
    cbn [dict_set] in Hbest.
    destruct (scores_head b rest o [] (List.Forall_nil _)) as (t' & Ht' & Hu).
    rewrite Ht' in Hbest. apply select_best_uniform in Hbest; [|exact Hu].
    subst d. eauto.
Qed.

(** How a call of [make_decision] that returned went *)
Lemma make_decision_returns sum self context options constraints j v j' :
  DecisionMaker.make_decision sum self context options constraints j = (Return v, j') ->
  exists scores c,
    DecisionMaker.score_options options (DecisionMaker.criteria_weights self) constraints []
    = Return scores
    /\ DecisionMaker.get_decision_complexity context = Return c
    /\ ((DecisionMaker.autonomy_level self < c
         /\ v = Dict [("action", Py (VStr "escalate")); ("context", Py (VDict context));
                      ("options", Py (VList (map VStr options)));
                      ("scores", Dict (map (fun kv => (fst kv, floats (snd kv))) scores))])
        \/ (c <= DecisionMaker.autonomy_level self
            /\ exists d, DecisionMaker.select_best_option sum self scores = Return d
               /\ v = Dict [("decision", Py (VStr d));
                            ("scores", Dict (map (fun kv => (fst kv, floats (snd kv))) scores))])).
Proof.
  unfold DecisionMaker.make_decision. intros H.
  apply bind_run in H as [(scores & j1 & Hs & H)|(e & _ & [=])].
  unfold DecisionMaker.evaluate_options in Hs.
  apply bind_run in Hs as [(u & j0 & _ & Hs)|(e & _ & [=])].
  unfold pure in Hs. injection Hs as Hs _.
  apply bind_run in H as [(c & j2 & Hc & H)|(e & _ & [=])].
  unfold pure in Hc. injection Hc as Hc _.
  exists scores, c. split; [exact Hs|]. split; [exact Hc|].
  destruct (Z.ltb_spec (DecisionMaker.autonomy_level self) c) as [Hlt|Hge].
  - left. split; [exact Hlt|]. unfold DecisionMaker.escalate_to_user in H.
    apply bind_run in H as [(u' & j3 & _ & H)|(e & _ & [=])].
    injection H as <- _. reflexivity.
  - right. split; [exact Hge|].
    apply bind_run in H as [(d & j3 & Hd & H)|(e & _ & [=])].
    unfold pure in Hd. injection Hd as Hd _.
    apply bind_run in H as [(u' & j4 & _ & H)|(e & _ & [=])].
    injection H as <- _. eauto.
Qed.

(** X13.  The decision maker never prefers a later option.  Whatever
    the weights of the criteria, the constraints, the context and the
    rounding of [sum], when [make_decision] returns a decision, it is the
    first of the options: every option is given the same scores, and the
    comparison that selects the best one is strict. *)
Theorem decision_is_the_first_option sum self context options constraints j d scores j' :
  DecisionMaker.make_decision sum self context options constraints j
  = (Return (Dict [("decision", Py (VStr d)); ("scores", scores)]), j') ->
  exists rest, options = d :: rest.
Proof.
  intros H. apply make_decision_returns in H as (sc & c & Hs & _ & [[_ Hv]|[_ (d' & Hd & Hv)]]).
  - discriminate Hv.
  - injection Hv as -> _. exact (select_best_first _ _ _ _ _ _ Hs Hd).
Qed.

Lemma complexity_values context c :
  DecisionMaker.get_decision_complexity context = Return c ->
  (c = 9 /\ (exists z, kw_get context "stakeholders" = Some (VInt z) /\ 5 < z)
         /\ eq_str (kw_get context "risk_profile") "high" = true)
  \/ ((c = 5 \/ c = 7)
      /\ ~ ((exists z, kw_get context "stakeholders" = Some (VInt z) /\ 5 < z)
            /\ eq_str (kw_get context "risk_profile") "high" = true)).
Proof.
  unfold DecisionMaker.get_decision_complexity. intros H.
  apply result_bind_return in H as (many & Hmany & H).
  injection H as <-.
  destruct (kw_get context "stakeholders") as [v|] eqn:Hst; cbn [default] in Hmany.
  - destruct v as [|b|z|s|cls m|xs|items|cls text]; try discriminate Hmany;
      cbn [gt_int] in Hmany; injection Hmany as <-.
    + right. split.
      * destruct b, (eq_str _ "high"); cbn; auto.
      * intros [(z & [=] & _) _].
    + destruct (Z.ltb_spec 5 z) as [Hz|Hz], (eq_str _ "high") eqn:Hr; cbn.
      * left. split; [reflexivity|]. split; [eauto|reflexivity].
      * right. split; [auto|]. intros [_ [=]].
      * right. split; [auto|]. intros [(z' & [= <-] & Hz') _]. lia.
      * right. split; [auto|]. intros [_ [=]].
  - cbn [gt_int] in Hmany. injection Hmany as <-. right. split.
    + destruct (eq_str _ "high"); cbn; auto.
    + intros [(z & [=] & _) _].
Qed.

(** X14.  The complexity of a decision is 5, 7 or 9, never the 10 it is
    capped at; hence an agent whose autonomy level is 9 or more never
    escalates: whenever its [make_decision] returns, it returns a
    decision. *)
Theorem full_autonomy_never_escalates sum self context options constraints j v j' :
  9 <= DecisionMaker.autonomy_level self ->
  DecisionMaker.make_decision sum self context options constraints j = (Return v, j') ->
  (exists c, DecisionMaker.get_decision_complexity context = Return c
             /\ (c = 5 \/ c = 7 \/ c = 9))
  /\ field v "action" = None
  /\ exists d, field v "decision" = Some (Py (VStr d)).
Proof.
  intros Hauto H.
  apply make_decision_returns in H as (sc & c & _ & Hc & Hv).
  pose proof (complexity_values context c Hc) as Hval.
  split; [exists c; split; [exact Hc|]; destruct Hval as [[-> _]|[[-> | ->] _]]; auto|].
  destruct Hv as [[Hlt _]|[_ (d & _ & ->)]].
  - destruct Hval as [[-> _]|[[-> | ->] _]]; lia.
  - split; [reflexivity|]. exists d. reflexivity.
Qed.

(** X15.  With the autonomy level 7 that [__init__] sets, [make_decision]
    escalates exactly when the context names more than five stakeholders,
    as an [int], and the risk profile ["high"]: whenever it returns, the
    result is the escalation if both hold and a decision otherwise. *)
Theorem default_autonomy_escalation sum context options constraints j v j' :
  DecisionMaker.make_decision sum DecisionMaker.init_attrs context options constraints j
  = (Return v, j') ->
  (field v "action" = Some (Py (VStr "escalate"))
   <-> (exists z, kw_get context "stakeholders" = Some (VInt z) /\ 5 < z)
       /\ eq_str (kw_get context "risk_profile") "high" = true)
  /\ (field v "action" = None <-> exists d, field v "decision" = Some (Py (VStr d))).
Proof.
  intros H.
  apply make_decision_returns in H as (sc & c & _ & Hc & Hv).
  pose proof (complexity_values context c Hc) as Hval.
  change (DecisionMaker.autonomy_level DecisionMaker.init_attrs) with 7 in Hv.
  destruct Hv as [[Hlt ->]|[Hle (d & _ & ->)]].
  - destruct Hval as [[-> Hboth]|[[-> | ->] _]]; try lia.
    split; [split; [intros _; exact Hboth|reflexivity]|].
    split; [discriminate|intros [d [=]]].
  - destruct Hval as [[-> _]|[_ Hnot]]; [lia|].
    split; [split; [discriminate|intros Hboth; contradiction]|].
    split; [eauto|reflexivity].
Qed.

Lemma default_scores constraints :
  exists b terms,
    DecisionMaker.base_scores (DecisionMaker.criteria_weights DecisionMaker.init_attrs) constraints
    = Return b
    /\ DecisionMaker.weighted_terms b (DecisionMaker.criteria_weights DecisionMaker.init_attrs)
       = Return terms
    /\ PrimFloat.ltb PrimFloat.neg_infinity (DecisionMaker.sum_left terms) = true.
Proof.
  unfold DecisionMaker.base_scores.
  destruct (eq_str (kw_get constraints "budget") "tight"),
    (eq_str (kw_get constraints "deadline") "aggressive");
    eexists _, _; (split; [reflexivity|split; [reflexivity|vm_compute; reflexivity]]).
Qed.

(** X16.  With the weights that [__init__] sets and [sum] adding from left
    to right, a decision that is not escalated is always reached when
    there is an option, and it is the first one, whatever the constraints
    and the other options are. *)
Theorem default_decision_is_first context o rest constraints j c :
  DecisionMaker.get_decision_complexity context = Return c -> c <= 7 ->
  exists scores j',
    DecisionMaker.make_decision DecisionMaker.sum_left DecisionMaker.init_attrs
      context (o :: rest) constraints j
    = (Return (Dict [("decision", Py (VStr o)); ("scores", scores)]), j').
Proof.
  intros Hc Hle.
  destruct (default_scores constraints) as (b & terms & Hb & Hterms & Hlt).
  destruct (scores_head b rest o [] (List.Forall_nil _)) as (t' & Ht' & Hu).
  assert (Hscores : DecisionMaker.score_options (o :: rest)
                      (DecisionMaker.criteria_weights DecisionMaker.init_attrs) constraints []
                    = Return ((o, b) :: t')).
  { rewrite (score_options_run _ _ _ _ b Hb). cbn [foldl dict_set]. rewrite Ht'. reflexivity. }
  assert (Hbest : DecisionMaker.select_best_option DecisionMaker.sum_left
                    DecisionMaker.init_attrs ((o, b) :: t') = Return o).
  { unfold DecisionMaker.select_best_option. cbn [DecisionMaker.best_of].
    rewrite Hterms. cbn [mbind result_bind]. rewrite Hlt.
    rewrite (best_of_uniform _ _ b terms t' _ _ Hu Hterms (ltb_irrefl _)). reflexivity. }
  unfold DecisionMaker.make_decision, DecisionMaker.evaluate_options.
  eexists _, _.
  unfold mbind, M_bind, bind, emit, modify, pure, DecisionMaker.log_decision, ret.
  rewrite Hscores, Hc.
  destruct (Z.ltb_spec (DecisionMaker.autonomy_level DecisionMaker.init_attrs) c) as [Hlt'|_];
    [change (DecisionMaker.autonomy_level DecisionMaker.init_attrs) with 7 in Hlt'; lia|].
  rewrite Hbest. reflexivity.
Qed.

(** ** The software architect *)

Import PrimFloat.

Lemma score_all_run options scores j :
  SoftwareArchitect.score_all options scores j
  = (Return (foldl (fun d o => dict_set o 0.8%float d) scores options),
     j ++ map (fun o => (20, "Scoring architecture option=" +:+ o)) options).
Proof.
  revert scores j. induction options as [|o rest IH]; intros scores j.
  - cbn. rewrite app_nil_r. reflexivity.
  - cbn [SoftwareArchitect.score_all foldl map].
    unfold SoftwareArchitect.calculate_weighted_score.
    unfold mbind, M_bind, bind, emit, modify, ret. rewrite IH.
    rewrite <- app_assoc. reflexivity.
Qed.

Lemma max_by_uniform (b : PrimFloat.float) t best :
  uniform b t -> SoftwareArchitect.max_by t best b = best.
Proof.
  induction 1 as [|[k v] t Hv Ht IH]; [reflexivity|].
  cbn [snd] in Hv. subst v. cbn [SoftwareArchitect.max_by]. rewrite ltb_irrefl. exact IH.
Qed.

Lemma dict_set_keys {V} k (v : V) d x :
  x ∈ map fst (dict_set k v d) <-> x = k \/ x ∈ map fst d.
Proof.
  induction d as [|[k' v'] d IH]; cbn [dict_set map fst].
  - rewrite list_elem_of_singleton. split; [auto|]. intros [H|H]; [exact H|inversion H].
  - destruct (String.eqb_spec k' k) as [->|Hne]; cbn [map fst]; rewrite !elem_of_cons.
    + tauto.
    + rewrite IH. tauto.
Qed.

Lemma scores_keys {V} (b : V) options d x :
  x ∈ map fst (foldl (fun d k => dict_set k b d) d options) <-> x ∈ options \/ x ∈ map fst d.
Proof.
  revert d. induction options as [|k rest IH]; intros d; cbn [foldl].
  - split; [auto|]. intros [H|H]; [inversion H|exact H].
  - rewrite IH, dict_set_keys, elem_of_cons. tauto.
Qed.

Lemma field_dict_set k (v : value) d x :
  field (Dict (dict_set k v d)) x = if String.eqb k x then Some v else field (Dict d) x.
Proof.
  unfold field. induction d as [|[k' v'] d IH]; cbn [dict_set find fst snd].
  - destruct (String.eqb k x); reflexivity.
  - destruct (String.eqb_spec k' k) as [->|Hne]; cbn [find fst snd].
    + destruct (String.eqb k x); reflexivity.
    + destruct (String.eqb_spec k' x) as [->|Hx]; [|exact IH].
      destruct (String.eqb_spec k x) as [->|_]; [contradiction|reflexivity].
Qed.

(** The entries of [{"best_option": best, **scores}] *)
Lemma field_merged (b : float) scores base x :
  uniform b scores ->
  field (Dict (foldl (fun d kv => dict_set (fst kv) (Float (snd kv)) d) base scores)) x
  = if bool_decide (x ∈ map fst scores) then Some (Float b) else field (Dict base) x.
Proof.
  intros Hu. revert base. induction Hu as [|[k v] t Hv Ht IH]; intros base.
  - reflexivity.
  - cbn [snd] in Hv. subst v. cbn [foldl fst snd map]. rewrite IH, field_dict_set.
    destruct (decide (x ∈ map fst t)) as [Hin|Hin].
    + rewrite !bool_decide_eq_true_2 by (try right; exact Hin). reflexivity.
    + rewrite (bool_decide_eq_false_2 _ Hin).
      destruct (String.eqb_spec k x) as [->|Hne].
      * rewrite bool_decide_eq_true_2 by left. reflexivity.
      * rewrite bool_decide_eq_false_2; [reflexivity|].
        intros [Heq|Hin']%elem_of_cons; [exact (Hne (eq_sym Heq))|exact (Hin Hin')].
Qed.

(** How [evaluate_architecture_decision] runs on options of which there
    is at least one *)
Lemma evaluate_architecture_decision_run requirement o rest j :
  exists scores,
    SoftwareArchitect.evaluate_architecture_decision requirement (o :: rest) j
    = (Return (Dict (foldl (fun d kv => dict_set (fst kv) (Float (snd kv)) d)
                           [("best_option", Py (VStr o))] scores)),
       j ++ map (fun k => (20, "Scoring architecture option=" +:+ k)) (o :: rest))
    /\ uniform 0.8%float scores
    /\ forall k, k ∈ map fst scores <-> k ∈ o :: rest.
Proof.
  destruct (scores_head 0.8%float rest o [] (List.Forall_nil _)) as (t' & Ht' & Hu).
  exists ((o, 0.8%float) :: t'). split; [|split].
  - unfold SoftwareArchitect.evaluate_architecture_decision.
    rewrite (bind_ok _ _ _ _ _ (score_all_run (o :: rest) [] j)).
    cbn [foldl dict_set]. rewrite Ht'.
    unfold pure, SoftwareArchitect.select_best_option.
    rewrite (max_by_uniform _ t' o Hu).
    unfold mbind, M_bind, bind, ret. reflexivity.
  - constructor; [reflexivity|exact Hu].
  - intros k. rewrite <- Ht'.
    change ((o, 0.8%float) :: []) with (dict_set o 0.8%float []).
    change (foldl (fun d k0 => dict_set k0 0.8%float d) (dict_set o 0.8%float []) rest)
      with (foldl (fun d k0 => dict_set k0 0.8%float d) [] (o :: rest)).
    rewrite scores_keys. split; [intros [H|H]; [exact H|inversion H]|auto].
Qed.

(** X17.  The architect prefers the first option.  Every option is given
    the score 0.8, the weights adding up to one, and among equal scores
    [max] keeps the first: the entry ["best_option"] of the result is the
    first of the options, and every option has its entry with the score
    0.8, provided no option is itself called ["best_option"]. *)
Theorem architect_picks_the_first_option requirement o rest j :
  "best_option" ∉ o :: rest ->
  exists v j',
    SoftwareArchitect.evaluate_architecture_decision requirement (o :: rest) j = (Return v, j')
    /\ field v "best_option" = Some (Py (VStr o))
    /\ forall k, k ∈ o :: rest -> field v k = Some (Float 0.8%float).
Proof.
  intros Hno.
  destruct (evaluate_architecture_decision_run requirement o rest j) as (scores & Hrun & Hu & Hk).
  eexists _, _. split; [exact Hrun|]. split.
  - rewrite (field_merged _ _ _ _ Hu).
    rewrite bool_decide_eq_false_2 by (rewrite Hk; exact Hno). reflexivity.
  - intros k Hin. rewrite (field_merged _ _ _ _ Hu).
    rewrite bool_decide_eq_true_2 by (rewrite Hk; exact Hin). reflexivity.
Qed.

(** X18.  An option called ["best_option"] hides the winner.  The result
    is built as [{"best_option": best, **scores}], so that when one of the
    options has that name, the entry ["best_option"] of the result is the
    score of that option, a [float], and the name of the option that won
    appears nowhere. *)
Theorem option_named_best_option_hides_the_winner requirement o rest j :
  "best_option" ∈ o :: rest ->
  exists v j',
    SoftwareArchitect.evaluate_architecture_decision requirement (o :: rest) j = (Return v, j')
    /\ field v "best_option" = Some (Float 0.8%float)
    /\ forall k best, field v k <> Some (Py (VStr best)).
Proof.
  intros Hin.
  destruct (evaluate_architecture_decision_run requirement o rest j) as (scores & Hrun & Hu & Hk).
  eexists _, _. split; [exact Hrun|]. split.
  - rewrite (field_merged _ _ _ _ Hu).
    rewrite bool_decide_eq_true_2 by (rewrite Hk; exact Hin). reflexivity.
  - intros k best. rewrite (field_merged _ _ _ _ Hu).
    destruct (bool_decide (k ∈ map fst scores)) eqn:Hkin; [discriminate|].
    cbn [field find fst snd].
    destruct (String.eqb_spec "best_option" k) as [<-|_]; [|discriminate].
    apply bool_decide_eq_false in Hkin. rewrite Hk in Hkin. contradiction.
Qed.

(** ** The shape of the action log *)

Lemma complete_lines_app a b :
  b <> EmptyString -> complete_lines (a +:+ b) = complete_lines b.
Proof.
  intros Hb. induction a as [|c a IH]; [reflexivity|].
  change (String c a +:+ b) with (String c (a +:+ b)). cbn [complete_lines].
  destruct (a +:+ b) eqn:E; [|exact IH].
  destruct a; [cbn in E; contradiction|discriminate E].
Qed.

Lemma complete_lines_newline t : complete_lines (t +:+ Text.newline) = true.
Proof.
  destruct t as [|c t]; [reflexivity|].
  rewrite complete_lines_app by discriminate. reflexivity.
Qed.

Lemma action_line_complete now id name args kw :
  complete_lines (action_line now id name args kw) = true.
Proof.
  unfold action_line.
  repeat (rewrite complete_lines_app; [|first [discriminate | apply action_line_not_empty]]).
  repeat rewrite <- app_assoc_str.
  apply complete_lines_newline.
Qed.

Lemma take_min n s : Text.take n s = Text.take (Nat.min n (String.length s)) s.
Proof.
  revert s. induction n as [|n IH]; intros [|c s]; try reflexivity.
  cbn [Text.take String.length Nat.min]. rewrite <- IH. reflexivity.
Qed.

(** X19.  The action log stays made of complete lines as long as the
    entries get written whole.  If the text of the log is empty or ends
    with a line feed once the method has returned, it still is after the
    decorated call when the append has returned; whatever the append did,
    the log holds its former text followed by the first [n] characters of
    the line of the call, and its last line is left without its end only
    when a failing write got a part of the line out that is neither empty
    nor the whole line. *)
Theorem action_log_stays_complete {R} (func : pyfunc (method_of R)) args kwargs s r s1 :
  fn_code func args kwargs s = (Return r, s1) ->
  complete_lines (log_text (snd s1)) = true ->
  exists ra s2,
    append_action func args kwargs s1 = (ra, s2)
    /\ snd (fn_code (tool func) args kwargs s) = s2
    /\ (ra = Return tt -> complete_lines (log_text (snd s2)) = true)
    /\ exists n,
        (n <= String.length (line_of func args kwargs s1))%nat
        /\ log_text (snd s2)
           = log_text (snd s1) +:+ Text.take n (line_of func args kwargs s1)
        /\ (n = O \/ n = String.length (line_of func args kwargs s1) ->
            complete_lines (log_text (snd s2)) = true).
Proof.
  intros Hf Hc.
  destruct (append_action func args kwargs s1) as [ra s2] eqn:Ha.
  exists ra, s2. split; [reflexivity|].
  split; [rewrite (tool_state _ _ _ _ _ _ Hf), Ha; reflexivity|].
  apply append_action_spec in Ha as (_ & _ & _ & _ & [n Hn] & Hl).
  assert (Hwhole : complete_lines (log_text (snd s1) +:+ line_of func args kwargs s1) = true).
  { unfold line_of. rewrite complete_lines_app by apply action_line_not_empty.
    apply action_line_complete. }
  split; [intros ->; rewrite (Hl tt eq_refl); exact Hwhole|].
  exists (Nat.min n (String.length (line_of func args kwargs s1))).
  split; [apply Nat.le_min_r|]. rewrite <- take_min. split; [exact Hn|].
  intros [H0|Hall]; rewrite Hn, take_min.
  - rewrite H0, take_none, append_empty. exact Hc.
  - rewrite Hall, take_all. exact Hwhole.
Qed.

(** ** The categories of the Google Cloud tools *)

Section CategorizeFacts.

Context {C : Type}.

Implicit Types (tool : pyfunc C) (categories : list (string * list (pyfunc C))).

Lemma append_to_keys k tool categories :
  map fst (GcpDocs.append_to k tool categories) = map fst categories.
Proof.
  unfold GcpDocs.append_to. induction categories as [|[k' v] rest IH]; [reflexivity|].
  cbn [map fst snd]. rewrite IH. destruct (String.eqb k' k); reflexivity.
Qed.

Lemma append_to_other k tool categories :
  k ∉ map fst categories -> GcpDocs.append_to k tool categories = categories.
Proof.
  unfold GcpDocs.append_to. induction categories as [|[k' v] rest IH]; intros Hk; [reflexivity|].
  cbn [map fst snd] in *. apply not_elem_of_cons in Hk as [Hne Hk].
  rewrite (IH Hk). destruct (String.eqb_spec k' k) as [->|_]; [contradiction|reflexivity].
Qed.

Lemma append_to_concat k tool categories :
  NoDup (map fst categories) -> k ∈ map fst categories ->
  concat (map snd (GcpDocs.append_to k tool categories)) ≡ₚ concat (map snd categories) ++ [tool].
Proof.
  induction categories as [|[k' v] rest IH]; intros Hnd Hk; [inversion Hk|].
  cbn [map fst snd] in Hnd, Hk. apply NoDup_cons in Hnd as [Hk' Hnd].
  unfold GcpDocs.append_to. cbn [map fst snd].
  destruct (String.eqb_spec k' k) as [->|Hne].
  - fold (GcpDocs.append_to k tool rest). rewrite (append_to_other _ _ _ Hk').
    cbn [map snd concat]. rewrite <- !app_assoc. apply Permutation_app_head, Permutation_app_comm.
  - fold (GcpDocs.append_to k tool rest). apply elem_of_cons in Hk as [Heq|Hk]; [congruence|].
    cbn [map snd concat]. rewrite (IH Hnd Hk), app_assoc. reflexivity.
Qed.

Lemma append_to_elem k tool categories kv :
  kv ∈ GcpDocs.append_to k tool categories ->
  exists v, (fst kv, v) ∈ categories
            /\ (snd kv = v \/ (fst kv = k /\ snd kv = v ++ [tool])).
Proof.
  unfold GcpDocs.append_to. intros (kv0 & -> & Hin)%list_elem_of_fmap.
  destruct kv0 as [k' v]. cbn [fst snd].
  destruct (String.eqb_spec k' k) as [->|_]; cbn [fst snd]; eauto.
Qed.

Lemma append_to_keeps k tool categories k0 v :
  (k0, v) ∈ categories ->
  exists v', (k0, v') ∈ GcpDocs.append_to k tool categories
             /\ (v' = v \/ (k0 = k /\ v' = v ++ [tool])).
Proof.
  intros Hin. unfold GcpDocs.append_to.
  destruct (String.eqb_spec k0 k) as [->|Hne].
  - exists (v ++ [tool]). split; [|auto].
    apply list_elem_of_fmap. exists (k, v). cbn [fst snd]. rewrite String.eqb_refl. auto.
  - exists v. split; [|auto].
    apply list_elem_of_fmap. exists (k0, v). cbn [fst snd].
    destruct (String.eqb_spec k0 k); [contradiction|auto].
Qed.

(** The category a tool is appended to *)
Lemma categorize_appends categories tool :
  exists k, k ∈ map fst (@GcpDocs.categories0 C)
            /\ GcpDocs.categorize categories tool = GcpDocs.append_to k tool categories.
Proof.
  unfold GcpDocs.categorize.
  repeat match goal with |- context [if ?b then _ else _] => destruct b end;
    eexists; (split; [|reflexivity]); cbn; repeat first [left; reflexivity | right].
Qed.

(** What holds of the categories once the tools [done] were visited *)
Lemma categorize_all (done tools : list (pyfunc C)) categories :
  map fst categories = map fst (@GcpDocs.categories0 C) ->
  concat (map snd categories) ≡ₚ done ->
  Forall (fun kv => sublist (snd kv) done) categories ->
  let categories' := foldl GcpDocs.categorize categories tools in
  map fst categories' = map fst (@GcpDocs.categories0 C)
  /\ concat (map snd categories') ≡ₚ done ++ tools
  /\ Forall (fun kv => sublist (snd kv) (done ++ tools)) categories'.
Proof.
  revert done categories. induction tools as [|tool rest IH]; intros done categories Hk Hp Hs.
  - cbn. rewrite app_nil_r. auto.
  - cbn [foldl].
    destruct (categorize_appends categories tool) as (k & Hin & ->).
    replace (done ++ tool :: rest) with ((done ++ [tool]) ++ rest)
      by (rewrite <- app_assoc; reflexivity).
    apply IH.
    + rewrite append_to_keys. exact Hk.
    + rewrite append_to_concat, Hp; [reflexivity| |].
      * rewrite Hk. cbn. repeat constructor; cbn; intros H;
          repeat (apply elem_of_cons in H as [H|H]; [discriminate H|]); inversion H.
      * rewrite Hk. exact Hin.
    + apply Forall_forall. intros kv (v & Hv & Hcase)%append_to_elem.
      rewrite Forall_forall in Hs. specialize (Hs _ Hv). cbn [snd] in Hs.
      destruct Hcase as [->|[_ ->]].
      * apply sublist_inserts_r. exact Hs.
      * apply sublist_app; [exact Hs|reflexivity].
Qed.

Lemma filter_nonempty_concat categories :
  concat (map snd (List.filter (fun kv : string * list (pyfunc C) =>
                                  match snd kv with [] => false | _ :: _ => true end)
                               categories))
  = concat (map snd categories).
Proof.
  induction categories as [|[k [|x v]] rest IH]; cbn [List.filter map snd concat fst].
  - reflexivity.
  - exact IH.
  - rewrite IH. reflexivity.
Qed.

Lemma filter_sublist {A} (f : A -> bool) (l : list A) : sublist (List.filter f l) l.
Proof.
  induction l as [|x l IH]; cbn [List.filter]; [constructor|].
  destruct (f x); [apply sublist_skip|apply sublist_cons]; exact IH.
Qed.

(** X21.  [_categorize_tools] sorts the tools into categories without
    losing or repeating any: the lists of the categories, taken together,
    hold each tool as many times as it was given, and each list keeps the
    tools in the order they were given; no category of the result is
    empty, and the categories come in the order BigQuery, Cloud Storage,
    Pub/Sub, Vertex AI, Monitoring, Compute, Other. *)
Theorem categories_partition_the_tools (tools : list (pyfunc C)) :
  concat (map snd (GcpDocs._categorize_tools tools)) ≡ₚ tools
  /\ Forall (fun kv => snd kv <> [] /\ sublist (snd kv) tools) (GcpDocs._categorize_tools tools)
  /\ sublist (map fst (GcpDocs._categorize_tools tools))
             ["BigQuery"; "Cloud Storage"; "Pub/Sub"; "Vertex AI"; "Monitoring"; "Compute";
              "Other"].
Proof.
  destruct (categorize_all [] tools GcpDocs.categories0 eq_refl (Permutation_refl _))
    as (Hk & Hp & Hs).
  { repeat constructor. }
  cbn [app] in Hp, Hs. unfold GcpDocs._categorize_tools.
  split; [rewrite filter_nonempty_concat; exact Hp|]. split.
  - apply List.Forall_forall. intros kv [Hin Hne]%filter_In.
    split; [destruct (snd kv); [discriminate Hne|discriminate]|].
    rewrite List.Forall_forall in Hs. exact (Hs _ Hin).
  - change ["BigQuery"; "Cloud Storage"; "Pub/Sub"; "Vertex AI"; "Monitoring"; "Compute"; "Other"]
      with (map fst (@GcpDocs.categories0 C)).
    rewrite <- Hk. apply (fmap_sublist fst), filter_sublist.
Qed.

Lemma categorize_keeps categories tool k v x :
  (k, v) ∈ categories -> x ∈ v ->
  exists v', (k, v') ∈ GcpDocs.categorize categories tool /\ x ∈ v'.
Proof.
  intros Hin Hx. destruct (categorize_appends categories tool) as (k' & _ & ->).
  destruct (append_to_keeps k' tool categories k v Hin) as (v' & Hin' & [->|[_ ->]]).
  - eauto.
  - exists (v ++ [tool]). split; [exact Hin'|]. apply elem_of_app. left. exact Hx.
Qed.

Lemma foldl_categorize_keeps tools categories k v x :
  (k, v) ∈ categories -> x ∈ v ->
  exists v', (k, v') ∈ foldl GcpDocs.categorize categories tools /\ x ∈ v'.
Proof.
  revert categories v. induction tools as [|tool rest IH]; intros categories v Hin Hx; [eauto|].
  cbn [foldl]. destruct (categorize_keeps categories tool k v x Hin Hx) as (v' & Hin' & Hx').
  exact (IH _ _ Hin' Hx').
Qed.

(** X22.  Any tool whose name holds the letters [ai] counts as a Vertex
    AI tool, unless its name holds [bigquery], [storage] or [pubsub]:
    whatever else the name says (a name such as [list_available_instances]
    speaks of instances), and in whatever case it is written, the tool is
    filed under Vertex AI, for that test comes before those for
    Monitoring and Compute. *)
Theorem ai_in_the_name_means_vertex_ai (tools : list (pyfunc C)) tool :
  tool ∈ tools ->
  Str.substring_in "ai" (Str.lower (fn_name tool)) = true ->
  Str.substring_in "bigquery" (Str.lower (fn_name tool)) = false ->
  Str.substring_in "storage" (Str.lower (fn_name tool)) = false ->
  Str.substring_in "pubsub" (Str.lower (fn_name tool)) = false ->
  exists v, ("Vertex AI", v) ∈ GcpDocs._categorize_tools tools /\ tool ∈ v.
Proof.
  intros (before & after & ->)%list_elem_of_split Hai Hbq Hst Hps.
  rewrite <- (app_nil_l (before ++ tool :: after)).
  destruct (categorize_all [] before GcpDocs.categories0 eq_refl (Permutation_refl _))
    as (Hk & _ & _).
  { repeat constructor. }
  unfold GcpDocs._categorize_tools. cbn [app]. rewrite foldl_app. cbn [foldl].
  set (categories := foldl GcpDocs.categorize GcpDocs.categories0 before) in *.
  assert (Hstep : GcpDocs.categorize categories tool
                  = GcpDocs.append_to "Vertex AI" tool categories).
  { unfold GcpDocs.categorize. rewrite Hbq, Hst, Hps, Hai, orb_true_r. reflexivity. }
  assert (Hhas : exists v, ("Vertex AI", v) ∈ categories).
  { assert (Hin : "Vertex AI" ∈ map fst categories)
      by (rewrite Hk; cbn; do 3 right; left).
    apply list_elem_of_fmap in Hin as ([k v] & Heq & Hin). cbn in Heq. subst k. eauto. }
  destruct Hhas as [v Hv].
  destruct (append_to_keeps "Vertex AI" tool categories _ v Hv) as (v' & Hv' & Hcase).
  assert (Hx : tool ∈ v ++ [tool]) by (apply elem_of_app; right; left).
  assert (Hv'' : ("Vertex AI", v ++ [tool]) ∈ GcpDocs.categorize categories tool).
  { rewrite Hstep. unfold GcpDocs.append_to. apply list_elem_of_fmap.
    exists ("Vertex AI", v). split; [reflexivity|exact Hv]. }
  destruct (foldl_categorize_keeps after _ _ _ tool Hv'' Hx) as (w & Hw & Hxw).
  exists w. split; [|exact Hxw].
  apply list_elem_of_In, filter_In. split; [apply list_elem_of_In; exact Hw|].
  cbn [snd]. destruct w; [inversion Hxw|reflexivity].
Qed.

End CategorizeFacts.

(** ** The properties at work *)

Lemma logged_line_parses_back_witness :
  parse_entry (strip (action_line (MkDatetime 2025 1 2 3 4 5 6) "scraping-agent-001" "scrape"
                                  [url] (kwargs_json [])))
  = Some ("scraping-agent-001", "scrape").
Proof. apply logged_line_parses_back; reflexivity. Defined.


(** Asked about the action log of an installation that has none yet,
    [DocumentationAgent] reports no action and leaves the log with one
    entry, its own. *)
Lemma summary_of_missing_log_witness :
  exists w',
    fn_code decorated_summarize_action_logs [VStr "/srv/app/agents/AGENT_ACTIONS.md"] []
            (documenter, world1)
    = (Return (VDict [("total", VInt 0); ("by_agent", VDict []); ("by_tool", VDict [])]),
       (documenter, w'))
    /\ w_records w'
       = w_records world1
         ++ [MkLogRecord "DocumentationAgent" INFO
               "Summarizing action logs from /srv/app/agents/AGENT_ACTIONS.md"]
    /\ fs_files (w_fs w') !! "/srv/app/agents/AGENT_ACTIONS.md"
       = Some (action_line (MkDatetime 2025 1 2 3 4 5 6) "documentation-agent-001"
                           "summarize_action_logs"
                           [VStr "/srv/app/agents/AGENT_ACTIONS.md"] "{}").
Proof.
  destruct (summary_of_missing_log "/srv/app/agents/AGENT_ACTIONS.md" documenter world1)
    as (w' & Hrun & Hrec & _ & Hlog); [compute_done|compute_done|].
  exists w'. split; [exact Hrun|]. split; [exact Hrec|].
  apply Hlog; [reflexivity|constructor|split; compute_done].
Defined.

Lemma summary_counts_add_up_witness :
  exists c,
    summary (MkCounts 1 [("scraping-agent-001", 1)] [("scrape", 1)]) = summary c
    /\ tally (by_agent c) = tally (by_tool c)
    /\ 0 <= tally (by_agent c) <= total c
    /\ NoDup (map fst (by_agent c)) /\ NoDup (map fst (by_tool c))
    /\ Forall (fun kn => 1 <= snd kn) (by_agent c)
    /\ Forall (fun kn => 1 <= snd kn) (by_tool c).
Proof.
  set (run := summarize_action_logs "/srv/app/agents/AGENT_ACTIONS.md"
                (snd (fn_code scrape [url] [] (scraper, world1)))).
  apply (summary_counts_add_up "/srv/app/agents/AGENT_ACTIONS.md"
           (snd (fn_code scrape [url] [] (scraper, world1)))
           (summary (MkCounts 1 [("scraping-agent-001", 1)] [("scrape", 1)]))
           (snd run)).
  transitivity (fst run, snd run); [apply surjective_pairing|].
  apply (f_equal (fun r => (r, snd run))). vm_compute. reflexivity.
Defined.


(** A call that ends with what a [__repr__] raised has logged what the
    method logged, and nothing else. *)
Lemma logging_an_action_is_silent_witness :
  let project := VDict [("name", VStr "repo"); ("owner", VObject "Owner" "<Owner>")] in
  let w := set_reprs [Some (MkExn "SystemExit" false "1")] world1 in
  let logged := set_records (w_records w ++ [MkLogRecord "UpdaterAgent" INFO
                                               "Updating dependencies for: repo"]) w in
  exists ro s2,
    fn_code Updater.update_dependencies [project] [] (Updater.updater, w) = (ro, s2)
    /\ fst s2 = Updater.updater
    /\ w_records (snd s2) = w_records logged
    /\ w_heap (snd s2) = w_heap world1
    /\ w_environ (snd s2) = w_environ world1
    /\ (forall p, p <> "/srv/app/agents/AGENT_ACTIONS.md" ->
        fs_files (w_fs (snd s2)) !! p = fs_files (w_fs world1) !! p).
Proof.
  intros project w logged.
  apply (logging_an_action_is_silent Updater.update_dependencies_def [project] []
           (Updater.updater, w)
           (VDict [("status", VStr "updated"); ("project", VStr "repo")])
           (Updater.updater, logged)).
  reflexivity.
Defined.

Lemma action_log_beside_package_witness :
  action_log_path ("/srv/app" +:+ "/" +:+ "agents" +:+ "/" +:+ "shared" +:+ "/" +:+ "base_agent.py")
  = "/srv/app" +:+ "/agents/AGENT_ACTIONS.md".
Proof. apply action_log_beside_package; reflexivity. Defined.

Lemma update_state_twice_witness :
  exists l1 a1 w1 l2 a2 w2 l a' w',
    update_state [("status", VStr "busy")] (scraper, world1) = (Return l1, (a1, w1))
    /\ update_state [("current_task", VStr "T1")] (a1, w1) = (Return l2, (a2, w2))
    /\ update_state ([("status", VStr "busy")] ++ [("current_task", VStr "T1")]) (scraper, world1)
       = (Return l, (a', w'))
    /\ w_heap w2 !! state a2
       = Some (model_copy AgentState_default
                 ([("status", VStr "busy")] ++ [("current_task", VStr "T1")]))
    /\ w_heap w' !! state a'
       = Some (model_copy AgentState_default
                 ([("status", VStr "busy")] ++ [("current_task", VStr "T1")]))
    /\ fst (get_state (a2, w2))
       = Return (model_dump (model_copy AgentState_default
                               ([("status", VStr "busy")] ++ [("current_task", VStr "T1")])))
    /\ fst (get_state (a', w')) = fst (get_state (a2, w2)).
Proof.
  apply (update_state_twice [("status", VStr "busy")] [("current_task", VStr "T1")]
           scraper world1 AgentState_default).
  reflexivity.
Defined.

Lemma campaign_without_channel_fails_witness :
  exists w',
    fn_code create_campaign [VDict [("product", VStr "tea"); ("channels", VList [])]] []
            (agency, world1)
    = (Raise (MkExn "IndexError" true "list index out of range"), (agency, w'))
    /\ log_text w' = log_text world1
    /\ w_records w'
       = w_records world1
         ++ [MkLogRecord "MarketingAgencyAgent" INFO
               "Campaign for tea -> audience via 0 channels"].
Proof.
  apply (campaign_without_channel_fails [("product", VStr "tea"); ("channels", VList [])]
           (agency, world1)).
  reflexivity.
Defined.

(** On a disk that fills up while the entry is written, the log is left
    with the first ten characters of the entry. *)
Lemma action_log_stays_complete_witness :
  (exists ra s2,
     append_action scrape_def [url] [] (scraper, scraped (disk_full world1)) = (ra, s2)
     /\ snd (fn_code (tool scrape_def) [url] [] (scraper, disk_full world1)) = s2
     /\ (ra = Return tt -> complete_lines (log_text (snd s2)) = true)
     /\ exists n,
         (n <= String.length (line_of scrape_def [url] [] (scraper, scraped (disk_full world1))))%nat
         /\ log_text (snd s2)
            = log_text (scraped (disk_full world1))
              +:+ Text.take n (line_of scrape_def [url] [] (scraper, scraped (disk_full world1)))
         /\ (n = O \/ n = String.length (line_of scrape_def [url] []
                                                 (scraper, scraped (disk_full world1))) ->
             complete_lines (log_text (snd s2)) = true))
  /\ fst (fn_code scrape [url] [] (scraper, disk_full world1)) = Return content
  /\ log_text (snd (snd (fn_code scrape [url] [] (scraper, disk_full world1)))) = "- 2025-01-"
  /\ complete_lines "- 2025-01-" = false.
Proof.
  split.
  - apply (action_log_stays_complete scrape_def [url] [] (scraper, disk_full world1) content
             (scraper, scraped (disk_full world1))); reflexivity.
  - split; [vm_compute; reflexivity|]. split; [vm_compute; reflexivity|reflexivity].
Defined.

Lemma decision_is_the_first_option_witness :
  exists rest, ["monolith"; "microservices"] = "monolith" :: rest.
Proof.
  eapply (decision_is_the_first_option DecisionMaker.sum_left DecisionMaker.init_attrs
            [] ["monolith"; "microservices"] [("budget", VStr "tight")] []).
  vm_compute. reflexivity.
Defined.

Lemma full_autonomy_never_escalates_witness :
  let self := DecisionMaker.MkDecisionMaker 9
                (DecisionMaker.criteria_weights DecisionMaker.init_attrs) in
  let context := [("stakeholders", VInt 6); ("risk_profile", VStr "high")] in
  let run := DecisionMaker.make_decision DecisionMaker.sum_left self context ["monolith"] [] [] in
  (exists c, DecisionMaker.get_decision_complexity context = Return c
             /\ (c = 5 \/ c = 7 \/ c = 9))
  /\ (exists v, fst run = Return v /\ field v "action" = None
                /\ exists d, field v "decision" = Some (Py (VStr d))).
Proof.
  intros self context run.
  destruct run as [[v|e] j'] eqn:Hrun; [|vm_compute in Hrun; discriminate Hrun].
  destruct (full_autonomy_never_escalates DecisionMaker.sum_left self context ["monolith"] []
              [] v j') as (Hc & Ha & Hd).
  - vm_compute. discriminate.
  - exact Hrun.
  - split; [exact Hc|]. exists v. split; [reflexivity|]. split; [exact Ha|exact Hd].
Defined.

Lemma default_autonomy_escalation_witness :
  let context := [("stakeholders", VInt 6); ("risk_profile", VStr "high")] in
  let run := DecisionMaker.make_decision DecisionMaker.sum_left DecisionMaker.init_attrs
               context ["monolith"] [] [] in
  exists v, fst run = Return v
    /\ (field v "action" = Some (Py (VStr "escalate"))
        <-> (exists z, kw_get context "stakeholders" = Some (VInt z) /\ 5 < z)
            /\ eq_str (kw_get context "risk_profile") "high" = true)
    /\ (field v "action" = None <-> exists d, field v "decision" = Some (Py (VStr d))).
Proof.
  intros context run.
  destruct run as [[v|e] j'] eqn:Hrun; [|vm_compute in Hrun; discriminate Hrun].
  exists v. split; [reflexivity|].
  exact (default_autonomy_escalation DecisionMaker.sum_left context ["monolith"] [] [] v j' Hrun).
Defined.

Lemma default_decision_is_first_witness :
  exists scores j',
    DecisionMaker.make_decision DecisionMaker.sum_left DecisionMaker.init_attrs
      [("stakeholders", VInt 6)] ("monolith" :: ["microservices"]) [("deadline", VStr "aggressive")] []
    = (Return (Dict [("decision", Py (VStr "monolith")); ("scores", scores)]), j').
Proof.
  apply (default_decision_is_first [("stakeholders", VInt 6)] "monolith" ["microservices"]
           [("deadline", VStr "aggressive")] [] 7).
  - reflexivity.
  - lia.
Defined.

Lemma architect_picks_the_first_option_witness :
  exists v j',
    SoftwareArchitect.evaluate_architecture_decision "storage" ("monolith" :: ["microservices"]) []
    = (Return v, j')
    /\ field v "best_option" = Some (Py (VStr "monolith"))
    /\ forall k, k ∈ "monolith" :: ["microservices"] -> field v k = Some (Float 0.8%float).
Proof.
  apply (architect_picks_the_first_option "storage" "monolith" ["microservices"] []).
  compute_done.
Defined.

Lemma option_named_best_option_hides_the_winner_witness :
  exists v j',
    SoftwareArchitect.evaluate_architecture_decision "storage" ("monolith" :: ["best_option"]) []
    = (Return v, j')
    /\ field v "best_option" = Some (Float 0.8%float)
    /\ forall k best, field v k <> Some (Py (VStr best)).
Proof.
  apply (option_named_best_option_hides_the_winner "storage" "monolith" ["best_option"] []).
  compute_done.
Defined.

Lemma failed_lookup_gives_empty_summary_witness :
  fst (summarize_action_logs "/srv/app/agents/AGENT_ACTIONS.md"
         (scraper, read_only (snd (snd (fn_code scrape [url] [] (scraper, world1))))))
  = Return (VDict [("total", VInt 0); ("by_agent", VDict []); ("by_tool", VDict [])]).
Proof.
  apply (failed_lookup_gives_empty_summary _ _ _ EROFS [Some EROFS; Some EROFS; Some EROFS]).
  reflexivity.
Defined.

Lemma ai_in_the_name_means_vertex_ai_witness :
  exists v,
    ("Vertex AI", v)
    ∈ GcpDocs._categorize_tools
        [MkFunc "list_available_instances" [] None tt; MkFunc "query_bigquery" [] None tt]
    /\ MkFunc "list_available_instances" [] None tt ∈ v.
Proof.
  apply (ai_in_the_name_means_vertex_ai
           [MkFunc "list_available_instances" [] None tt; MkFunc "query_bigquery" [] None tt]
           (MkFunc "list_available_instances" [] None tt)).
  - left.
  - reflexivity.
  - reflexivity.
  - reflexivity.
  - reflexivity.
Defined.
